(** * build_release.py: the release tool of an Elasticsearch plugin

  A shallow embedding of [dev-tools/build_release.py] and the proofs of
  the properties its specification states.

  Conventions of the embedding.
  - A Python [str] is a [string]; a Python [int] that comes out of a run of
    digits is an [N].
  - [d[i]] on a list is a lookup that may fail: the functions that index
    the list of digits return [option], [None] standing for [IndexError].
  - Code with effects (files, environment, git, the issue tracker, the
    mailer, the operator's console) runs in the monad [Py] over a [world];
    what lies outside the script (exit statuses of tools, what they leave
    on disk, revisions that git creates) is read from an oracle.
  - [print] is not modelled: no property observes the console output. *)

From Stdlib Require Import ZArith NArith Ascii String List Lia.
From Stdlib Require Import Decimal DecimalString DecimalN.
From stdpp Require Import base tactics option list gmap strings.

Local Open Scope N_scope.

(** ** Strings *)

Module Str.

Definition is_digit (c : ascii) : bool :=
  match c with
  | "0" | "1" | "2" | "3" | "4" | "5" | "6" | "7" | "8" | "9" => true
  | _ => false
  end%char.

Fixpoint all_digits (s : string) : bool :=
  match s with
  | "" => true
  | String c s' => is_digit c && all_digits s'
  end.

Fixpoint no_digit (s : string) : bool :=
  match s with
  | "" => true
  | String c s' => negb (is_digit c) && no_digit s'
  end.

Definition no_leading_digit (s : string) : bool :=
  match s with
  | "" => true
  | String c _ => negb (is_digit c)
  end.

(** [s.startswith(p)] *)
Fixpoint startswith (p s : string) : bool :=
  match p, s with
  | "", _ => true
  | String a p', String b s' => Ascii.eqb a b && startswith p' s'
  | String _ _, "" => false
  end.

(** [p in s], which is also [s.find(p) >= 0] *)
Fixpoint contains (p s : string) : bool :=
  startswith p s ||
  match s with
  | "" => false
  | String _ s' => contains p s'
  end.

(** [str(n)] and ['%s' % n] for a non-negative integer *)
Definition of_int (n : N) : string := NilEmpty.string_of_uint (N.to_uint n).

(** [int(s)] for a run of decimal digits *)
Definition to_int (s : string) : N :=
  match NilEmpty.uint_of_string s with
  | Some d => N.of_uint d
  | None => 0
  end.

Definition flush (cur : string) : list string :=
  match cur with "" => [] | _ => [cur] end.

(** [re.findall(r'\d+', s)]: the maximal runs of digits, left to right.
    [cur] is the run being read. *)
Fixpoint findall_digits_from (cur s : string) : list string :=
  match s with
  | "" => flush cur
  | String c s' =>
      if is_digit c then findall_digits_from (cur +:+ String c "") s'
      else flush cur ++ findall_digits_from "" s'
  end.

Definition findall_digits (s : string) : list string :=
  findall_digits_from "" s.

(** [s.replace(old, new)] for a non-empty [old]: the occurrences of [old]
    are taken left to right and do not overlap. [skip] counts the
    characters of a matched occurrence still to be dropped. *)
Fixpoint replace_from (old new : string) (skip : nat) (s : string) : string :=
  match s with
  | "" => ""
  | String c s' =>
      match skip with
      | S k => replace_from old new k s'
      | O =>
          if startswith old s
          then new +:+ replace_from old new (String.length old - 1) s'
          else String c (replace_from old new 0 s')
      end
  end.

(** With an empty [old] Python puts [new] before every character and at
    the end. *)
Fixpoint interleave (new s : string) : string :=
  match s with
  | "" => new
  | String c s' => new +:+ String c (interleave new s')
  end.

Definition replace (old new s : string) : string :=
  match old with
  | "" => interleave new s
  | _ => replace_from old new 0 s
  end.

(** The double quote, which a literal cannot hold. *)
Definition dquote : string := String (ascii_of_nat 34) "".

End Str.

(** ** String and file manipulation utils of the script *)

(** [release_branch(branchsource, version)] *)
Definition release_branch (branchsource version : string) : string :=
  "release_branch_" +:+ branchsource +:+ "_" +:+ version.

(** [split_version_to_digits(version)] *)
Definition split_version_to_digits (version : string) : list N :=
  map Str.to_int (Str.findall_digits version).

(** ['%s.%s.%s' % (a, b, c)] *)
Definition dotted (a b c : N) : string :=
  Str.of_int a +:+ "." +:+ Str.of_int b +:+ "." +:+ Str.of_int c.

(** [guess_snapshot(version)]; [None] is the [IndexError] of [digits[i]]. *)
Definition guess_snapshot (version : string) : option string :=
  let digits := split_version_to_digits version in
  d0 ← digits !! 0%nat;
  d1 ← digits !! 1%nat;
  d2 ← digits !! 2%nat;
  let source := dotted d0 d1 d2 in
  let destination := dotted d0 d1 (d2 + 1) in
  Some (Str.replace source destination version).

(** [get_doc_anchor(release, esversion)] *)
Definition get_doc_anchor (release esversion : string) : option string :=
  let plugin_digits := split_version_to_digits release in
  let es_digits := split_version_to_digits esversion in
  p0 ← plugin_digits !! 0%nat;
  p1 ← plugin_digits !! 1%nat;
  p2 ← plugin_digits !! 2%nat;
  e0 ← es_digits !! 0%nat;
  e1 ← es_digits !! 1%nat;
  Some ("#version-" +:+ Str.of_int p0 +:+ Str.of_int p1 +:+ Str.of_int p2
        +:+ "-for-elasticsearch-" +:+ Str.of_int e0 +:+ Str.of_int e1).

(** ** Text files and paths *)

Module Text.

Definition LF : ascii := ascii_of_nat 10.
Definition CR : ascii := ascii_of_nat 13.
Definition newline : string := String LF "".

(** What a file opened in text mode with the default [newline=None] hands
    to the program: ["\r\n"] and a lone ["\r"] are read as ["\n"]. *)
Fixpoint universal_newlines (s : string) : string :=
  match s with
  | "" => ""
  | String c s' =>
      if Ascii.eqb c CR then
        match s' with
        | String c' s'' =>
            if Ascii.eqb c' LF then String LF (universal_newlines s'')
            else String LF (universal_newlines s')
        | "" => newline
        end
      else String c (universal_newlines s')
  end.

(** The lines of a text, each with its terminator; [cur] is the line being
    read. *)
Fixpoint lines_from (cur s : string) : list string :=
  match s with
  | "" => Str.flush cur
  | String c s' =>
      if Ascii.eqb c LF then (cur +:+ newline) :: lines_from "" s'
      else lines_from (cur +:+ String c "") s'
  end.

(** [for line in file], over the text as it was read *)
Definition lines (text : string) : list string := lines_from "" text.

(** [''.join(l)] *)
Fixpoint join (l : list string) : string :=
  match l with
  | [] => ""
  | s :: l' => s +:+ join l'
  end.

Definition is_slash (c : ascii) : bool := Ascii.eqb c "/"%char.

(** [(p[:i], p[i:])] for [i = p.rfind('/') + 1], when [p] has a slash *)
Fixpoint split_last_slash (p : string) : option (string * string) :=
  match p with
  | "" => None
  | String c p' =>
      match split_last_slash p' with
      | Some (h, t) => Some (String c h, t)
      | None => if is_slash c then Some (String c "", p') else None
      end
  end.

Fixpoint all_slashes (s : string) : bool :=
  match s with
  | "" => true
  | String c s' => is_slash c && all_slashes s'
  end.

Fixpoint lstrip_slashes (s : string) : string :=
  match s with
  | "" => ""
  | String c s' => if is_slash c then lstrip_slashes s' else s
  end.

Definition rstrip_slashes (s : string) : string :=
  String.rev (lstrip_slashes (String.rev s)).

(** [os.path.basename] *)
Definition basename (p : string) : string :=
  match split_last_slash p with
  | Some (_, t) => t
  | None => p
  end.

(** [os.path.dirname] *)
Definition dirname (p : string) : string :=
  match split_last_slash p with
  | Some (h, _) => if all_slashes h then h else rstrip_slashes h
  | None => ""
  end.

(** [os.path.join(a, b)] *)
Definition path_join (a b : string) : string :=
  if Str.startswith "/" b then b
  else match a with
       | "" => b
       | _ => if Str.startswith "/" (String.rev a) then a +:+ b
              else a +:+ "/" +:+ b
       end.

End Text.

(** ** The world outside the script *)

(** The shell commands the script issues. [cmdline] gives the text the
    script passes to [os.system]. *)
Inductive command :=
  | GitCheckout (branch : string)
  | GitFetch (remote : string)
  | GitPullRebase (remote branch : string)
  | GitCheckoutNew (branch : string)
  | GitAdd (file : string)
  | GitCommit (message : string)
  | GitTag (name message : string)
  | GitMerge (branch : string)
  | GitPush (remote : string) (refs : list string)
  | GitResetHard (revision : string)
  | GitTagDelete (name : string)
  | GitBranchDelete (branch : string)
  | Shell (line : string).

Definition cmdline (c : command) : string :=
  match c with
  | GitCheckout b => "git checkout " +:+ b
  | GitFetch r => "git fetch " +:+ r
  | GitPullRebase r b => "git pull --rebase " +:+ r +:+ " " +:+ b
  | GitCheckoutNew b => "git checkout -b " +:+ b
  | GitAdd f => "git add " +:+ f
  | GitCommit m => "git commit -m " +:+ Str.dquote +:+ m +:+ Str.dquote
  | GitTag t m =>
      "git tag -a " +:+ t +:+ " -m " +:+ Str.dquote +:+ m +:+ Str.dquote
  | GitMerge b => "git merge " +:+ b
  | GitPush r refs => "git push " +:+ r +:+ Text.join (map (String.append " ") refs)
  | GitResetHard h => "git reset --hard " +:+ h
  | GitTagDelete t => "git tag -d " +:+ t
  | GitBranchDelete b => "git branch -D " +:+ b
  | Shell l => l
  end.

Definition is_git (c : command) : bool :=
  match c with Shell _ => false | _ => true end.

(** The local repository as far as the script observes it: the head
    revision of each local branch, the branch that is checked out, and the
    tags. *)
Record repo := Repo {
  branches : gmap string string;
  HEAD : string;
  tags : gmap string string
}.

Definition head_revision (r : repo) : option string := branches r !! HEAD r.

Definition set_head_revision (h : string) (r : repo) : repo :=
  Repo (<[HEAD r := h]> (branches r)) (HEAD r) (tags r).

(** What a git command that exits with status 0 does to the references;
    [None] when git refuses the command. [fresh] is the revision a commit,
    a merge or a rebase ends on. The repository is the local one alone:
    [git checkout] of a name that is no local branch is refused here,
    whereas git makes the local branch when a remote has one of that
    name; the runs this covers are those on branches that exist
    locally. *)
Definition git_step (fresh : string) (c : command) (r : repo) : option repo :=
  match c with
  | GitCheckout b =>
      match branches r !! b with
      | Some _ => Some (Repo (branches r) b (tags r))
      | None => None
      end
  | GitCheckoutNew b =>
      match branches r !! b, head_revision r with
      | None, Some h => Some (Repo (<[b := h]> (branches r)) b (tags r))
      | _, _ => None
      end
  | GitPullRebase _ _ | GitCommit _ =>
      match head_revision r with
      | Some _ => Some (set_head_revision fresh r)
      | None => None
      end
  | GitMerge b =>
      match branches r !! b, head_revision r with
      | Some _, Some _ => Some (set_head_revision fresh r)
      | _, _ => None
      end
  | GitTag t _ =>
      match tags r !! t, head_revision r with
      | None, Some h => Some (Repo (branches r) (HEAD r) (<[t := h]> (tags r)))
      | _, _ => None
      end
  | GitResetHard h =>
      match head_revision r with
      | Some _ => Some (set_head_revision h r)
      | None => None
      end
  | GitTagDelete t =>
      match tags r !! t with
      | Some _ => Some (Repo (branches r) (HEAD r) (delete t (tags r)))
      | None => None
      end
  | GitBranchDelete b =>
      match branches r !! b with
      | Some _ =>
          if decide (b = HEAD r) then None
          else Some (Repo (delete b (branches r)) (HEAD r) (tags r))
      | None => None
      end
  | GitFetch _ | GitAdd _ | GitPush _ _ | Shell _ => Some r
  end.

(** An issue of the tracker. *)
Record issue := Issue {
  issue_number : N;
  issue_title : string;
  issue_url : string;
  is_open : bool;
  labels : list string
}.

(** A request handed to the SMTP server. *)
Record smtp_request := SmtpRequest {
  smtp_host : string;
  smtp_port : N;
  smtp_from : option string;
  smtp_to : string;
  smtp_body : string
}.

(** An entry of the log file: a command that [run] logs, or a message. *)
Inductive log_entry :=
  | LogRun (c : command)
  | LogMsg (msg : string).

Record world := World {
  env : gmap string string;          (* os.environ *)
  fs : gmap string string;           (* the text files, by path *)
  git : repo;
  tracker : gmap string (list issue);(* the issues of each repository *)
  stdin : list string;               (* the operator's answers to come *)
  outbox : list smtp_request;        (* what was handed to the mailer *)
  trace : list log_entry;            (* the log file since its purge *)
  clock : nat                        (* external interactions so far *)
}.

(** What the machine answers. Every answer may depend on the moment
    ([clock]) it is asked at. *)
Record host := Host {
  ROOT_DIR : string;
  SCRIPT_DIR : string;
  exit_ok : nat → command → bool;      (* the command exits with status 0 *)
  files_after : nat → command → gmap string string → gmap string string;
  new_rev : nat → string;
  popen_read : nat → string → string;  (* os.popen(cmd).read() *)
  tmp_name : nat → string;             (* the path tempfile.mkstemp picks *)
  smtp_ok : nat → bool
}.

(** The Python libraries the script calls and whose code is not its own. *)
Record pylib := PyLib {
  (** [re.search(pattern, line)]: [None] when there is no match, else
      group 1 of the leftmost match (empty when the pattern has no group) *)
  re_search : string → string → option string;
  (** [re.sub(pattern, replacement, line)] *)
  re_sub : string → string → string → string;
  (** [template % dict]; [None] when the formatting raises *)
  py_format : string → list (string * string) → option string
}.

Inductive exn :=
  | RuntimeError
  | NameError
  | KeyError
  | IndexError
  | ValueError
  | AttributeError
  | FileNotFoundError
  | EOFError
  | CalledProcessError
  | SMTPException
  | SystemExit (status : Z).

Inductive outcome (A : Type) :=
  | Ok (a : A)
  | Raise (e : exn).
Arguments Ok {A} a.
Arguments Raise {A} e.

Definition is_ok {A} (r : outcome A) : bool :=
  match r with Ok _ => true | Raise _ => false end.

(** The exit status of the process: 0 when the script runs to its end, 1
    after an exception nobody caught, and after [sys.exit(s)] the low
    eight bits of [s], which is all the system keeps of it. *)
Definition exit_status {A} (r : outcome A) : Z :=
  match r with
  | Ok _ => 0
  | Raise (SystemExit s) => s mod 256
  | Raise _ => 1
  end%Z.

(** ** The monad of the script: state and exceptions *)

Definition Py (A : Type) : Type := world → outcome A * world.

Definition ret {A} (a : A) : Py A := fun w => (Ok a, w).

Definition bind {A B} (m : Py A) (f : A → Py B) : Py B :=
  fun w =>
    match m w with
    | (Ok a, w') => f a w'
    | (Raise e, w') => (Raise e, w')
    end.

Definition raise {A} (e : exn) : Py A := fun w => (Raise e, w).

Notation "x <- m ;; k" := (bind m (fun x => k))
  (at level 100, m at next level, k at level 200, right associativity,
   only parsing).
Notation "m ;; k" := (bind m (fun _ => k))
  (at level 100, k at level 200, right associativity, only parsing).

(** [try: body except E: handler] where [E] is the class [handles] tells *)
Definition try_except {A} (body : Py A) (handles : exn → bool)
    (handler : Py A) : Py A :=
  fun w =>
    match body w with
    | (Ok a, w') => (Ok a, w')
    | (Raise e, w') => if handles e then handler w' else (Raise e, w')
    end.

(** [try: body finally: final]; [final] is told whether [body] completed.
    An exception of [final] replaces the outcome of [body]. *)
Definition try_finally {A} (body : Py A) (final : bool → Py unit) : Py A :=
  fun w =>
    match body w with
    | (r, w') =>
        match final (is_ok r) w' with
        | (Ok _, w'') => (r, w'')
        | (Raise e, w'') => (Raise e, w'')
        end
    end.

Definition is_RuntimeError (e : exn) : bool :=
  match e with RuntimeError => true | _ => false end.
Definition is_KeyError (e : exn) : bool :=
  match e with KeyError => true | _ => false end.
Definition is_CalledProcessError (e : exn) : bool :=
  match e with CalledProcessError => true | _ => false end.

Definition or_raise {A} (e : exn) (o : option A) : Py A :=
  match o with Some a => ret a | None => raise e end.

Fixpoint for_each {A} (l : list A) (f : A → Py unit) : Py unit :=
  match l with
  | [] => ret tt
  | a :: l' => f a ;; for_each l' f
  end.

Definition set_fs (f : gmap string string) (w : world) : world :=
  World (env w) f (git w) (tracker w) (stdin w) (outbox w) (trace w) (clock w).
Definition set_git (g : repo) (w : world) : world :=
  World (env w) (fs w) g (tracker w) (stdin w) (outbox w) (trace w) (clock w).
Definition set_stdin (i : list string) (w : world) : world :=
  World (env w) (fs w) (git w) (tracker w) i (outbox w) (trace w) (clock w).
Definition set_outbox (o : list smtp_request) (w : world) : world :=
  World (env w) (fs w) (git w) (tracker w) (stdin w) o (trace w) (clock w).
Definition set_trace (t : list log_entry) (w : world) : world :=
  World (env w) (fs w) (git w) (tracker w) (stdin w) (outbox w) t (clock w).
Definition tick (w : world) : world :=
  World (env w) (fs w) (git w) (tracker w) (stdin w) (outbox w) (trace w)
    (S (clock w)).

(** The arguments of the command line, as [argparse] hands them over. *)
Record args := Args {
  arg_branch : string;   (* --branch, by default the current branch *)
  arg_tests : bool;      (* cleared by --skiptests *)
  arg_remote : string;   (* --remote *)
  arg_dryrun : bool;     (* cleared by --publish *)
  arg_mail : bool;       (* cleared by --disable_mail *)
  arg_check : bool       (* --check *)
}.

(** The globals the module sets while it is loaded. *)
Record globals := Globals {
  JAVA_HOME : string;
  MVN : string;
  template_email_html : string;
  template_email_txt : string
}.

(** What the run has found out about the release by the time it starts to
    change the repository. *)
Record context := Context {
  src_branch : string;
  remote : string;
  run_tests : bool;
  dry_run : bool;
  mail : bool;
  release_version : string;
  artifact_id : string;
  artifact_name : string;
  artifact_description : string;
  project_url : string;
  elasticsearch_version : string;
  snapshot_version : string
}.

(** A message in the making: its headers in the order they were set, and
    its parts (subtype and text). *)
Record email := Email {
  headers : list (string * string);
  parts : list (string * string)
}.

Section Script.

Variable H : host.
Variable L : pylib.
(** [msg.as_string()] of the [email] library *)
Variable as_string : email → string.

Definition README_FILE : string := ROOT_DIR H +:+ "/README.md".
Definition POM_FILE : string := ROOT_DIR H +:+ "/pom.xml".
Definition DEV_TOOLS_DIR : string := ROOT_DIR H +:+ "/plugin_tools".

(** *** Primitives *)

(** [env[name]] *)
Definition env_item (name : string) : Py string :=
  fun w =>
    match env w !! name with
    | Some v => (Ok v, w)
    | None => (Raise KeyError, w)
    end.

(** [env.get(name, None)] *)
Definition env_get (name : string) : Py (option string) :=
  fun w => (Ok (env w !! name), w).

(** [input(prompt)] *)
Definition input : Py string :=
  fun w =>
    match stdin w with
    | answer :: rest => (Ok answer, set_stdin rest w)
    | [] => (Raise EOFError, w)
    end.

(** [open(path).read()], the text as the program sees it *)
Definition read_text (path : string) : Py string :=
  fun w =>
    match fs w !! path with
    | Some content => (Ok (Text.universal_newlines content), w)
    | None => (Raise FileNotFoundError, w)
    end.

(** [open(path, 'w').write(text)] *)
Definition write_text (path text : string) : Py unit :=
  fun w => (Ok tt, set_fs (<[path := text]> (fs w)) w).

(** [os.path.isfile(path)] *)
Definition isfile (path : string) : Py bool :=
  fun w => (Ok (bool_decide (is_Some (fs w !! path))), w).

(** [os.remove(path)] *)
Definition os_remove (path : string) : Py unit :=
  fun w =>
    match fs w !! path with
    | Some _ => (Ok tt, set_fs (delete path (fs w)) w)
    | None => (Raise FileNotFoundError, w)
    end.

(** [shutil.move(src, dst)] for files *)
Definition shutil_move (src dst : string) : Py unit :=
  fun w =>
    match fs w !! src with
    | Some content =>
        (Ok tt, set_fs (<[dst := content]> (delete src (fs w))) w)
    | None => (Raise FileNotFoundError, w)
    end.

(** [tempfile.mkstemp()]: a new empty file *)
Definition mkstemp : Py string :=
  fun w =>
    let path := tmp_name H (clock w) in
    (Ok path, tick (set_fs (<[path := ""]> (fs w)) w)).

(** [os.system(cmdline c)]: whether the command exited with status 0.
    Whatever the status, the command may have changed the files; a git
    command changes the references only when it succeeds. *)
Definition os_system (c : command) : Py bool :=
  fun w =>
    let n := clock w in
    let w1 := tick (set_fs (files_after H n c (fs w)) w) in
    if exit_ok H n c then
      match git_step (new_rev H n) c (git w) with
      | Some g => (Ok true, set_git g w1)
      | None => (Ok false, w1)
      end
    else (Ok false, w1).

(** [os.popen(line).read()] for a command that is not git's *)
Definition os_popen (line : string) : Py string :=
  fun w => (Ok (popen_read H (clock w) line), tick w).

(** [smtplib.SMTP(host, port)], [sendmail], [quit] *)
Definition smtp_sendmail (request : smtp_request) : Py unit :=
  fun w =>
    let w1 := tick (set_outbox (outbox w ++ [request]) w) in
    if smtp_ok H (clock w) then (Ok tt, w1) else (Raise SMTPException, w1).

(** *** Utility methods (log and run) *)

Definition log_plain (entry : log_entry) : Py unit :=
  fun w => (Ok tt, set_trace (trace w ++ [entry]) w).

Definition log (msg : string) : Py unit := log_plain (LogMsg msg).

Definition purge_log : Py unit := fun w => (Ok tt, set_trace [] w).

(** [run(command, quiet)] *)
Definition run (c : command) : Py unit :=
  log_plain (LogRun c) ;;
  ok <- os_system c ;;
  if ok then ret tt else raise RuntimeError.

(** *** Java and Maven *)

Definition java_exe (g : globals) : string :=
  let path := JAVA_HOME g in
  "export JAVA_HOME=" +:+ Str.dquote +:+ path +:+ Str.dquote
  +:+ " PATH=" +:+ Str.dquote +:+ path +:+ "/bin:$PATH" +:+ Str.dquote
  +:+ " JAVACMD=" +:+ Str.dquote +:+ path +:+ "/bin/java" +:+ Str.dquote.

Definition verify_java_version (g : globals) (version : string) : Py unit :=
  s <- os_popen (java_exe g +:+ "; java -version 2>&1") ;;
  if Str.contains (" version " +:+ Str.dquote +:+ version +:+ ".") s
  then ret tt else raise RuntimeError.

Definition verify_mvn_java_version (g : globals) (version mvn : string)
    : Py unit :=
  s <- os_popen (java_exe g +:+ "; " +:+ mvn +:+ " --version 2>&1") ;;
  if Str.contains ("Java version: " +:+ version) s
  then ret tt else raise RuntimeError.

(** *** File manipulation *)

(** The loop of [process_file]: the flag and the text written so far. *)
Definition process_line (line_callback : string → string)
    (acc : bool * string) (line : string) : bool * string :=
  let new_line := line_callback line in
  (fst acc || negb (String.eqb new_line line), snd acc +:+ new_line).

(** [process_file(file_path, line_callback)] *)
Definition process_file (file_path : string)
    (line_callback : string → string) : Py bool :=
  abs_path <- mkstemp ;;
  write_text abs_path "" ;;
  old_file <- read_text file_path ;;
  let '(modified, new_file) :=
    fold_left (process_line line_callback)
      (Text.lines old_file) (false, "") in
  write_text abs_path new_file ;;
  if modified then
    os_remove file_path ;;
    shutil_move abs_path file_path ;;
    ret true
  else
    os_remove abs_path ;;
    ret false.

Definition remove_maven_snapshot (pom release : string) : Py unit :=
  let pattern := "<version>" +:+ release +:+ "-SNAPSHOT</version>" in
  let replacement := "<version>" +:+ release +:+ "</version>" in
  process_file pom (Str.replace pattern replacement) ;; ret tt.

Definition add_maven_snapshot (pom release snapshot : string) : Py unit :=
  let pattern := "<version>" +:+ release +:+ "</version>" in
  let replacement := "<version>" +:+ snapshot +:+ "-SNAPSHOT</version>" in
  process_file pom (Str.replace pattern replacement) ;; ret tt.

Definition update_documentation_in_released_branch
    (readme_file release esversion : string) : Py unit :=
  let pattern := "## Version (.)+ for Elasticsearch: (.)+" in
  let es_digits := split_version_to_digits esversion in
  e0 <- or_raise IndexError (es_digits !! 0%nat) ;;
  e1 <- or_raise IndexError (es_digits !! 1%nat) ;;
  let replacement :=
    "## Version " +:+ release +:+ " for Elasticsearch: "
    +:+ Str.of_int e0 +:+ "." +:+ Str.of_int e1 +:+ Text.newline in
  let callback line :=
    match re_search L pattern line with
    | Some _ => replacement
    | None => line
    end in
  process_file readme_file callback ;; ret tt.

Definition update_documentation_to_released_version
    (readme_file repo_url release branch esversion : string) : Py unit :=
  let pattern := branch in
  anchor <- or_raise IndexError (get_doc_anchor release esversion) ;;
  let replacement :=
    "|    " +:+ branch +:+ "              |     " +:+ release
    +:+ "         | [" +:+ release +:+ "](" +:+ repo_url +:+ "tree/v"
    +:+ release +:+ "/" +:+ anchor +:+ ")                  |"
    +:+ Text.newline in
  let callback line :=
    if Str.contains pattern line then replacement else line in
  process_file readme_file callback ;; ret tt.

Definition set_install_instructions
    (readme_file artifact_name release : string) : Py unit :=
  let pattern :=
    "bin/plugin -?install elasticsearch/" +:+ artifact_name +:+ "/.+" in
  let replacement :=
    "bin/plugin install elasticsearch/" +:+ artifact_name +:+ "/"
    +:+ release in
  process_file readme_file (re_sub L pattern replacement) ;; ret tt.

(** *** Git commands *)

(** [get_head_hash()]: what [git rev-parse --verify HEAD 2>&1] prints *)
Definition get_head_hash : Py string :=
  fun w =>
    (Ok (default "fatal: Needed a single revision" (head_revision (git w))),
     w).

(** [get_current_branch()] *)
Definition get_current_branch : Py string :=
  fun w => (Ok (HEAD (git w)), w).

Definition fetch (remote : string) : Py unit := run (GitFetch remote).

Definition git_checkout (branch : string) : Py unit :=
  run (GitCheckout branch).

Definition create_release_branch (remote src_branch release : string)
    : Py unit :=
  git_checkout src_branch ;;
  run (GitPullRebase remote src_branch) ;;
  run (GitCheckoutNew (release_branch src_branch release)).

Definition add_pending_files (files : list string) : Py unit :=
  for_each files (fun file => run (GitAdd file)).

Definition commit_release (artifact_id release : string) : Py unit :=
  run (GitCommit ("prepare release " +:+ artifact_id +:+ "-" +:+ release)).

Definition commit_master (release : string) : Py unit :=
  run (GitCommit ("update documentation with release " +:+ release)).

Definition commit_snapshot : Py unit :=
  run (GitCommit "prepare for next development iteration").

Definition tag_release (release : string) : Py unit :=
  run (GitTag ("v" +:+ release) ("Tag release version " +:+ release)).

Definition git_merge (src_branch release_version : string) : Py unit :=
  git_checkout src_branch ;;
  run (GitMerge (release_branch src_branch release_version)).

Definition git_push (remote src_branch release_version : string)
    (dry_run : bool) : Py unit :=
  if negb dry_run then
    run (GitPush remote [src_branch; "master"]) ;;
    run (GitPush remote ["v" +:+ release_version])
  else ret tt.

(** *** Maven commands *)

Definition run_mvn (g : globals) (cmd : list string) : Py unit :=
  for_each cmd (fun c =>
    run (Shell (java_exe g +:+ "; " +:+ MVN g +:+ " -f " +:+ POM_FILE
                +:+ " " +:+ c))).

Definition build_release (g : globals) (run_tests dry_run : bool) : Py unit :=
  let target := if dry_run then "package" else "deploy" in
  let tests := if run_tests then "" else "-DskipTests" in
  run_mvn g ["clean " +:+ target +:+ " " +:+ tests].

(** *** Reading the pom *)

Fixpoint first_match (pattern : string) (lines : list string)
    : option string :=
  match lines with
  | [] => None
  | line :: rest =>
      match re_search L pattern line with
      | Some group1 => Some group1
      | None => first_match pattern rest
      end
  end.

Definition find_release_version (src_branch : string) : Py string :=
  git_checkout src_branch ;;
  file <- read_text POM_FILE ;;
  or_raise RuntimeError
    (first_match "<version>(.+)-SNAPSHOT</version>" (Text.lines file)).

(** The loop of [find_from_pom]. *)
Fixpoint find_from_pom_loop (tag : string) (first_line : option string)
    (previous_line_matched : bool) (lines : list string) : option string :=
  match lines with
  | [] => None
  | line :: rest =>
      let found :=
        if previous_line_matched
        then re_search L ("<" +:+ tag +:+ ">(.+)</" +:+ tag +:+ ">") line
        else None in
      match found with
      | Some group1 => Some group1
      | None =>
          let matched :=
            match first_line with
            | Some pattern =>
                match re_search L pattern line with
                | Some _ => true
                | None => previous_line_matched
                end
            | None => previous_line_matched
            end in
          find_from_pom_loop tag first_line matched rest
      end
  end.

Definition find_from_pom (tag : string) (first_line : option string)
    : Py string :=
  file <- read_text POM_FILE ;;
  let previous_line_matched :=
    match first_line with None => true | Some _ => false end in
  or_raise RuntimeError
    (find_from_pom_loop tag first_line previous_line_matched
       (Text.lines file)).

(** *** Artifacts *)

Definition get_artifacts (artifact_id release : string) : Py string :=
  let artifact_path :=
    ROOT_DIR H +:+ "/target/releases/" +:+ artifact_id +:+ "-" +:+ release
    +:+ ".zip" in
  found <- isfile artifact_path ;;
  if found then ret artifact_path else raise RuntimeError.

Definition generate_checksums (release_file : string) : Py (list string) :=
  let directory := Text.dirname release_file in
  let file := Text.basename release_file in
  let checksum_file := file +:+ ".sha1.txt" in
  ok <- os_system (Shell ("cd " +:+ directory +:+ "; shasum " +:+ file
                          +:+ " > " +:+ checksum_file)) ;;
  if ok then ret [Text.path_join directory checksum_file; release_file]
  else raise RuntimeError.

Definition publish_artifacts (artifacts : list string) (base : string)
    (dry_run : bool) : Py unit :=
  let location := SCRIPT_DIR H in
  for_each artifacts (fun artifact =>
    if dry_run then ret tt
    else run (Shell ("python " +:+ location +:+ "/upload-s3.py --file "
                     +:+ artifact +:+ " --path " +:+ base))).

(** *** Email and Github management *)

Definition format_issues_plain (issues : list issue) (title : string)
    : string :=
  match issues with
  | [] => ""
  | _ =>
      title +:+ ":" +:+ Text.newline +:+
      Text.join (map (fun i =>
        " * [" +:+ Str.of_int (issue_number i) +:+ "] - " +:+ issue_title i +:+ " ("
        +:+ issue_url i +:+ ")" +:+ Text.newline) issues)
  end.

Definition format_issues_html (issues : list issue) (title : string)
    : string :=
  match issues with
  | [] => ""
  | _ =>
      "<h2>" +:+ title +:+ "</h2>" +:+ Text.newline +:+ "<ul>"
      +:+ Text.newline +:+
      Text.join (map (fun i =>
        "<li>[<a href=" +:+ Str.dquote +:+ issue_url i +:+ Str.dquote +:+ ">"
        +:+ Str.of_int (issue_number i) +:+ "</a>] - " +:+ issue_title i
        +:+ Text.newline) issues)
      +:+ "</ul>" +:+ Text.newline
  end.

(** [get_github_repository(reponame)]: the repository, or [None] when the
    tracker does not know it. The credentials of the environment select how
    the script logs in and nothing else. *)
Definition get_github_repository (reponame : string)
    : Py (option (list issue)) :=
  fun w => (Ok (tracker w !! reponame), w).

Definition has_labels (wanted : list string) (i : issue) : bool :=
  forallb (fun l => bool_decide (l ∈ labels i)) wanted.

(** [repository.iter_issues(state=..., labels=...)] *)
Definition iter_issues (repository : option (list issue)) (open : bool)
    (wanted : list string) : Py (list issue) :=
  match repository with
  | Some all =>
      ret (List.filter (fun i => Bool.eqb (is_open i) open
                                 && has_labels wanted i) all)
  | None => raise AttributeError
  end.

Definition check_opened_issues (version : string)
    (repository : option (list issue)) (reponame : string) : Py unit :=
  opened_issues <- iter_issues repository true [version] ;;
  match opened_issues with
  | [] => ret tt
  | _ => raise NameError
  end.

Definition list_issues (version : string) (repository : option (list issue))
    (severity : string) : Py (list issue) :=
  iter_issues repository false [severity; version].

Definition read_email_template (format : string) : Py string :=
  let file_name := DEV_TOOLS_DIR +:+ "/email_template." +:+ format in
  log ("open email template " +:+ file_name) ;;
  read_text file_name.

Definition prepare_email (g : globals)
    (artifact_id release_version : string)
    (repository : option (list issue))
    (artifact_name artifact_description project_url : string) : Py email :=
  issues_bug <- list_issues release_version repository "bug" ;;
  issues_update <- list_issues release_version repository "update" ;;
  issues_new <- list_issues release_version repository "new" ;;
  issues_doc <- list_issues release_version repository "doc" ;;
  let none_listed :=
    (length issues_bug + length issues_update + length issues_new
     + length issues_doc =? 0)%nat in
  let plain_empty_message :=
    if none_listed then "No issue listed for this release" else "" in
  let html_empty_message :=
    if none_listed then "<p>No issue listed for this release</p>" else "" in
  let fields (empty_message : string)
      (fmt : list issue → string → string) :=
    [("release_version", release_version);
     ("artifact_id", artifact_id);
     ("artifact_name", artifact_name);
     ("artifact_description", artifact_description);
     ("project_url", project_url);
     ("empty_message", empty_message);
     ("issues_bug", fmt issues_bug "Fix");
     ("issues_update", fmt issues_update "Update");
     ("issues_new", fmt issues_new "New");
     ("issues_doc", fmt issues_doc "Doc")] in
  text <- or_raise ValueError
    (py_format L (template_email_txt g)
       (fields plain_empty_message format_issues_plain)) ;;
  html <- or_raise ValueError
    (py_format L (template_email_html g)
       (fields html_empty_message format_issues_html)) ;;
  ret (Email
         [("Subject", "[ANN] " +:+ artifact_name +:+ " " +:+ release_version
                      +:+ " released")]
         [("plain", text); ("html", html)]).

Definition email_file : string := ROOT_DIR H +:+ "/target/email.txt".

(** [msg[name] = value] *)
Definition set_header (name value : string) (msg : email) : email :=
  Email (headers msg ++ [(name, value)]) (parts msg).

(** [send_email(msg, dry_run, mail, sender, to, smtp_server)] *)
Definition send_email (msg : email) (dry_run mail : bool)
    (sender : option string) (to smtp_server : string) : Py unit :=
  let msg :=
    set_header "To" ("Elasticsearch Announcement List <" +:+ to +:+ ">")
      (set_header "From"
         ("Elasticsearch Team <" +:+ default "None" sender +:+ ">") msg) in
  write_text email_file (as_string msg) ;;
  if mail && negb dry_run then
    smtp_sendmail (SmtpRequest smtp_server 25 sender to (as_string msg))
  else ret tt.

(** [send_email] with the defaults its signature takes from the
    environment. *)
Definition send_email_env (msg : email) (dry_run mail : bool) : Py unit :=
  sender <- env_get "MAIL_SENDER" ;;
  to <- env_get "MAIL_TO" ;;
  smtp_server <- env_get "SMTP_SERVER" ;;
  send_email msg dry_run mail sender
    (default "discuss%2Bannouncements@elastic.co" to)
    (default "localhost" smtp_server).

(** [print_sonatype_notice()] reads the Maven settings and prints. *)
Definition print_sonatype_notice : Py unit := ret tt.

Definition truthy (o : option string) : bool :=
  match o with Some (String _ _) => true | _ => false end.

Definition check_s3_credentials : Py unit :=
  key_id <- env_get "AWS_ACCESS_KEY_ID" ;;
  secret <- env_get "AWS_SECRET_ACCESS_KEY" ;;
  if negb (truthy key_id) || negb (truthy secret)
  then raise RuntimeError else ret tt.

Definition check_github_credentials : Py unit :=
  key <- env_get "GITHUB_KEY" ;;
  login <- env_get "GITHUB_LOGIN" ;;
  if negb (truthy key) && negb (truthy login)
  then log ("WARN: Could not find " +:+ Str.dquote +:+ "GITHUB_LOGIN"
            +:+ Str.dquote +:+ " / " +:+ Str.dquote +:+ "GITHUB_PASSWORD"
            +:+ Str.dquote +:+ " or " +:+ Str.dquote +:+ "GITHUB_KEY"
            +:+ Str.dquote
            +:+ " in the env variables. You could need it.")
  else ret tt.

Definition check_email_settings : Py unit :=
  sender <- env_get "MAIL_SENDER" ;;
  if negb (truthy sender) then raise RuntimeError else ret tt.

(** [subprocess.check_output(cmd, shell=True, ...)], its output dropped *)
Definition check_output (cmd : string) : Py unit :=
  ok <- os_system (Shell cmd) ;;
  if ok then ret tt else raise CalledProcessError.

Definition check_command_exists (name cmd : string) : Py unit :=
  try_except (check_output cmd) is_CalledProcessError (raise RuntimeError).

Definition run_and_print (text : string) (run_function : Py unit) : Py unit :=
  try_except run_function is_RuntimeError (ret tt).

Definition check_env_var (text env_var : string) : Py unit :=
  try_except (env_item env_var ;; ret tt) is_KeyError (ret tt).

Definition check_environment_and_commandline_tools (g : globals) : Py unit :=
  check_env_var
    "Checking for AWS env configuration AWS_SECRET_ACCESS_KEY_ID...     "
    "AWS_SECRET_ACCESS_KEY" ;;
  check_env_var
    "Checking for AWS env configuration AWS_ACCESS_KEY_ID...            "
    "AWS_ACCESS_KEY_ID" ;;
  run_and_print "Checking command: gpg...            "
    (check_command_exists "gpg" "gpg --version") ;;
  run_and_print "Checking command: expect...         "
    (check_command_exists "expect" "expect -v") ;;
  run_and_print "Checking command: s3cmd...          "
    (check_command_exists "s3cmd" "s3cmd --version") ;;
  run_and_print "Testing boto python dependency...   "
    (check_command_exists "python-boto"
       ("python " +:+ SCRIPT_DIR H +:+ "/upload-s3.py")) ;;
  run_and_print "Checking java version...            "
    (verify_java_version g "1.7") ;;
  run_and_print "Checking java mvn version...        "
    (verify_mvn_java_version g "1.7" (MVN g)).

(** *** The module's own statements, run when it is loaded *)

Definition module_init : Py globals :=
  java_home <- try_except (purge_log ;; env_item "JAVA_HOME") is_KeyError
                 (raise RuntimeError) ;;
  mvn <- try_except (run (Shell "mvn3 --version") ;; ret "mvn3")
           is_RuntimeError (ret "mvn") ;;
  html <- read_email_template "html" ;;
  txt <- read_email_template "txt" ;;
  ret (Globals java_home mvn html txt).

(** *** The phases of [__main__], in the order of the source *)

(** Lines 767-782: the checks before anything is read. *)
Definition preflight (a : args) : Py unit :=
  (if String.eqb (arg_branch a) "master" then raise RuntimeError
   else ret tt) ;;
  print_sonatype_notice ;;
  (if negb (arg_dryrun a) then
     check_s3_credentials ;;
     (if arg_mail a then check_email_settings else ret tt) ;;
     input ;;
     ret tt
   else ret tt) ;;
  check_github_credentials.

(** Lines 789-816: what the pom says, and the next snapshot version. *)
Definition discover (a : args) : Py context :=
  let src_branch := arg_branch a in
  release_version <- find_release_version src_branch ;;
  artifact_id <- find_from_pom "artifactId" None ;;
  artifact_name <- find_from_pom "name" None ;;
  artifact_description <- find_from_pom "description" None ;;
  project_url <- find_from_pom "url" None ;;
  elasticsearch_version <-
    try_except (find_from_pom "elasticsearch.version" None) is_RuntimeError
      (find_from_pom "version"
         (Some "<artifactId>elasticsearch-parent</artifactId>")) ;;
  (if Str.contains "-SNAPSHOT" elasticsearch_version
   then raise RuntimeError else ret tt) ;;
  default_snapshot_version <-
    or_raise IndexError (guess_snapshot release_version) ;;
  answer <- input ;;
  let snapshot_version :=
    match answer with "" => default_snapshot_version | _ => answer end in
  ret (Context src_branch (arg_remote a) (arg_tests a) (arg_dryrun a)
         (arg_mail a) release_version artifact_id artifact_name
         artifact_description project_url elasticsearch_version
         snapshot_version).

(** Lines 822-830, the body of the first [try]: the two head revisions are
    recorded, then the two release branches are created. *)
Definition baseline_and_branches (g : globals) (c : context)
    : Py (string * string) :=
  git_checkout "master" ;;
  master_hash <- get_head_hash ;;
  git_checkout (src_branch c) ;;
  version_hash <- get_head_hash ;;
  run_mvn g ["clean"] ;;
  create_release_branch (remote c) "master" (release_version c) ;;
  create_release_branch (remote c) (src_branch c) (release_version c) ;;
  ret (master_hash, version_hash).

(** Lines 821-835: the first [try] with its handler. *)
Definition fan_out (g : globals) (c : context) : Py (string * string) :=
  try_except (baseline_and_branches g c) is_RuntimeError
    (raise (SystemExit (-1))).

Definition pending_files : list string := [POM_FILE; README_FILE].

(** Lines 842-847 *)
Definition version_bump (c : context) : Py unit :=
  remove_maven_snapshot POM_FILE (release_version c) ;;
  update_documentation_in_released_branch README_FILE (release_version c)
    (elasticsearch_version c) ;;
  add_pending_files pending_files ;;
  commit_release (artifact_id c) (release_version c).

(** Lines 853-854 *)
Definition gate_check (c : context) : Py (option (list issue)) :=
  repository <- get_github_repository (artifact_id c) ;;
  check_opened_issues (release_version c) repository (artifact_id c) ;;
  ret repository.

(** Lines 859-861 *)
Definition build_phase (g : globals) (c : context) : Py (list string) :=
  build_release g (run_tests c) (dry_run c) ;;
  artifact <- get_artifacts (artifact_id c) (release_version c) ;;
  generate_checksums artifact.

(** Lines 867-872 *)
Definition master_documentation (c : context) : Py unit :=
  git_checkout (release_branch "master" (release_version c)) ;;
  update_documentation_to_released_version README_FILE (project_url c)
    (release_version c) (src_branch c) (elasticsearch_version c) ;;
  set_install_instructions README_FILE (artifact_id c) (release_version c) ;;
  add_pending_files pending_files ;;
  commit_master (release_version c).

(** Lines 878-888 *)
Definition merge_and_tag (c : context) : Py unit :=
  git_merge (src_branch c) (release_version c) ;;
  tag_release (release_version c) ;;
  add_maven_snapshot POM_FILE (release_version c) (snapshot_version c) ;;
  update_documentation_in_released_branch README_FILE
    (snapshot_version c +:+ "-SNAPSHOT") (elasticsearch_version c) ;;
  add_pending_files pending_files ;;
  commit_snapshot ;;
  git_merge "master" (release_version c).

(** Lines 891-898 *)
Definition publish_and_announce (g : globals) (c : context)
    (repository : option (list issue)) (artifact_and_checksums : list string)
    : Py unit :=
  git_push (remote c) (src_branch c) (release_version c) (dry_run c) ;;
  publish_artifacts artifact_and_checksums
    ("elasticsearch/" +:+ artifact_id c) (dry_run c) ;;
  msg <- prepare_email g (artifact_id c) (release_version c) repository
           (artifact_name c) (artifact_description c) (project_url c) ;;
  input ;;
  send_email_env msg (dry_run c) (mail c).

(** Lines 842-909, the body of the second [try]. *)
Definition release_steps (g : globals) (c : context) : Py unit :=
  version_bump c ;;
  input ;;
  repository <- gate_check c ;;
  artifact_and_checksums <- build_phase g c ;;
  master_documentation c ;;
  input ;;
  merge_and_tag c ;;
  publish_and_announce g c repository artifact_and_checksums.

(** Lines 915-918 and 926-929 *)
Definition reset_branches (c : context) (master_hash version_hash : string)
    : Py unit :=
  git_checkout "master" ;;
  run (GitResetHard master_hash) ;;
  git_checkout (src_branch c) ;;
  run (GitResetHard version_hash).

Definition release_tag (c : context) : string := "v" +:+ release_version c.

(** Lines 932-937 *)
Definition cleanup (c : context) : Py unit :=
  run (GitBranchDelete (release_branch "master" (release_version c))) ;;
  run (GitBranchDelete (release_branch (src_branch c) (release_version c))) ;;
  git_checkout (src_branch c).

(** Lines 910-937, the [finally] clause; [success] is the flag the last
    statement of the [try] body sets. *)
Definition finalizer (c : context) (master_hash version_hash : string)
    (success : bool) : Py unit :=
  (if negb success then
     reset_branches c master_hash version_hash ;;
     try_except (run (GitTagDelete (release_tag c))) is_RuntimeError (ret tt)
   else if dry_run c then
     input ;;
     reset_branches c master_hash version_hash ;;
     run (GitTagDelete (release_tag c))
   else ret tt) ;;
  cleanup c.

(** [__main__] *)
Definition main (g : globals) (a : args) : Py unit :=
  if arg_check a then
    check_environment_and_commandline_tools g ;;
    raise (SystemExit 0)
  else
    preflight a ;;
    c <- discover a ;;
    hashes <- fan_out g c ;;
    try_finally (release_steps g c) (finalizer c (fst hashes) (snd hashes)).

(** The whole process: the module is loaded, then [__main__] runs. *)
Definition script (a : args) : Py unit :=
  g <- module_init ;;
  main g a.

End Script.

(** ** A sample machine

    One instance of [host] and [pylib], small but enough to run the script
    from end to end on sample files. *)

Module Sample.

Fixpoint drop (n : nat) (s : string) : string :=
  match n, s with
  | S k, String _ s' => drop k s'
  | _, _ => s
  end.

(** [s.partition(sep)] when [sep] occurs in [s] *)
Fixpoint partition (sep s : string) : option (string * string) :=
  if Str.startswith sep s then Some ("", drop (String.length sep) s)
  else match s with
       | "" => None
       | String c s' =>
           match partition sep s' with
           | Some (before, after) => Some (String c before, after)
           | None => None
           end
       end.

(** The longest non-empty run of characters other than the line feed after
    which [suffix] follows. *)
Fixpoint greedy (suffix s : string) : option string :=
  match s with
  | "" => None
  | String c s' =>
      if Ascii.eqb c Text.LF then None
      else match greedy suffix s' with
           | Some g => Some (String c g)
           | None =>
               if Str.startswith suffix s' then Some (String c "") else None
           end
  end.

Fixpoint search_group (prefix suffix s : string) : option string :=
  let here :=
    if Str.startswith prefix s
    then greedy suffix (drop (String.length prefix) s) else None in
  match here with
  | Some g => Some g
  | None =>
      match s with
      | "" => None
      | String _ s' => search_group prefix suffix s'
      end
  end.

(** [re.search] for a pattern [prefix(.+)suffix] of plain characters; a
    pattern without the group is looked up as plain text. *)
Definition re_search (pattern line : string) : option string :=
  match partition "(.+)" pattern with
  | Some (prefix, suffix) => search_group prefix suffix line
  | None => if Str.contains pattern line then Some "" else None
  end.

(** The text up to the first line feed, and the rest. *)
Fixpoint break_line (s : string) : string * string :=
  match s with
  | "" => ("", "")
  | String c s' =>
      if Ascii.eqb c Text.LF then ("", s)
      else let '(a, b) := break_line s' in (String c a, b)
  end.

(** [re.sub] for a pattern [text.+] of plain characters: from the first
    occurrence of [text] that a character follows, up to the end of the
    line, the line is replaced. *)
Fixpoint sub_tail (text replacement s : string) : string :=
  match s with
  | "" => ""
  | String c s' =>
      if Str.startswith text s then
        match break_line (drop (String.length text) s) with
        | (String _ _, rest) => replacement +:+ rest
        | ("", _) => String c (sub_tail text replacement s')
        end
      else String c (sub_tail text replacement s')
  end.

Definition re_sub (pattern replacement line : string) : string :=
  match partition ".+" pattern with
  | Some (text, "") => sub_tail text replacement line
  | _ => line
  end.

(** [template % dict] for templates whose only conversions are [%(key)s] *)
Definition py_format (template : string) (dict : list (string * string))
    : option string :=
  Some (fold_left (fun t kv => Str.replace ("%(" +:+ fst kv +:+ ")s") (snd kv) t)
          dict template).

Definition lib : pylib := PyLib re_search re_sub py_format.

Definition as_string (msg : email) : string :=
  Text.join (map (fun h => fst h +:+ ": " +:+ snd h +:+ Text.newline)
               (headers msg))
  +:+ Text.join (map (fun p => Text.newline +:+ snd p) (parts msg)).

(** A machine on which every command succeeds and leaves the files alone. *)
Definition machine : host :=
  Host "/work" "/work/dev-tools"
    (fun _ _ => true)
    (fun _ _ files => files)
    (fun n => "rev" +:+ Str.of_int (N.of_nat n))
    (fun _ _ => "")
    (fun n => "/tmp/tmp" +:+ Str.of_int (N.of_nat n))
    (fun _ => true).

Definition nl : string := Text.newline.

Definition pom : string :=
  "<project>" +:+ nl +:+
  "<artifactId>elasticsearch-lang-x</artifactId>" +:+ nl +:+
  "<version>2.5.0-SNAPSHOT</version>" +:+ nl +:+
  "<name>Plugin X</name>" +:+ nl +:+
  "<description>The X plugin</description>" +:+ nl +:+
  "<url>https://github.com/elastic/elasticsearch-lang-x/</url>" +:+ nl +:+
  "<elasticsearch.version>1.3.0</elasticsearch.version>" +:+ nl +:+
  "</project>" +:+ nl.

Definition readme : string :=
  "## Version 2.5.0-SNAPSHOT for Elasticsearch: 1.x" +:+ nl +:+
  "|    es-1.3              | Build from source | link |" +:+ nl +:+
  "bin/plugin install elasticsearch/elasticsearch-lang-x/2.4.0" +:+ nl.

Definition files : gmap string string :=
  <["/work/pom.xml" := pom]>
  (<["/work/README.md" := readme]>
  (<["/work/plugin_tools/email_template.html" := "<p>%(artifact_name)s %(release_version)s</p>%(issues_bug)s"]>
  (<["/work/plugin_tools/email_template.txt" := "%(artifact_name)s %(release_version)s %(empty_message)s"]>
  (<["/work/target/releases/elasticsearch-lang-x-2.5.0.zip" := "zip"]> ∅)))).

Definition repository : repo :=
  Repo (<["master" := "m0"]> (<["es-1.3" := "s0"]> ∅)) "es-1.3" ∅.

Definition closed_bug : issue :=
  Issue 7 "Fix the thing" "https://github.com/elastic/x/issues/7" false
    ["bug"; "2.5.0"].

Definition open_bug : issue :=
  Issue 9 "Still broken" "https://github.com/elastic/x/issues/9" true
    ["bug"; "2.5.0"].

Definition start (issues : list issue) : world :=
  World (<["JAVA_HOME" := "/opt/java"]> ∅) files repository
    (<["elasticsearch-lang-x" := issues]> ∅)
    [""; ""; ""; ""; ""; ""] [] [] 0.

(** The same, where the release branch of the source branch exists
    already. *)
Definition start_branch_taken : world :=
  World (<["JAVA_HOME" := "/opt/java"]> ∅) files
    (Repo (<["release_branch_es-1.3_2.5.0" := "old"]> (branches repository))
       "es-1.3" ∅)
    (<["elasticsearch-lang-x" := [closed_bug]]> ∅)
    [""; ""; ""; ""; ""; ""] [] [] 0.

(** The same as [start], without [JAVA_HOME]. *)
Definition start_without_java : world :=
  World ∅ files repository (<["elasticsearch-lang-x" := []]> ∅)
    [""; ""; ""; ""; ""; ""] [] [] 0.

(** [--branch es-1.3 --skiptests], a dry run *)
Definition dry : args := Args "es-1.3" false "origin" true true false.

(** [--branch es-1.3 --check] *)
Definition check : args := Args "es-1.3" true "origin" true true true.

(** What loading the module leaves in its globals on this machine. *)
Definition loaded : globals :=
  Globals "/opt/java" "mvn3"
    "<p>%(artifact_name)s %(release_version)s</p>%(issues_bug)s"
    "%(artifact_name)s %(release_version)s %(empty_message)s".

(** The worlds a dry run goes through from [start], and the context it
    finds. *)
Definition value {A} (d : A) (r : outcome A * world) : A :=
  match fst r with Ok a => a | Raise _ => d end.

Definition at_main (start : world) : world := snd (module_init machine start).

Definition at_discover (start : world) : world :=
  snd (preflight dry (at_main start)).

Definition found (start : world) : context :=
  value (Context "" "" false false false "" "" "" "" "" "" "")
    (discover machine lib dry (at_discover start)).

Definition at_fan_out (start : world) : world :=
  snd (discover machine lib dry (at_discover start)).

Definition at_release (start : world) : world :=
  snd (fan_out machine loaded (found start) (at_fan_out start)).

Definition run_script (a : args) (w : world) : outcome unit * world :=
  script machine lib as_string a w.

(** The commands of the rollback and of the cleanup. *)
Definition undoes (e : log_entry) : bool :=
  match e with
  | LogRun (GitResetHard _ | GitTagDelete _ | GitBranchDelete _) => true
  | _ => false
  end.

End Sample.

(** * Properties *)

(** ** Strings *)

Module StrFacts.

Import Str.

Lemma app_nil_l (s : string) : "" +:+ s = s.
Proof. done. Qed.

Lemma app_cons (c : ascii) (s t : string) :
  String c s +:+ t = String c (s +:+ t).
Proof. done. Qed.

Lemma app_nil_r (s : string) : s +:+ "" = s.
Proof. induction s as [|c s IH]; [done|]. by rewrite app_cons, IH. Qed.

Lemma app_assoc (a b c : string) : (a +:+ b) +:+ c = a +:+ (b +:+ c).
Proof. induction a as [|x a IH]; [done|]. by rewrite !app_cons, IH. Qed.

Lemma length_app (a b : string) :
  String.length (a +:+ b) = (String.length a + String.length b)%nat.
Proof.
  induction a as [|x a IH]; [done|]. rewrite app_cons. cbn. by rewrite IH.
Qed.

Lemma app_inv_same_length (s s' t t' : string) :
  String.length t = String.length t' →
  s +:+ t = s' +:+ t' → s = s' ∧ t = t'.
Proof.
  revert s'. induction s as [|c s IH]; intros [|c' s'] Hlen Heq;
    rewrite ?app_cons, ?app_nil_l in Heq.
  - done.
  - exfalso. subst t. cbn in Hlen. rewrite length_app in Hlen. lia.
  - exfalso. subst t'. cbn in Hlen. rewrite length_app in Hlen. lia.
  - injection Heq as -> Heq.
    destruct (IH _ Hlen Heq) as [-> ->]. done.
Qed.

Lemma startswith_app (p s : string) : startswith p (p +:+ s) = true.
Proof.
  induction p as [|c p IH]; [by destruct s|].
  rewrite app_cons. cbn. by rewrite Ascii.eqb_refl, IH.
Qed.

Lemma uint_digits (d : uint) : all_digits (NilEmpty.string_of_uint d) = true.
Proof. induction d; cbn; auto. Qed.

Lemma of_int_digits (n : N) : all_digits (of_int n) = true.
Proof. apply uint_digits. Qed.

Lemma to_int_of_int (n : N) : to_int (of_int n) = n.
Proof.
  unfold to_int, of_int. rewrite NilEmpty.usu. apply DecimalN.Unsigned.of_to.
Qed.

Lemma of_int_inj (n m : N) : of_int n = of_int m → n = m.
Proof.
  intros Heq. rewrite <- (to_int_of_int n), <- (to_int_of_int m).
  by rewrite Heq.
Qed.

Lemma of_int_nonempty (n : N) : of_int n ≠ "".
Proof.
  intros Heq. pose proof (to_int_of_int n) as Hn. rewrite Heq in Hn.
  cbn in Hn. subst n. discriminate Heq.
Qed.

(** A printed number starts with a digit. *)
Lemma of_int_head (n : N) :
  ∃ c s, of_int n = String c s ∧ is_digit c = true ∧ all_digits s = true.
Proof.
  pose proof (of_int_digits n) as Hd. pose proof (of_int_nonempty n) as Hne.
  destruct (of_int n) as [|c s]; [done|].
  cbn in Hd. apply andb_prop in Hd as [??]. eauto.
Qed.

Lemma of_int_single (n : N) :
  n < 10 → ∃ c, of_int n = String c "".
Proof.
  intros Hlt.
  assert (n = 0 ∨ n = 1 ∨ n = 2 ∨ n = 3 ∨ n = 4 ∨ n = 5 ∨ n = 6 ∨ n = 7
          ∨ n = 8 ∨ n = 9) as Hcases by lia.
  repeat (destruct Hcases as [->|Hcases]; [by eexists|]).
  subst. by eexists.
Qed.

Lemma flush_nonempty (c : ascii) (s : string) :
  flush (String c s) = [String c s].
Proof. done. Qed.

Lemma findall_from_digits (d cur s : string) :
  all_digits d = true →
  findall_digits_from cur (d +:+ s) = findall_digits_from (cur +:+ d) s.
Proof.
  revert cur. induction d as [|c d IH]; intros cur Hd.
  - by rewrite app_nil_l, app_nil_r.
  - cbn in Hd. apply andb_prop in Hd as [Hc Hd].
    rewrite app_cons. cbn. rewrite Hc, IH by done.
    by rewrite app_assoc.
Qed.

Lemma findall_from_other (c : ascii) (cur s : string) :
  is_digit c = false →
  findall_digits_from cur (String c s)
  = flush cur ++ findall_digits_from "" s.
Proof. intros Hc. cbn. by rewrite Hc. Qed.

Lemma findall_skip (t s : string) :
  no_digit t = true →
  findall_digits_from "" (t +:+ s) = findall_digits_from "" s.
Proof.
  induction t as [|c t IH]; intros Ht; [done|].
  cbn in Ht. apply andb_prop in Ht as [Hc Ht].
  rewrite app_cons, findall_from_other by by destruct (is_digit c).
  by apply IH.
Qed.

(** A run of digits followed by text that does not start with a digit is
    one match, and the search goes on in that text. *)
Lemma findall_run (d rest : string) :
  d ≠ "" → all_digits d = true → no_leading_digit rest = true →
  findall_digits (d +:+ rest) = d :: findall_digits rest.
Proof.
  intros Hne Hd Hrest. unfold findall_digits.
  rewrite findall_from_digits by done. cbn.
  destruct d as [|c d]; [done|].
  destruct rest as [|x rest]; [done|].
  cbn in Hrest. rewrite !findall_from_other by by destruct (is_digit x).
  done.
Qed.

Lemma findall_of_int (n : N) (rest : string) :
  no_leading_digit rest = true →
  findall_digits (of_int n +:+ rest) = of_int n :: findall_digits rest.
Proof.
  intros. apply findall_run; auto using of_int_nonempty, of_int_digits.
Qed.

Lemma replace_from_skip (old new x rest : string) :
  replace_from old new (String.length x) (x +:+ rest)
  = replace_from old new 0 rest.
Proof.
  induction x as [|c x IH]; [done|].
  rewrite app_cons. cbn [String.length replace_from]. exact IH.
Qed.

Lemma replace_prefix (old new rest : string) :
  old ≠ "" →
  replace old new (old +:+ rest) = new +:+ replace old new rest.
Proof.
  intros Hne. destruct old as [|c old]; [done|].
  unfold replace. rewrite app_cons.
  change (replace_from (String c old) new 0 (String c (old +:+ rest)))
    with (if startswith (String c old) (String c (old +:+ rest))
          then new +:+ replace_from (String c old) new
                         (String.length (String c old) - 1) (old +:+ rest)
          else String c (replace_from (String c old) new 0 (old +:+ rest))).
  rewrite <- app_cons, startswith_app.
  f_equal. cbn [String.length]. rewrite Nat.sub_succ, Nat.sub_0_r.
  apply replace_from_skip.
Qed.

Lemma contains_cons_false (p : string) (c : ascii) (s : string) :
  contains p (String c s) = false →
  startswith p (String c s) = false ∧ contains p s = false.
Proof. cbn [contains]. intros H. by apply orb_false_elim in H. Qed.

Lemma replace_absent (old new s : string) :
  old ≠ "" → contains old s = false → replace old new s = s.
Proof.
  intros Hne. destruct old as [|a old]; [done|]. unfold replace.
  induction s as [|c s IH]; intros Hc; [done|].
  apply contains_cons_false in Hc as [Hs Hc].
  change (replace_from (String a old) new 0 (String c s))
    with (if startswith (String a old) (String c s)
          then new +:+ replace_from (String a old) new
                         (String.length (String a old) - 1) s
          else String c (replace_from (String a old) new 0 s)).
  rewrite Hs. f_equal. by apply IH.
Qed.

Lemma contains_digit_absent (a : ascii) (p s : string) :
  is_digit a = true → no_digit s = true → contains (String a p) s = false.
Proof.
  intros Ha. induction s as [|c s IH]; intros Hs; [done|].
  cbn in Hs. apply andb_prop in Hs as [Hc Hs].
  cbn [contains startswith]. rewrite IH by done.
  destruct (Ascii.eqb_spec a c) as [->|]; [|done].
  by rewrite Ha in Hc.
Qed.

End StrFacts.

(** ** Version utilities *)

Module VersionFacts.

Import Str StrFacts.

Lemma dotted_head (x y z : N) :
  ∃ c s, dotted x y z = String c s ∧ is_digit c = true.
Proof.
  destruct (of_int_head x) as (c & s & Hx & Hc & _).
  unfold dotted. rewrite Hx, app_cons. eauto.
Qed.

Lemma dotted_nonempty (x y z : N) : dotted x y z ≠ "".
Proof. destruct (dotted_head x y z) as (c & s & -> & _). done. Qed.

Lemma findall_dot (s : string) :
  findall_digits ("." +:+ s) = findall_digits s.
Proof. apply (findall_skip "." s). done. Qed.

Lemma split_dotted (x y z : N) (rest : string) :
  no_leading_digit rest = true →
  split_version_to_digits (dotted x y z +:+ rest)
  = x :: y :: z :: split_version_to_digits rest.
Proof.
  intros Hrest. unfold split_version_to_digits, dotted.
  rewrite !app_assoc.
  rewrite findall_of_int, findall_dot by done.
  rewrite findall_of_int, findall_dot by done.
  rewrite findall_of_int by done.
  cbn [map]. by rewrite !to_int_of_int.
Qed.

Lemma guess_dotted (x y z : N) (rest : string) :
  no_leading_digit rest = true →
  guess_snapshot (dotted x y z +:+ rest)
  = Some (dotted x y (z + 1)
          +:+ replace (dotted x y z) (dotted x y (z + 1)) rest).
Proof.
  intros Hrest. unfold guess_snapshot.
  rewrite split_dotted by done. cbn.
  by rewrite replace_prefix by apply dotted_nonempty.
Qed.

(** The text between two runs of digits. *)
Definition is_run (r : string) : Prop := r ≠ "" ∧ all_digits r = true.
Definition is_sep (s : string) : Prop := s ≠ "" ∧ no_digit s = true.

(** A text written as its runs of digits, each with the text that follows
    it. *)
Definition assemble (pre : string) (chunks : list (string * string))
    (last : string) : string :=
  pre +:+ Text.join (map (fun c => fst c +:+ snd c) chunks) +:+ last.

Lemma findall_last (last : string) :
  all_digits last = true → findall_digits last = flush last.
Proof.
  intros Hd. unfold findall_digits.
  rewrite <- (app_nil_r last) at 1. by rewrite findall_from_digits.
Qed.

Lemma sep_no_leading_digit (s rest : string) :
  is_sep s → no_leading_digit (s +:+ rest) = true.
Proof.
  intros [Hne Hs]. destruct s as [|c s]; [done|].
  cbn in Hs. apply andb_prop in Hs as [Hc _]. by rewrite app_cons.
Qed.

Lemma findall_chunks (chunks : list (string * string)) (last : string) :
  Forall (fun c => is_run (fst c) ∧ is_sep (snd c)) chunks →
  all_digits last = true →
  findall_digits (Text.join (map (fun c => fst c +:+ snd c) chunks) +:+ last)
  = map fst chunks ++ flush last.
Proof.
  intros Hall Hlast. induction Hall as [|[r s] chunks [[Hr1 Hr2] Hs] _ IH].
  - cbn. by apply findall_last.
  - cbn [map Text.join fst snd]. rewrite !app_assoc.
    rewrite findall_run by eauto using sep_no_leading_digit.
    cbn [app]. f_equal. unfold findall_digits.
    rewrite findall_skip by apply Hs. apply IH.
Qed.

Example split_250 : split_version_to_digits "2.5.0-SNAPSHOT" = [2; 5; 0].
Proof. reflexivity. Qed.

Example guess_250 : guess_snapshot "2.5.0-SNAPSHOT" = Some "2.5.1-SNAPSHOT".
Proof. reflexivity. Qed.

Example guess_short : guess_snapshot "2.5" = None.
Proof. reflexivity. Qed.

Example anchor_230 :
  get_doc_anchor "2.3.0" "1.3.0" = Some "#version-230-for-elasticsearch-13".
Proof. reflexivity. Qed.

(** A component with a leading zero is read as its value and printed
    without the zero, so the text to replace does not occur. *)
Example guess_leading_zero :
  guess_snapshot "2.05.0-SNAPSHOT" = Some "2.05.0-SNAPSHOT".
Proof. reflexivity. Qed.

(** C5. For the version [x.y.z-SNAPSHOT] written from three integers,
    [split_version_to_digits] gives exactly [x; y; z], and
    [guess_snapshot] gives [x.y.(z+1)-SNAPSHOT]: the patch component is one
    more, and the major and minor components and the suffix are as they
    were. *)
Theorem snapshot_guess_increments_patch (x y z : N) :
  split_version_to_digits (dotted x y z +:+ "-SNAPSHOT") = [x; y; z] ∧
  guess_snapshot (dotted x y z +:+ "-SNAPSHOT")
  = Some (dotted x y (z + 1) +:+ "-SNAPSHOT").
Proof.
  split.
  - by rewrite split_dotted.
  - rewrite guess_dotted by done. do 2 f_equal.
    destruct (dotted_head x y z) as (c & s & Hd & Hc).
    apply replace_absent; [apply dotted_nonempty|].
    rewrite Hd. by apply contains_digit_absent.
Qed.

(** C10, as the code has it. [split_version_to_digits] is a total
    function: on a text written as its runs of digits and the text between
    them it returns the values of the runs, in order, however many they
    are. On a version that starts with [x.y.z] and goes on with text that
    does not continue the third run, [guess_snapshot] reads [x], [y] and
    [z] only and, when [x.y.z] does not occur in the text that follows,
    returns [x.y.(z+1)] followed by that text unchanged. *)
Theorem guess_snapshot_first_three
    (pre : string) (chunks : list (string * string)) (last : string)
    (x y z : N) (rest : string) :
  no_digit pre = true →
  Forall (fun c => is_run (fst c) ∧ is_sep (snd c)) chunks →
  all_digits last = true →
  no_leading_digit rest = true →
  contains (dotted x y z) rest = false →
  split_version_to_digits (assemble pre chunks last)
  = map to_int (map fst chunks ++ flush last) ∧
  split_version_to_digits (dotted x y z +:+ rest)
  = x :: y :: z :: split_version_to_digits rest ∧
  guess_snapshot (dotted x y z +:+ rest)
  = Some (dotted x y (z + 1) +:+ rest).
Proof.
  intros Hpre Hchunks Hlast Hrest Habsent. split; [|split].
  - unfold split_version_to_digits, assemble. f_equal.
    unfold findall_digits at 1. rewrite findall_skip by done.
    by apply findall_chunks.
  - by apply split_dotted.
  - rewrite guess_dotted by done. do 2 f_equal.
    apply replace_absent; [apply dotted_nonempty | done].
Qed.

Lemma guess_snapshot_first_three_witness :
  split_version_to_digits "v10.4-rc007" = [10; 4; 7] ∧
  split_version_to_digits "1.2.3.4" = [1; 2; 3; 4] ∧
  guess_snapshot "1.2.3.4" = Some "1.2.4.4".
Proof.
  apply (guess_snapshot_first_three "v" [("10", "."); ("4", "-rc")] "007"
           1 2 3 ".4").
  - reflexivity.
  - repeat constructor; discriminate.
  - reflexivity.
  - reflexivity.
  - reflexivity.
Defined.

(** C10, as stated, fails: every occurrence of the first three components
    is rewritten, also one among the components that follow. *)
Lemma guess_snapshot_rewrites_later_components :
  split_version_to_digits "1.2.3.1.2.3" = [1; 2; 3; 1; 2; 3] ∧
  guess_snapshot "1.2.3.1.2.3" = Some "1.2.4.1.2.4" ∧
  guess_snapshot "1.2.3.1.2.3" ≠ Some "1.2.4.1.2.3".
Proof. split; [reflexivity|]. split; [reflexivity|]. discriminate. Qed.

(** ** Documentation anchor and release branch name *)

(** The anchor as a function of the five components it is made of. *)
Definition anchor (p0 p1 p2 e0 e1 : N) : string :=
  "#version-" +:+ of_int p0 +:+ of_int p1 +:+ of_int p2
  +:+ "-for-elasticsearch-" +:+ of_int e0 +:+ of_int e1.

Lemma get_doc_anchor_components (release esversion : string)
    (p0 p1 p2 e0 e1 : N) (ps es : list N) :
  split_version_to_digits release = p0 :: p1 :: p2 :: ps →
  split_version_to_digits esversion = e0 :: e1 :: es →
  get_doc_anchor release esversion = Some (anchor p0 p1 p2 e0 e1).
Proof. intros Hr He. unfold get_doc_anchor. by rewrite Hr, He. Qed.

Lemma all_digits_app (a b : string) :
  all_digits (a +:+ b) = all_digits a && all_digits b.
Proof.
  induction a as [|c a IH]; [done|].
  rewrite app_cons. cbn. by rewrite IH, andb_assoc.
Qed.

Lemma split_at_dash (l1 l2 r1 r2 : string) :
  all_digits l1 = true → all_digits l2 = true →
  l1 +:+ String "-" r1 = l2 +:+ String "-" r2 → l1 = l2 ∧ r1 = r2.
Proof.
  revert l2. induction l1 as [|c l1 IH]; intros [|c' l2] H1 H2 Heq;
    rewrite ?app_cons, ?app_nil_l in Heq.
  - by injection Heq.
  - injection Heq as <- _. done.
  - injection Heq as -> _. done.
  - injection Heq as -> Heq. cbn in H1, H2.
    apply andb_prop in H1 as [_ H1]. apply andb_prop in H2 as [_ H2].
    destruct (IH _ H1 H2 Heq) as [-> ->]. done.
Qed.

(** A text followed by a one-digit number determines both. *)
Lemma text_then_digit (s s' : string) (b b' : N) :
  b < 10 → b' < 10 →
  s +:+ of_int b = s' +:+ of_int b' → s = s' ∧ b = b'.
Proof.
  intros Hb Hb' Heq.
  destruct (of_int_single b Hb) as [c Hc].
  destruct (of_int_single b' Hb') as [c' Hc'].
  rewrite Hc, Hc' in Heq.
  apply app_inv_same_length in Heq as [Ha Hcc]; [|done].
  split; [done|]. apply of_int_inj. congruence.
Qed.

Lemma anchor_inj (p0 p1 p2 e0 e1 p0' p1' p2' e0' e1' : N) :
  p1 < 10 → p2 < 10 → e1 < 10 → p1' < 10 → p2' < 10 → e1' < 10 →
  anchor p0 p1 p2 e0 e1 = anchor p0' p1' p2' e0' e1' →
  p0 = p0' ∧ p1 = p1' ∧ p2 = p2' ∧ e0 = e0' ∧ e1 = e1'.
Proof.
  intros Hp1 Hp2 He1 Hp1' Hp2' He1' Heq. unfold anchor in Heq.
  apply (inj (String.append "#version-")) in Heq.
  rewrite <- !(app_assoc (of_int _) (of_int _)) in Heq.
  rewrite <- (app_assoc (of_int p0 +:+ of_int p1)) in Heq.
  rewrite <- (app_assoc (of_int p0' +:+ of_int p1')) in Heq.
  change ("-for-elasticsearch-" +:+ ?e)
    with (String "-" ("for-elasticsearch-" +:+ e)) in Heq.
  apply split_at_dash in Heq as [HP HE];
    [|by rewrite !all_digits_app, !of_int_digits..].
  apply (inj (String.append "for-elasticsearch-")) in HE.
  apply text_then_digit in HE as [HE ->]; [|done..].
  apply text_then_digit in HP as [HP ->]; [|done..].
  apply text_then_digit in HP as [HP ->]; [|done..].
  apply of_int_inj in HE as ->. apply of_int_inj in HP as ->. done.
Qed.

(** C7, as the code has it. The anchor is a function of the first three
    components of the release version and the first two of the dependency
    version, and of nothing else; on these five components it is injective
    when the minor and patch components of the release and the minor
    component of the dependency are below 10. *)
Theorem get_doc_anchor_injective_on_components
    (release esversion release' esversion' : string)
    (p0 p1 p2 e0 e1 p0' p1' p2' e0' e1' : N) (ps es ps' es' : list N) :
  split_version_to_digits release = p0 :: p1 :: p2 :: ps →
  split_version_to_digits esversion = e0 :: e1 :: es →
  split_version_to_digits release' = p0' :: p1' :: p2' :: ps' →
  split_version_to_digits esversion' = e0' :: e1' :: es' →
  p1 < 10 → p2 < 10 → e1 < 10 → p1' < 10 → p2' < 10 → e1' < 10 →
  get_doc_anchor release esversion = Some (anchor p0 p1 p2 e0 e1) ∧
  (get_doc_anchor release esversion = get_doc_anchor release' esversion' →
   p0 = p0' ∧ p1 = p1' ∧ p2 = p2' ∧ e0 = e0' ∧ e1 = e1').
Proof.
  intros Hr He Hr' He' ? ? ? ? ? ?.
  rewrite (get_doc_anchor_components _ _ _ _ _ _ _ _ _ Hr He).
  rewrite (get_doc_anchor_components _ _ _ _ _ _ _ _ _ Hr' He').
  split; [done|]. intros Heq. apply (inj Some) in Heq.
  by apply anchor_inj in Heq.
Qed.

Lemma get_doc_anchor_injective_on_components_witness :
  get_doc_anchor "12.3.0" "1.3.0" = Some "#version-1230-for-elasticsearch-13" ∧
  (get_doc_anchor "12.3.0" "1.3.0" = get_doc_anchor "12.3.0-SNAPSHOT" "1.3.9" →
   12 = 12 ∧ 3 = 3 ∧ 0 = 0 ∧ 1 = 1 ∧ 3 = 3).
Proof.
  apply (get_doc_anchor_injective_on_components
           "12.3.0" "1.3.0" "12.3.0-SNAPSHOT" "1.3.9"
           12 3 0 1 3 12 3 0 1 3 [] [0] [] [9]);
    (reflexivity || lia).
Defined.

(** C7, as stated, fails: two dependency versions that differ in their
    patch component give the same anchor, and so do two release versions
    whose digits run together to the same text. *)
Lemma get_doc_anchor_collisions :
  ("2.3.0", "1.3.0") ≠ ("2.3.0", "1.3.1") ∧
  get_doc_anchor "2.3.0" "1.3.0" = get_doc_anchor "2.3.0" "1.3.1" ∧
  ("2.30.0", "1.3.0") ≠ ("23.0.0", "1.3.0") ∧
  get_doc_anchor "2.30.0" "1.3.0" = get_doc_anchor "23.0.0" "1.3.0".
Proof. repeat split; (discriminate || reflexivity). Qed.

(** C8. The name of the release branch does not determine the source
    branch and the version: an underscore of the branch name is read as
    the separator. *)
Theorem release_branch_not_injective :
  ∃ branch1 version1 branch2 version2 : string,
    (branch1, version1) ≠ (branch2, version2) ∧
    release_branch branch1 version1 = release_branch branch2 version2.
Proof.
  exists "es_1.3", "2.5.0", "es", "1.3_2.5.0".
  split; [discriminate | reflexivity].
Qed.

End VersionFacts.

(** ** File patcher *)

Section FilePatcher.

Variable H : host.

Import Str StrFacts.

Lemma join_lines_from (cur s : string) :
  Text.join (Text.lines_from cur s) = cur +:+ s.
Proof.
  revert cur. induction s as [|c s IH]; intros cur.
  - cbn. rewrite app_nil_r. destruct cur; [done|]. cbn. by rewrite app_nil_r.
  - cbn [Text.lines_from]. destruct (Ascii.eqb_spec c Text.LF) as [->|Hne].
    + cbn [Text.join]. by rewrite IH, app_nil_l, app_assoc.
    + by rewrite IH, app_assoc.
Qed.

(** The lines of a text, put together again, are the text. *)
Lemma join_lines (text : string) : Text.join (Text.lines text) = text.
Proof. apply join_lines_from. Qed.

(** A text without carriage return is read as it is. *)
Lemma universal_newlines_id (s : string) :
  Str.contains (String Text.CR "") s = false →
  Text.universal_newlines s = s.
Proof.
  induction s as [|c s IH]; [done|]. intros Hc.
  apply contains_cons_false in Hc as [Hs Hc].
  cbn [Text.universal_newlines].
  destruct (Ascii.eqb_spec c Text.CR) as [->|Hne]; [done|].
  by rewrite IH.
Qed.

Lemma process_lines_fold (cb : string → string) (lines : list string)
    (modified : bool) (out : string) :
  fold_left (process_line cb) lines (modified, out)
  = (modified || existsb (fun l => negb (String.eqb (cb l) l)) lines,
     out +:+ Text.join (map cb lines)).
Proof.
  revert modified out. induction lines as [|l lines IH]; intros modified out.
  - cbn. by rewrite orb_false_r, app_nil_r.
  - cbn [fold_left existsb map Text.join].
    change (process_line cb (modified, out) l)
      with (modified || negb (String.eqb (cb l) l), out +:+ cb l).
    by rewrite IH, orb_assoc, app_assoc.
Qed.

Lemma some_line_changed (cb : string → string) (lines : list string) :
  existsb (fun l => negb (String.eqb (cb l) l)) lines = true
  ↔ ∃ line, line ∈ lines ∧ cb line ≠ line.
Proof.
  rewrite existsb_exists. split; intros (line & Hin & Hline); exists line.
  - apply negb_true_iff, String.eqb_neq in Hline. by rewrite list_elem_of_In.

  - rewrite <- list_elem_of_In. split; [apply Hin|].
    by apply negb_true_iff, String.eqb_neq.
Qed.


End FilePatcher.


(** ** The announcement *)

Section Announce.

Variable H : host.
Variable L : pylib.
Variable as_string : email → string.

(** The message as [send_email] completes it. *)
Definition addressed (msg : email) (sender : option string) (to : string)
    : email :=
  set_header "To" ("Elasticsearch Announcement List <" +:+ to +:+ ">")
    (set_header "From"
       ("Elasticsearch Team <" +:+ default "None" sender +:+ ">") msg).

(** C6. Whatever the two flags are, and whether or not the mail server
    answers, [send_email] leaves the composed message in
    [target/email.txt]; it hands the message to the SMTP server when mail
    is enabled and the run is not a dry run, and in no other case. *)
Theorem send_email_saves_always_sends_when_enabled
    (msg : email) (dry_run mail : bool) (sender : option string)
    (to smtp_server : string) (w : world) :
  let text := as_string (addressed msg sender to) in
  let w' := snd (send_email H as_string msg dry_run mail sender to
                   smtp_server w) in
  fs w' !! email_file H = Some text ∧
  outbox w' = outbox w ++
              (if mail && negb dry_run
               then [SmtpRequest smtp_server 25 sender to text] else []) ∧
  (outbox w' ≠ outbox w ↔ mail = true ∧ dry_run = false).
Proof.
  unfold send_email, bind, write_text, smtp_sendmail, addressed. cbn.
  destruct mail, dry_run; cbn; try destruct (smtp_ok H (clock w)); cbn;
    rewrite ?lookup_insert_eq, ?app_nil_r;
    (split; [done|]; split; [done|]); split;
    try done; try (intros [??]; done); intros _ Heq;
    apply (f_equal length) in Heq; rewrite length_app in Heq; cbn in Heq; lia.
Qed.

End Announce.

(** ** Reasoning about the monad *)

Lemma bind_inv {A B} (m : Py A) (f : A → Py B) (w : world)
    (r : outcome B) (w' : world) :
  bind m f w = (r, w') →
  (∃ a w1, m w = (Ok a, w1) ∧ f a w1 = (r, w')) ∨
  (∃ e, m w = (Raise e, w') ∧ r = Raise e).
Proof.
  unfold bind. destruct (m w) as [[a|e] w1]; intros Hrun.
  - left. eauto.
  - right. injection Hrun as <- <-. eauto.
Qed.

Lemma bind_ok {A B} (m : Py A) (f : A → Py B) (w : world) (b : B)
    (w' : world) :
  bind m f w = (Ok b, w') →
  ∃ a w1, m w = (Ok a, w1) ∧ f a w1 = (Ok b, w').
Proof.
  intros Hrun. apply bind_inv in Hrun as [?|(e & _ & ?)]; [done|discriminate].
Qed.

Lemma bind_step {A B} (m : Py A) (f : A → Py B) (w : world) (a : A)
    (w1 : world) :
  m w = (Ok a, w1) → bind m f w = f a w1.
Proof. unfold bind. by intros ->. Qed.

Lemma bind_raise {A B} (m : Py A) (f : A → Py B) (w : world) (e : exn)
    (w1 : world) :
  m w = (Raise e, w1) → bind m f w = (Raise e, w1).
Proof. unfold bind. by intros ->. Qed.

Lemma try_except_ok {A} (body handler : Py A) (handles : exn → bool)
    (w : world) (a : A) (w' : world) :
  try_except body handles handler w = (Ok a, w') →
  body w = (Ok a, w') ∨
  (∃ e w1, body w = (Raise e, w1) ∧ handles e = true
           ∧ handler w1 = (Ok a, w')).
Proof.
  unfold try_except. destruct (body w) as [[b|e] w1]; intros Hrun.
  - left. done.
  - right. destruct (handles e) eqn:He; [eauto | discriminate].
Qed.

Lemma try_finally_inv {A} (body : Py A) (final : bool → Py unit)
    (w : world) (r : outcome A) (w' : world) :
  try_finally body final w = (r, w') →
  ∃ r1 w1 r2, body w = (r1, w1) ∧ final (is_ok r1) w1 = (r2, w') ∧
              r = match r2 with Ok _ => r1 | Raise e => Raise e end.
Proof.
  unfold try_finally. destruct (body w) as [r1 w1].
  destruct (final (is_ok r1) w1) as [[[]|e] w2] eqn:Hfinal;
    intros [= <- <-]; eauto 6.
Qed.

(** *** What a computation leaves untouched

    [frame T m]: every run of [m] relates the world it starts in to the
    world it ends in by [T], whatever the outcome. *)

Definition frame {A} (T : world → world → Prop) (m : Py A) : Prop :=
  ∀ w r w', m w = (r, w') → T w w'.

(** [raises P m]: an exception that leaves [m] satisfies [P]. *)
Definition raises {A} (P : exn → Prop) (m : Py A) : Prop :=
  ∀ w e w', m w = (Raise e, w') → P e.

Section Frame.

Variable T : world → world → Prop.
Hypothesis T_refl : ∀ w, T w w.
Hypothesis T_trans : ∀ w1 w2 w3, T w1 w2 → T w2 w3 → T w1 w3.

Lemma frame_ret {A} (a : A) : frame T (ret a).
Proof. intros w r w' [= <- <-]. apply T_refl. Qed.

Lemma frame_raise {A} (e : exn) : frame T (raise (A := A) e).
Proof. intros w r w' [= <- <-]. apply T_refl. Qed.

Lemma frame_bind {A B} (m : Py A) (f : A → Py B) :
  frame T m → (∀ a, frame T (f a)) → frame T (bind m f).
Proof.
  intros Hm Hf w r w' Hrun.
  apply bind_inv in Hrun as [(a & w1 & Hm1 & Hf1)|(e & Hm1 & _)].
  - eapply T_trans; [by eapply Hm | by eapply Hf].
  - by eapply Hm.
Qed.

Lemma frame_try_except {A} (body handler : Py A) (handles : exn → bool) :
  frame T body → frame T handler → frame T (try_except body handles handler).
Proof.
  intros Hb Hh w r w'. unfold try_except.
  destruct (body w) as [[a|e] w1] eqn:Hbody.
  - intros [= <- <-]. by eapply Hb.
  - destruct (handles e).
    + intros Hrun. eapply T_trans; [by eapply Hb | by eapply Hh].
    + intros [= <- <-]. by eapply Hb.
Qed.

Lemma frame_try_finally {A} (body : Py A) (final : bool → Py unit) :
  frame T body → (∀ b, frame T (final b)) → frame T (try_finally body final).
Proof.
  intros Hb Hf w r w' Hrun.
  apply try_finally_inv in Hrun as (r1 & w1 & r2 & Hbody & Hfinal & _).
  eapply T_trans; [by eapply Hb | by eapply Hf].
Qed.

Lemma frame_for_each {A} (l : list A) (f : A → Py unit) :
  (∀ a, frame T (f a)) → frame T (for_each l f).
Proof.
  intros Hf. induction l as [|a l IH]; cbn [for_each].
  - apply frame_ret.
  - apply frame_bind; auto.
Qed.

Lemma frame_or_raise {A} (e : exn) (o : option A) : frame T (or_raise e o).
Proof. destruct o; [apply frame_ret | apply frame_raise]. Qed.

End Frame.

Section Raises.

Lemma raises_ret {A} (P : exn → Prop) (a : A) : raises P (ret a).
Proof. intros w e w' [=]. Qed.

Lemma raises_raise {A} (P : exn → Prop) (e : exn) :
  P e → raises P (raise (A := A) e).
Proof. by intros He w e' w' [= <- _]. Qed.

Lemma raises_bind {A B} (P : exn → Prop) (m : Py A) (f : A → Py B) :
  raises P m → (∀ a, raises P (f a)) → raises P (bind m f).
Proof.
  intros Hm Hf w e w' Hrun.
  apply bind_inv in Hrun as [(a & w1 & Hm1 & Hf1)|(e' & Hm1 & [= ->])].
  - by eapply Hf.
  - by eapply Hm.
Qed.

Lemma raises_try_except {A} (P : exn → Prop) (body handler : Py A)
    (handles : exn → bool) :
  raises (fun e => handles e = false → P e) body → raises P handler →
  raises P (try_except body handles handler).
Proof.
  intros Hb Hh w e w'. unfold try_except.
  destruct (body w) as [[a|e'] w1] eqn:Hbody; [done|].
  destruct (handles e') eqn:He.
  - intros Hrun. by eapply Hh.
  - intros [= <- <-]. by eapply Hb.
Qed.

Lemma raises_try_finally {A} (P : exn → Prop) (body : Py A)
    (final : bool → Py unit) :
  raises P body → (∀ b, raises P (final b)) →
  raises P (try_finally body final).
Proof.
  intros Hb Hf w e w' Hrun.
  apply try_finally_inv in Hrun as (r1 & w1 & r2 & Hbody & Hfinal & Hr).
  destruct r2 as [[]|e2].
  - subst r1. by eapply Hb.
  - injection Hr as ->. by eapply Hf.
Qed.

Lemma raises_for_each {A} (P : exn → Prop) (l : list A) (f : A → Py unit) :
  (∀ a, raises P (f a)) → raises P (for_each l f).
Proof.
  intros Hf. induction l as [|a l IH]; cbn [for_each].
  - apply raises_ret.
  - apply raises_bind; auto.
Qed.

Lemma raises_or_raise {A} (P : exn → Prop) (e : exn) (o : option A) :
  P e → raises P (or_raise e o).
Proof. destruct o; [intros; apply raises_ret | apply raises_raise]. Qed.

End Raises.

(** ** The orchestration *)

(** The commands that move no branch and no tag. *)
Definition moves_no_ref (c : command) : bool :=
  match c with
  | GitCheckout _ | GitFetch _ | GitAdd _ | GitPush _ _ | Shell _ => true
  | _ => false
  end.

(** The heads of the branches and the tags are the same. *)
Definition same_refs (w w' : world) : Prop :=
  branches (git w') = branches (git w) ∧ tags (git w') = tags (git w).

(** The tracker holds the same issues. *)
Definition same_tracker (w w' : world) : Prop := tracker w' = tracker w.

(** The log has grown, by entries that satisfy [Q]. *)
Definition grows (Q : log_entry → bool) (w w' : world) : Prop :=
  ∃ l, trace w' = trace w ++ l ∧ forallb Q l = true.

(** The repository, the tracker and the log are the same. *)
Definition quiet {A} (m : Py A) : Prop :=
  ∀ w r w', m w = (r, w') →
    git w' = git w ∧ tracker w' = tracker w ∧ trace w' = trace w.

Lemma same_refs_refl (w : world) : same_refs w w.
Proof. done. Qed.

Lemma same_refs_trans (w1 w2 w3 : world) :
  same_refs w1 w2 → same_refs w2 w3 → same_refs w1 w3.
Proof. intros [??] [??]. split; congruence. Qed.

Lemma same_tracker_refl (w : world) : same_tracker w w.
Proof. done. Qed.

Lemma same_tracker_trans (w1 w2 w3 : world) :
  same_tracker w1 w2 → same_tracker w2 w3 → same_tracker w1 w3.
Proof. unfold same_tracker. congruence. Qed.

Lemma grows_refl (Q : log_entry → bool) (w : world) : grows Q w w.
Proof. exists []. by rewrite app_nil_r. Qed.

Lemma grows_trans (Q : log_entry → bool) (w1 w2 w3 : world) :
  grows Q w1 w2 → grows Q w2 w3 → grows Q w1 w3.
Proof.
  intros (l1 & H1 & Q1) (l2 & H2 & Q2). exists (l1 ++ l2).
  rewrite H2, H1, app_assoc, forallb_app, Q1, Q2. done.
Qed.

Lemma quiet_same_refs {A} (m : Py A) : quiet m → frame same_refs m.
Proof.
  intros Hq w r w' Hrun. destruct (Hq _ _ _ Hrun) as (Hg & _).
  unfold same_refs. by rewrite Hg.
Qed.

Lemma quiet_same_tracker {A} (m : Py A) : quiet m → frame same_tracker m.
Proof. intros Hq w r w' Hrun. by destruct (Hq _ _ _ Hrun) as (_ & ? & _). Qed.

Lemma quiet_grows {A} (Q : log_entry → bool) (m : Py A) :
  quiet m → frame (grows Q) m.
Proof.
  intros Hq w r w' Hrun. destruct (Hq _ _ _ Hrun) as (_ & _ & Ht).
  exists []. by rewrite Ht, app_nil_r.
Qed.

Section Orchestration.

Variable H : host.
Variable L : pylib.
Variable as_string : email → string.

Ltac primitive :=
  intros w r w' Hrun; cbv beta zeta delta
    [env_item env_get input read_text write_text isfile os_remove
     shutil_move mkstemp os_popen smtp_sendmail get_head_hash
     get_current_branch get_github_repository os_system log_plain
     purge_log] in Hrun;
  repeat case_match; simplify_eq; cbn; try done.

Lemma quiet_env_item (name : string) : quiet (env_item name).
Proof. primitive. Qed.
Lemma quiet_env_get (name : string) : quiet (env_get name).
Proof. primitive. Qed.
Lemma quiet_input : quiet input.
Proof. primitive. Qed.
Lemma quiet_read_text (path : string) : quiet (read_text path).
Proof. primitive. Qed.
Lemma quiet_write_text (path text : string) : quiet (write_text path text).
Proof. primitive. Qed.
Lemma quiet_isfile (path : string) : quiet (isfile path).
Proof. primitive. Qed.
Lemma quiet_os_remove (path : string) : quiet (os_remove path).
Proof. primitive. Qed.
Lemma quiet_shutil_move (src dst : string) : quiet (shutil_move src dst).
Proof. primitive. Qed.
Lemma quiet_mkstemp : quiet (mkstemp H).
Proof. primitive. Qed.
Lemma quiet_os_popen (line : string) : quiet (os_popen H line).
Proof. primitive. Qed.
Lemma quiet_smtp_sendmail (request : smtp_request) :
  quiet (smtp_sendmail H request).
Proof. primitive. Qed.
Lemma quiet_get_head_hash : quiet get_head_hash.
Proof. primitive. Qed.
Lemma quiet_get_current_branch : quiet get_current_branch.
Proof. primitive. Qed.
Lemma quiet_get_github_repository (reponame : string) :
  quiet (get_github_repository reponame).
Proof. primitive. Qed.

Lemma git_step_moves_no_ref (fresh : string) (c : command) (r r' : repo) :
  moves_no_ref c = true → git_step fresh c r = Some r' →
  branches r' = branches r ∧ tags r' = tags r.
Proof.
  destruct c; try done; cbn; intros _ Hstep;
    repeat case_match; by simplify_eq.
Qed.

Lemma os_system_same_refs (c : command) :
  moves_no_ref c = true → frame same_refs (os_system H c).
Proof.
  intros Hc w r w' Hrun. unfold os_system in Hrun.
  repeat case_match; simplify_eq; try done.
  by eapply git_step_moves_no_ref.
Qed.

Lemma os_system_same_tracker (c : command) :
  frame same_tracker (os_system H c).
Proof. primitive. Qed.

Lemma os_system_grows (Q : log_entry → bool) (c : command) :
  frame (grows Q) (os_system H c).
Proof. primitive; exists []; cbn; by rewrite app_nil_r. Qed.

Lemma log_plain_same_refs (entry : log_entry) :
  frame same_refs (log_plain entry).
Proof. primitive. Qed.

Lemma log_plain_same_tracker (entry : log_entry) :
  frame same_tracker (log_plain entry).
Proof. primitive. Qed.

Lemma log_plain_grows (Q : log_entry → bool) (entry : log_entry) :
  Q entry = true → frame (grows Q) (log_plain entry).
Proof.
  intros HQ. primitive. exists [entry]. cbn. by rewrite HQ.
Qed.

Lemma purge_log_same_refs : frame same_refs purge_log.
Proof. primitive. Qed.

Lemma purge_log_same_tracker : frame same_tracker purge_log.
Proof. primitive. Qed.


Create HintDb frames discriminated.
Create HintDb script discriminated.

#[local] Hint Resolve quiet_same_refs quiet_same_tracker quiet_grows : frames.
#[local] Hint Resolve quiet_env_item quiet_env_get quiet_input quiet_read_text
  quiet_write_text quiet_isfile quiet_os_remove quiet_shutil_move
  quiet_mkstemp quiet_os_popen quiet_smtp_sendmail quiet_get_head_hash
  quiet_get_current_branch quiet_get_github_repository : frames.
#[local] Hint Resolve os_system_same_refs os_system_same_tracker
  os_system_grows log_plain_same_refs log_plain_same_tracker log_plain_grows
  purge_log_same_refs purge_log_same_tracker : frames.
#[local] Hint Extern 1 (_ = true) => reflexivity : frames.

#[local] Hint Unfold run log verify_java_version verify_mvn_java_version
  process_file remove_maven_snapshot add_maven_snapshot
  update_documentation_in_released_branch
  update_documentation_to_released_version set_install_instructions fetch
  git_checkout create_release_branch add_pending_files commit_release
  commit_master commit_snapshot tag_release git_merge git_push run_mvn
  build_release find_release_version find_from_pom get_artifacts
  generate_checksums publish_artifacts iter_issues check_opened_issues
  list_issues read_email_template prepare_email send_email send_email_env
  print_sonatype_notice check_s3_credentials check_github_credentials
  check_email_settings check_output check_command_exists run_and_print
  check_env_var check_environment_and_commandline_tools module_init
  preflight discover baseline_and_branches fan_out version_bump gate_check
  build_phase master_documentation merge_and_tag publish_and_announce
  release_steps reset_branches cleanup finalizer pending_files : script.

Ltac frame_go R Tr :=
  repeat first
    [ apply (frame_ret _ R)
    | apply (frame_raise _ R)
    | apply (frame_or_raise _ R)
    | apply (frame_bind _ Tr); [|intros ?]
    | apply (frame_try_except _ Tr)
    | apply (frame_try_finally _ Tr); [|intros ?]
    | apply (frame_for_each _ R Tr); intros ?
    | match goal with
      | |- frame _ (if ?b then _ else _) => destruct b
      | |- frame _ (match ?x with _ => _ end) => destruct x
      end
    | solve [eauto with frames]
    | progress autounfold with script ].

(** Until the baseline is recorded the script moves no branch and no
    tag. *)
Lemma module_init_same_refs : frame same_refs (module_init H).
Proof. frame_go same_refs_refl same_refs_trans. Qed.

Lemma preflight_same_refs (a : args) : frame same_refs (preflight a).
Proof. frame_go same_refs_refl same_refs_trans. Qed.

Lemma discover_same_refs (a : args) : frame same_refs (discover H L a).
Proof. frame_go same_refs_refl same_refs_trans. Qed.

(** *** C1: a dry run that completes *)

(** A command that [run] completes has exited with status 0, and git has
    accepted it. *)
Lemma run_ok (c : command) (w w' : world) :
  run H c w = (Ok tt, w') →
  ∃ fresh, git_step fresh c (git w) = Some (git w').
Proof.
  unfold run, bind, log_plain, os_system, ret, raise. cbn.
  repeat case_match; intros; simplify_eq. eauto.
Qed.

Lemma checkout_ok (b : string) (w w' : world) :
  git_checkout H b w = (Ok tt, w') →
  is_Some (branches (git w) !! b) ∧ branches (git w') = branches (git w) ∧
  tags (git w') = tags (git w) ∧ HEAD (git w') = b.
Proof.
  intros Hrun. apply run_ok in Hrun as [fresh Hstep]. cbn in Hstep.
  destruct (branches (git w) !! b) eqn:Hb; simplify_eq.
  rewrite <- Hstep. eauto.
Qed.

Lemma reset_ok (h : string) (w w' : world) :
  run H (GitResetHard h) w = (Ok tt, w') →
  branches (git w') = <[HEAD (git w) := h]> (branches (git w)) ∧
  tags (git w') = tags (git w) ∧ HEAD (git w') = HEAD (git w).
Proof.
  intros Hrun. apply run_ok in Hrun as [fresh Hstep]. cbn in Hstep.
  destruct (head_revision (git w)); simplify_eq. by rewrite <- Hstep.
Qed.

Lemma tag_delete_ok (t : string) (w w' : world) :
  run H (GitTagDelete t) w = (Ok tt, w') →
  branches (git w') = branches (git w) ∧
  tags (git w') = delete t (tags (git w)) ∧ HEAD (git w') = HEAD (git w).
Proof.
  intros Hrun. apply run_ok in Hrun as [fresh Hstep]. cbn in Hstep.
  destruct (tags (git w) !! t); simplify_eq. by rewrite <- Hstep.
Qed.

Lemma branch_delete_ok (b : string) (w w' : world) :
  run H (GitBranchDelete b) w = (Ok tt, w') →
  b ≠ HEAD (git w) ∧
  branches (git w') = delete b (branches (git w)) ∧
  tags (git w') = tags (git w) ∧ HEAD (git w') = HEAD (git w).
Proof.
  intros Hrun. apply run_ok in Hrun as [fresh Hstep]. cbn in Hstep.
  destruct (branches (git w) !! b); [|done].
  destruct (decide (b = HEAD (git w))); simplify_eq. by rewrite <- Hstep.
Qed.

Lemma input_ok (w : world) (answer : string) (w' : world) :
  input w = (Ok answer, w') → git w' = git w.
Proof. unfold input. destruct (stdin w); intros; by simplify_eq. Qed.

Lemma release_branch_not_master (branch version : string) :
  release_branch branch version ≠ "master".
Proof. done. Qed.

(** The steps of [reset_branches] that complete leave the two branches on
    the recorded revisions, the source branch checked out, and the tags as
    they were. *)
Lemma reset_branches_ok (c : context) (mh vh : string) (w w' : world) :
  src_branch c ≠ "master" →
  reset_branches H c mh vh w = (Ok tt, w') →
  branches (git w') !! "master" = Some mh ∧
  branches (git w') !! src_branch c = Some vh ∧
  tags (git w') = tags (git w) ∧ HEAD (git w') = src_branch c.
Proof.
  intros Hsrc Hrun. unfold reset_branches in Hrun.
  apply bind_ok in Hrun as ([] & w1 & H1 & Hrun).
  apply bind_ok in Hrun as ([] & w2 & H2 & Hrun).
  apply bind_ok in Hrun as ([] & w3 & H3 & H4).
  apply checkout_ok in H1 as (_ & Hb1 & Ht1 & Hh1).
  apply reset_ok in H2 as (Hb2 & Ht2 & Hh2).
  apply checkout_ok in H3 as (_ & Hb3 & Ht3 & Hh3).
  apply reset_ok in H4 as (Hb4 & Ht4 & Hh4).
  rewrite Hb4, Hh3, Hb3, Hb2, Hh1, Hb1, Ht4, Ht3, Ht2, Ht1, Hh4.
  by rewrite lookup_insert_ne, !lookup_insert_eq.
Qed.

Lemma cleanup_ok (c : context) (w w' : world) (b : string) :
  HEAD (git w) = src_branch c → b = "master" ∨ b = src_branch c →
  cleanup H c w = (Ok tt, w') →
  branches (git w') !! b = branches (git w) !! b ∧
  tags (git w') = tags (git w).
Proof.
  intros Hhead Hb Hrun. unfold cleanup in Hrun.
  apply bind_ok in Hrun as ([] & w1 & H1 & Hrun).
  apply bind_ok in Hrun as ([] & w2 & H2 & H3).
  apply branch_delete_ok in H1 as (Hne1 & Hb1 & Ht1 & Hh1).
  apply branch_delete_ok in H2 as (Hne2 & Hb2 & Ht2 & Hh2).
  apply checkout_ok in H3 as (_ & Hb3 & Ht3 & _).
  rewrite Hh1 in Hne2. rewrite Hhead in Hne1, Hne2.
  rewrite Hb3, Hb2, Hb1, Ht3, Ht2, Ht1. split; [|done].
  destruct Hb as [->| ->].
  - by rewrite !lookup_delete_ne by apply release_branch_not_master.
  - by rewrite !lookup_delete_ne.
Qed.

(** The [finally] clause after a dry run whose steps have all completed. *)
Lemma finalizer_dry_run_ok (c : context) (mh vh : string) (w w' : world) :
  dry_run c = true → src_branch c ≠ "master" →
  finalizer H c mh vh true w = (Ok tt, w') →
  branches (git w') !! "master" = Some mh ∧
  branches (git w') !! src_branch c = Some vh ∧
  tags (git w') !! release_tag c = None.
Proof.
  intros Hdry Hsrc Hrun. unfold finalizer in Hrun. rewrite Hdry in Hrun.
  cbn [negb] in Hrun.
  apply bind_ok in Hrun as ([] & w3 & Hrun & Hclean).
  apply bind_ok in Hrun as (answer & w1 & _ & Hrun).
  apply bind_ok in Hrun as ([] & w2 & Hreset & Htag).
  apply reset_branches_ok in Hreset as (Hm & Hs & _ & Hh); [|done].
  apply tag_delete_ok in Htag as (Hb3 & Ht3 & Hh3).
  rewrite <- Hh3 in Hh.
  destruct (cleanup_ok c w3 w' "master" Hh (or_introl eq_refl) Hclean)
    as [-> Ht].
  destruct (cleanup_ok c w3 w' (src_branch c) Hh (or_intror eq_refl) Hclean)
    as [-> _].
  rewrite Ht, Ht3, Hb3. by rewrite lookup_delete_eq.
Qed.

Lemma preflight_ok (a : args) (w w' : world) :
  preflight a w = (Ok tt, w') → arg_branch a ≠ "master".
Proof.
  unfold preflight. intros Hrun.
  apply bind_ok in Hrun as ([] & w1 & Hrun & _).
  destruct (String.eqb_spec (arg_branch a) "master"); [discriminate|done].
Qed.

Lemma discover_ok (a : args) (w : world) (c : context) (w' : world) :
  discover H L a w = (Ok c, w') →
  src_branch c = arg_branch a ∧ dry_run c = arg_dryrun a.
Proof.
  unfold discover. intros Hrun.
  repeat (apply bind_ok in Hrun as (? & ? & _ & Hrun)).
  unfold ret in Hrun. by simplify_eq.
Qed.

(** The two revisions that the first [try] records are the heads the two
    branches have when it starts. *)
Lemma baseline_recorded (g : globals) (c : context) (w w' : world)
    (mh vh : string) :
  baseline_and_branches H g c w = (Ok (mh, vh), w') →
  branches (git w) !! "master" = Some mh ∧
  branches (git w) !! src_branch c = Some vh.
Proof.
  unfold baseline_and_branches. intros Hrun.
  apply bind_ok in Hrun as ([] & w1 & H1 & Hrun).
  apply bind_ok in Hrun as (mh' & w2 & H2 & Hrun).
  apply bind_ok in Hrun as ([] & w3 & H3 & Hrun).
  apply bind_ok in Hrun as (vh' & w4 & H4 & Hrun).
  repeat (apply bind_ok in Hrun as (? & ? & _ & Hrun)).
  unfold ret in Hrun. simplify_eq.
  apply checkout_ok in H1 as ([m Hm] & Hb1 & _ & Hh1).
  unfold get_head_hash in H2. simplify_eq.
  apply checkout_ok in H3 as ([v Hv] & Hb3 & _ & Hh3).
  unfold get_head_hash in H4. simplify_eq.
  unfold head_revision. rewrite Hh1, Hh3, Hb3, Hb1, Hm.
  rewrite Hb1 in Hv. rewrite Hv. done.
Qed.

(** C1. In a dry run that completes, the heads of [master] and of the
    source branch are, at the end, the revisions they were on before the
    script started, which are the ones it recorded as its baseline, and the
    tag [v<release version>] does not exist. *)
Theorem dry_run_restores_branches_and_tag (a : args) (w w' : world) :
  arg_dryrun a = true →
  script H L as_string a w = (Ok tt, w') →
  ∃ (g : globals) (c : context) (w0 w1 w2 w3 : world)
    (master_hash version_hash : string),
    module_init H w = (Ok g, w0) ∧
    preflight a w0 = (Ok tt, w1) ∧
    discover H L a w1 = (Ok c, w2) ∧
    baseline_and_branches H g c w2 = (Ok (master_hash, version_hash), w3) ∧
    branches (git w) !! "master" = Some master_hash ∧
    branches (git w) !! arg_branch a = Some version_hash ∧
    branches (git w') !! "master" = Some master_hash ∧
    branches (git w') !! arg_branch a = Some version_hash ∧
    tags (git w') !! ("v" +:+ release_version c) = None.
Proof.
  intros Hdry Hrun. unfold script in Hrun.
  apply bind_ok in Hrun as (g & w0 & Hinit & Hrun).
  unfold main in Hrun. destruct (arg_check a).
  { apply bind_ok in Hrun as (? & ? & _ & Hrun). discriminate. }
  apply bind_ok in Hrun as ([] & w1 & Hpre & Hrun).
  apply bind_ok in Hrun as (c & w2 & Hdisc & Hrun).
  apply bind_ok in Hrun as ([mh vh] & w3 & Hfan & Hrun).
  apply try_except_ok in Hfan as [Hbase|(? & ? & _ & _ & ?)]; [|done].
  apply try_finally_inv in Hrun as (r1 & w4 & r2 & _ & Hfinal & Hr).
  destruct r2 as [[]|]; [subst r1|discriminate]. cbn in Hfinal.
  pose proof (preflight_ok _ _ _ Hpre) as Hsrc.
  destruct (discover_ok _ _ _ _ Hdisc) as [Hbranch Hdry'].
  rewrite Hdry in Hdry'. rewrite <- Hbranch in Hsrc.
  destruct (baseline_recorded _ _ _ _ _ _ Hbase) as [Hm Hv].
  destruct (finalizer_dry_run_ok _ _ _ _ _ Hdry' Hsrc Hfinal)
    as (Hm' & Hv' & Htag).
  destruct (module_init_same_refs _ _ _ Hinit) as [Hb0 _].
  destruct (preflight_same_refs _ _ _ _ Hpre) as [Hb1 _].
  destruct (discover_same_refs _ _ _ _ Hdisc) as [Hb2 _].
  rewrite Hb2, Hb1, Hb0 in Hm, Hv. rewrite Hbranch in Hv, Hv'.
  exists g, c, w0, w1, w2, w3, mh, vh. done.
Qed.

(** *** The exceptions of the primitives *)

Ltac never_raises :=
  intros w e w' Hrun; cbv beta zeta delta
    [env_item env_get input read_text write_text isfile os_remove
     shutil_move mkstemp os_popen smtp_sendmail get_head_hash
     get_current_branch get_github_repository os_system log_plain
     purge_log] in Hrun;
  repeat case_match; by simplify_eq.

Lemma raises_env_item (P : exn → Prop) (name : string) :
  P KeyError → raises P (env_item name).
Proof. intros HP. never_raises. Qed.
Lemma raises_env_get (P : exn → Prop) (name : string) :
  raises P (env_get name).
Proof. never_raises. Qed.
Lemma raises_input (P : exn → Prop) : P EOFError → raises P input.
Proof. intros HP. never_raises. Qed.
Lemma raises_read_text (P : exn → Prop) (path : string) :
  P FileNotFoundError → raises P (read_text path).
Proof. intros HP. never_raises. Qed.
Lemma raises_write_text (P : exn → Prop) (path text : string) :
  raises P (write_text path text).
Proof. never_raises. Qed.
Lemma raises_isfile (P : exn → Prop) (path : string) : raises P (isfile path).
Proof. never_raises. Qed.
Lemma raises_os_remove (P : exn → Prop) (path : string) :
  P FileNotFoundError → raises P (os_remove path).
Proof. intros HP. never_raises. Qed.
Lemma raises_shutil_move (P : exn → Prop) (src dst : string) :
  P FileNotFoundError → raises P (shutil_move src dst).
Proof. intros HP. never_raises. Qed.
Lemma raises_mkstemp (P : exn → Prop) : raises P (mkstemp H).
Proof. never_raises. Qed.
Lemma raises_os_popen (P : exn → Prop) (line : string) :
  raises P (os_popen H line).
Proof. never_raises. Qed.
Lemma raises_smtp_sendmail (P : exn → Prop) (request : smtp_request) :
  P SMTPException → raises P (smtp_sendmail H request).
Proof. intros HP. never_raises. Qed.
Lemma raises_get_head_hash (P : exn → Prop) : raises P get_head_hash.
Proof. never_raises. Qed.
Lemma raises_get_github_repository (P : exn → Prop) (reponame : string) :
  raises P (get_github_repository reponame).
Proof. never_raises. Qed.
Lemma raises_os_system (P : exn → Prop) (c : command) :
  raises P (os_system H c).
Proof. never_raises. Qed.
Lemma raises_log_plain (P : exn → Prop) (entry : log_entry) :
  raises P (log_plain entry).
Proof. never_raises. Qed.
Lemma raises_purge_log (P : exn → Prop) : raises P purge_log.
Proof. never_raises. Qed.

(** An exception that is not [SystemExit]: the interpreter ends with
    status 1. *)
Definition not_exit (e : exn) : Prop := ∀ status, e ≠ SystemExit status.

Ltac raises_primitive :=
  first
    [ apply raises_env_item | apply raises_env_get | apply raises_input
    | apply raises_read_text | apply raises_write_text | apply raises_isfile
    | apply raises_os_remove | apply raises_shutil_move
    | apply raises_mkstemp | apply raises_os_popen
    | apply raises_smtp_sendmail | apply raises_get_head_hash
    | apply raises_get_github_repository | apply raises_os_system
    | apply raises_log_plain | apply raises_purge_log ].

Ltac raises_go :=
  repeat first
    [ apply raises_ret
    | apply raises_raise
    | apply raises_or_raise
    | apply raises_bind; [|intros ?]
    | apply raises_try_except
    | apply raises_try_finally; [|intros ?]
    | apply raises_for_each; intros ?
    | match goal with
      | |- raises _ (if ?b then _ else _) => destruct b
      | |- raises _ (match ?x with _ => _ end) => destruct x
      end
    | raises_primitive
    | progress autounfold with script ].

Ltac raises_side :=
  try solve [ cbv beta; first
    [ reflexivity | intros ?; discriminate | intros _ ?; discriminate
    | cbn; intros; discriminate ] ].

(** *** The commands a phase runs, in their order *)

Lemma run_trace (c : command) (w : world) (r : outcome unit) (w' : world) :
  run H c w = (r, w') → trace w' = trace w ++ [LogRun c].
Proof.
  unfold run, bind, log_plain, os_system, ret, raise. cbn.
  repeat case_match; intros; by simplify_eq.
Qed.

Lemma run_raises (c : command) :
  raises (fun e => e = RuntimeError) (run H c).
Proof. raises_go; raises_side. Qed.

(** Nothing of the repository, of the tracker or of the log has changed. *)
Definition unchanged (w w' : world) : Prop :=
  git w' = git w ∧ tracker w' = tracker w ∧ trace w' = trace w.

Lemma unchanged_refl (w : world) : unchanged w w.
Proof. done. Qed.

Lemma unchanged_trans (w1 w2 w3 : world) :
  unchanged w1 w2 → unchanged w2 w3 → unchanged w1 w3.
Proof. unfold unchanged. intros (? & ? & ?) (? & ? & ?). split_and!; congruence. Qed.

#[local] Hint Extern 1 (frame unchanged ?m) => change (quiet m) : frames.

Lemma quiet_process_file (path : string) (line_callback : string → string) :
  quiet (process_file H path line_callback).
Proof.
  change (frame unchanged (process_file H path line_callback)).
  frame_go unchanged_refl unchanged_trans.
Qed.

Lemma quiet_remove_maven_snapshot (pom release : string) :
  quiet (remove_maven_snapshot H pom release).
Proof.
  change (frame unchanged (remove_maven_snapshot H pom release)).
  frame_go unchanged_refl unchanged_trans.
Qed.

Lemma quiet_update_documentation_in_released_branch
    (readme_file release esversion : string) :
  quiet (update_documentation_in_released_branch H L readme_file release
           esversion).
Proof.
  change (frame unchanged
            (update_documentation_in_released_branch H L readme_file release
               esversion)).
  frame_go unchanged_refl unchanged_trans.
Qed.

(** What [m] has written to the log are the commands of [cs], in their
    order: all of them when [m] completes, and the first [n] of them when
    it raises. With [strict], an [m] that raises has logged one command at
    least: the last one logged is the one that failed. *)
Definition runs_in_order {A} (strict : bool) (cs : list command) (m : Py A)
    : Prop :=
  ∀ w r w', m w = (r, w') →
    ∃ n : nat,
      (n ≤ length cs)%nat ∧
      trace w' = trace w ++ map LogRun (take n cs) ∧
      (is_ok r = true → n = length cs) ∧
      (strict = true → is_ok r = false → (0 < n)%nat).

Lemma runs_ret {A} (strict : bool) (a : A) :
  runs_in_order strict [] (ret a).
Proof.
  intros w r w' [= <- <-]. exists 0%nat. cbn. rewrite app_nil_r.
  by split_and!.
Qed.

Lemma runs_quiet {A} (m : Py A) : quiet m → runs_in_order false [] m.
Proof.
  intros Hq w r w' Hrun. destruct (Hq _ _ _ Hrun) as (_ & _ & Ht).
  exists 0%nat. cbn. rewrite app_nil_r. by split_and!.
Qed.

Lemma runs_get_head_hash (strict : bool) :
  runs_in_order strict [] get_head_hash.
Proof.
  intros w r w' [= <- <-]. exists 0%nat. cbn. rewrite app_nil_r.
  by split_and!.
Qed.

Lemma runs_run (strict : bool) (c : command) :
  runs_in_order strict [c] (run H c).
Proof.
  intros w r w' Hrun. apply run_trace in Hrun. exists 1%nat. cbn.
  split_and!; [lia | done | done | lia].
Qed.

Lemma runs_swallowed (strict : bool) (c : command) :
  runs_in_order strict [c]
    (try_except (run H c) is_RuntimeError (ret tt)).
Proof.
  intros w r w' Hrun. unfold try_except in Hrun.
  destruct (run H c w) as [[[]|e] w1] eqn:Hc.
  - injection Hrun as <- <-. apply run_trace in Hc. exists 1%nat. cbn.
    split_and!; [lia | done | done | lia].
  - rewrite (run_raises _ _ _ _ Hc) in Hrun. cbn in Hrun.
    injection Hrun as <- <-. apply run_trace in Hc. exists 1%nat. cbn.
    split_and!; [lia | done | done | lia].
Qed.

Lemma runs_bind {A B} (strict : bool) (cs1 cs2 : list command)
    (m : Py A) (f : A → Py B) :
  runs_in_order strict cs1 m → (∀ a, runs_in_order strict cs2 (f a)) →
  runs_in_order strict (cs1 ++ cs2) (bind m f).
Proof.
  intros Hm Hf w r w' Hrun.
  apply bind_inv in Hrun as [(a & w1 & Hm1 & Hf1)|(e & Hm1 & ->)].
  - destruct (Hm _ _ _ Hm1) as (n1 & _ & Ht1 & Hn1 & _).
    destruct (Hf _ _ _ _ Hf1) as (n2 & Hle2 & Ht2 & Hn2 & Hs2).
    rewrite (Hn1 eq_refl), take_ge in Ht1 by done.
    exists (length cs1 + n2)%nat. split_and!.
    + rewrite length_app. lia.
    + rewrite take_app_add, map_app, Ht2, Ht1. by rewrite <- app_assoc.
    + intros Hok. by rewrite length_app, (Hn2 Hok).
    + intros Hs Hr. specialize (Hs2 Hs Hr). lia.
  - destruct (Hm _ _ _ Hm1) as (n1 & Hle1 & Ht1 & _ & Hs1).
    exists n1. split_and!.
    + rewrite length_app. lia.
    + by rewrite take_app_le.
    + done.
    + intros Hs _. by apply Hs1.
Qed.

(** *** What the git commands of the script do when they succeed *)

Lemma run_shell_ok (line : string) (w w' : world) :
  run H (Shell line) w = (Ok tt, w') → git w' = git w.
Proof.
  intros Hrun. apply run_ok in Hrun as [fresh Hstep]. cbn in Hstep.
  by injection Hstep.
Qed.

Lemma run_mvn_ok (g : globals) (cmd : list string) (w w' : world) :
  run_mvn H g cmd w = (Ok tt, w') → git w' = git w.
Proof.
  unfold run_mvn. revert w.
  induction cmd as [|c cmd IH]; intros w Hrun; cbn [for_each] in Hrun.
  - by injection Hrun as <-.
  - apply bind_ok in Hrun as ([] & w1 & Hc & Hrun).
    apply run_shell_ok in Hc. apply IH in Hrun. congruence.
Qed.

Lemma run_raise_git (c : command) (w : world) (e : exn) (w' : world) :
  run H c w = (Raise e, w') → git w' = git w.
Proof.
  unfold run, log_plain, os_system, bind, ret, raise. cbn. intros Hrun.
  destruct (exit_ok H (clock w) c); [|by injection Hrun as _ <-].
  destruct (git_step _ c (git w)); [done|]. by injection Hrun as _ <-.
Qed.

Lemma pull_ok (remote branch : string) (w w' : world) :
  run H (GitPullRebase remote branch) w = (Ok tt, w') →
  ∃ fresh, git w' = set_head_revision fresh (git w).
Proof.
  intros Hrun. apply run_ok in Hrun as [fresh Hstep]. cbn in Hstep.
  destruct (head_revision (git w)); [|done]. injection Hstep as <-.
  by exists fresh.
Qed.

Lemma checkout_new_ok (branch : string) (w w' : world) :
  run H (GitCheckoutNew branch) w = (Ok tt, w') →
  branches (git w) !! branch = None ∧
  ∃ h, head_revision (git w) = Some h ∧
       git w' = Repo (<[branch := h]> (branches (git w))) branch
                  (tags (git w)).
Proof.
  intros Hrun. apply run_ok in Hrun as [fresh Hstep]. cbn in Hstep.
  destruct (branches (git w) !! branch); [done|].
  destruct (head_revision (git w)) as [h|]; [|done].
  injection Hstep as <-. split; [done|]. by exists h.
Qed.

Lemma add_ok (file : string) (w w' : world) :
  run H (GitAdd file) w = (Ok tt, w') → git w' = git w.
Proof.
  intros Hrun. apply run_ok in Hrun as [fresh Hstep]. cbn in Hstep.
  by injection Hstep.
Qed.

Lemma commit_ok (message : string) (w w' : world) :
  run H (GitCommit message) w = (Ok tt, w') →
  ∃ fresh, git w' = set_head_revision fresh (git w).
Proof.
  intros Hrun. apply run_ok in Hrun as [fresh Hstep]. cbn in Hstep.
  destruct (head_revision (git w)); [|done]. injection Hstep as <-.
  by exists fresh.
Qed.

Lemma create_release_branch_ok (remote src release : string) (w w' : world) :
  create_release_branch H remote src release w = (Ok tt, w') →
  is_Some (branches (git w) !! src) ∧
  branches (git w) !! release_branch src release = None ∧
  tags (git w') = tags (git w) ∧
  HEAD (git w') = release_branch src release ∧
  ∃ fresh,
    branches (git w')
    = <[release_branch src release := fresh]>
        (<[src := fresh]> (branches (git w))).
Proof.
  intros Hrun. unfold create_release_branch in Hrun.
  apply bind_ok in Hrun as ([] & w1 & Hco & Hrun).
  apply bind_ok in Hrun as ([] & w2 & Hpull & Hnew).
  apply checkout_ok in Hco as (Hsrc & Hb1 & Ht1 & Hh1).
  apply pull_ok in Hpull as (fresh & Hg2).
  apply checkout_new_ok in Hnew as (Hnone & h & Hh & Hg').
  rewrite Hg2 in Hnone, Hh, Hg'.
  unfold head_revision, set_head_revision in Hnone, Hh, Hg'.
  cbn in Hnone, Hh, Hg'. rewrite Hh1, Hb1 in Hnone, Hh, Hg'.
  rewrite Ht1 in Hg'. rewrite lookup_insert_eq in Hh. injection Hh as <-.
  assert (release_branch src release ≠ src) as Hne.
  { intros Heq. by rewrite Heq, lookup_insert_eq in Hnone. }
  rewrite lookup_insert_ne in Hnone by done.
  rewrite Hg'. cbn. split_and!; try done. by exists fresh.
Qed.

(** The first [try], when it completes: the names it deals with are four
    different branches, and the branches are those of before with the two
    pairs set to the revisions the pulls ended on. *)
Lemma baseline_and_branches_ok
    (g : globals) (c : context) (w : world) (hashes : string * string)
    (w' : world) :
  baseline_and_branches H g c w = (Ok hashes, w') →
  let for_master := release_branch "master" (release_version c) in
  let for_source := release_branch (src_branch c) (release_version c) in
  (src_branch c ≠ "master" ∧ src_branch c ≠ for_master ∧
   for_source ≠ for_master ∧ for_source ≠ src_branch c) ∧
  branches (git w) !! for_master = None ∧
  branches (git w) !! for_source = None ∧
  HEAD (git w') = for_source ∧
  tags (git w') = tags (git w) ∧
  ∃ master_head source_head,
    branches (git w')
    = <[for_source := source_head]>
        (<[src_branch c := source_head]>
           (<[for_master := master_head]>
              (<["master" := master_head]> (branches (git w))))).
Proof.
  intros Hrun for_master for_source. unfold baseline_and_branches in Hrun.
  apply bind_ok in Hrun as ([] & w1 & Hcm & Hrun).
  apply bind_ok in Hrun as (mh & w2 & Hmh & Hrun).
  apply bind_ok in Hrun as ([] & w3 & Hcs & Hrun).
  apply bind_ok in Hrun as (vh & w4 & Hvh & Hrun).
  apply bind_ok in Hrun as ([] & w5 & Hmvn & Hrun).
  apply bind_ok in Hrun as ([] & w6 & Hc1 & Hrun).
  apply bind_ok in Hrun as ([] & w7 & Hc2 & Hrun).
  injection Hrun as _ <-.
  injection Hmh as _ <-. injection Hvh as _ <-.
  apply checkout_ok in Hcm as (_ & Hb1 & Ht1 & _).
  apply checkout_ok in Hcs as (Hsrc & Hb3 & Ht3 & _).
  apply run_mvn_ok in Hmvn.
  apply create_release_branch_ok in Hc1
    as (_ & Hnone1 & Ht6 & _ & f1 & Hb6).
  apply create_release_branch_ok in Hc2
    as (_ & Hnone2 & Ht7 & Hhead & f2 & Hb7).
  fold for_master in Hnone1, Hb6. fold for_source in Hnone2, Hb7, Hhead.
  rewrite Hmvn, Hb3, Hb1 in Hnone1, Hb6. rewrite Hb1 in Hsrc.
  rewrite Hb6 in Hnone2, Hb7.
  assert (for_master ≠ "master") as Hm1 by apply release_branch_not_master.
  assert (for_source ≠ "master") as Hm2 by apply release_branch_not_master.
  assert (for_source ≠ for_master) as Hne.
  { intros Heq. by rewrite Heq, lookup_insert_eq in Hnone2. }
  assert (src_branch c ≠ "master") as Hsm.
  { intros Heq. apply Hne. unfold for_source, for_master. by rewrite Heq. }
  assert (src_branch c ≠ for_master) as Hsf.
  { intros Heq. rewrite Heq, Hnone1 in Hsrc. by destruct Hsrc. }
  assert (for_source ≠ src_branch c) as Hfs.
  { intros Heq. apply (f_equal String.length) in Heq.
    unfold for_source, release_branch in Heq.
    rewrite !StrFacts.length_app in Heq. cbn in Heq. lia. }
  rewrite !lookup_insert_ne in Hnone2 by done.
  split_and!; try done.
  - congruence.
  - by exists f1, f2.
Qed.

Lemma cleanup_removes (c : context) (w w' : world) :
  cleanup H c w = (Ok tt, w') →
  branches (git w')
  = delete (release_branch (src_branch c) (release_version c))
      (delete (release_branch "master" (release_version c))
         (branches (git w))) ∧
  tags (git w') = tags (git w) ∧ HEAD (git w') = src_branch c.
Proof.
  intros Hrun. unfold cleanup in Hrun.
  apply bind_ok in Hrun as ([] & w1 & Hd1 & Hrun).
  apply bind_ok in Hrun as ([] & w2 & Hd2 & Hco).
  apply branch_delete_ok in Hd1 as (_ & Hb1 & Ht1 & _).
  apply branch_delete_ok in Hd2 as (_ & Hb2 & Ht2 & _).
  apply checkout_ok in Hco as (_ & Hb3 & Ht3 & Hhead).
  split_and!; [|congruence|done]. by rewrite Hb3, Hb2, Hb1.
Qed.

(** The [finally] clause after a failure, when it completes. *)
Lemma finalizer_failure_ok (c : context) (master_hash version_hash : string)
    (w w' : world) :
  src_branch c ≠ "master" →
  finalizer H c master_hash version_hash false w = (Ok tt, w') →
  branches (git w') !! "master" = Some master_hash ∧
  branches (git w') !! src_branch c = Some version_hash ∧
  (tags (git w') = tags (git w)
   ∨ tags (git w') = delete (release_tag c) (tags (git w))) ∧
  branches (git w') !! release_branch "master" (release_version c) = None ∧
  branches (git w') !! release_branch (src_branch c) (release_version c)
  = None ∧
  HEAD (git w') = src_branch c.
Proof.
  intros Hsrc Hfinal.
  unfold finalizer in Hfinal. cbn [negb] in Hfinal.
  apply bind_ok in Hfinal as ([] & w2 & Hundo & Hclean).
  apply bind_ok in Hundo as ([] & w3 & Hreset & Htag).
  apply reset_branches_ok in Hreset as (Hm & Hs & Ht3 & Hhead); [|done].
  assert (branches (git w2) = branches (git w3) ∧ HEAD (git w2) = HEAD (git w3)
          ∧ (tags (git w2) = tags (git w3)
             ∨ tags (git w2) = delete (release_tag c) (tags (git w3))))
    as (Hb2 & Hh2 & Ht2).
  { apply try_except_ok in Htag as [Hdel|(e' & w4 & Hfail & _ & Hret)].
    - apply tag_delete_ok in Hdel as (? & ? & ?). split_and!; try done.
      by right.
    - injection Hret as <-. apply run_raise_git in Hfail.
      rewrite Hfail. split_and!; try done. by left. }
  rewrite <- Hh2 in Hhead. rewrite <- Hb2 in Hm, Hs.
  pose proof (cleanup_ok c w2 w' "master" Hhead (or_introl eq_refl) Hclean)
    as [Hm' Ht'].
  pose proof (cleanup_ok c w2 w' (src_branch c) Hhead (or_intror eq_refl)
                Hclean) as [Hs' _].
  apply cleanup_removes in Hclean as (Hb & _ & Hhead').
  split_and!.
  - by rewrite Hm'.
  - by rewrite Hs'.
  - by rewrite Ht', <- Ht3.
  - rewrite Hb.
    destruct (decide (release_branch (src_branch c) (release_version c)
                      = release_branch "master" (release_version c)))
      as [->|Hne].
    + by rewrite lookup_delete_eq.
    + rewrite lookup_delete_ne by done. by rewrite lookup_delete_eq.
  - by rewrite Hb, lookup_delete_eq.
  - done.
Qed.

(** *** C2: a failure while the release branches are created *)

(** The commands of the first [try], in the order of the source. *)
Definition fan_out_commands (g : globals) (c : context) : list command :=
  [GitCheckout "master";
   GitCheckout (src_branch c);
   Shell (java_exe g +:+ "; " +:+ MVN g +:+ " -f " +:+ POM_FILE H +:+ " "
          +:+ "clean");
   GitCheckout "master";
   GitPullRebase (remote c) "master";
   GitCheckoutNew (release_branch "master" (release_version c));
   GitCheckout (src_branch c);
   GitPullRebase (remote c) (src_branch c);
   GitCheckoutNew (release_branch (src_branch c) (release_version c))].

(** The commands that undo a release: a reset, and the deletion of a tag
    or of a branch. *)
Definition rolls_back (c : command) : bool :=
  match c with
  | GitResetHard _ | GitTagDelete _ | GitBranchDelete _ => true
  | _ => false
  end.

Lemma create_release_branch_runs (strict : bool)
    (remote src release : string) :
  runs_in_order strict
    [GitCheckout src; GitPullRebase remote src;
     GitCheckoutNew (release_branch src release)]
    (create_release_branch H remote src release).
Proof.
  unfold create_release_branch, git_checkout.
  apply (runs_bind _ [_] [_; _]); [apply runs_run | intros _].
  apply (runs_bind _ [_] [_]); [apply runs_run | intros _].
  apply runs_run.
Qed.

Lemma baseline_runs (g : globals) (c : context) :
  runs_in_order true (fan_out_commands g c) (baseline_and_branches H g c).
Proof.
  unfold baseline_and_branches, fan_out_commands, git_checkout, run_mvn.
  cbn [for_each].
  apply (runs_bind _ [_] (_ :: _)); [apply runs_run | intros _].
  apply (runs_bind _ [] (_ :: _)); [apply runs_get_head_hash | intros ?].
  apply (runs_bind _ [_] (_ :: _)); [apply runs_run | intros _].
  apply (runs_bind _ [] (_ :: _)); [apply runs_get_head_hash | intros ?].
  apply (runs_bind _ [_] (_ :: _)).
  { apply (runs_bind _ [_] []); [apply runs_run | intros _].
    apply runs_ret. }
  intros _.
  apply (runs_bind _ [_; _; _] (_ :: _));
    [apply create_release_branch_runs | intros _].
  apply (runs_bind _ [_; _; _] []);
    [apply create_release_branch_runs | intros _].
  apply runs_ret.
Qed.

Lemma baseline_raises (g : globals) (c : context) :
  raises (fun e => e = RuntimeError) (baseline_and_branches H g c).
Proof. raises_go; raises_side. Qed.

(** C2, as the code has it. When a step of the first [try] fails, be it
    the creation of either release branch, the handler of that [try] calls
    [sys.exit(-1)] and the process ends with status 255, in the world the
    failure left: the second [try] and its [finally] are never entered.
    What was run since the pom was read are the first commands of the
    first [try], in their order and up to the one that failed: checkouts,
    the Maven clean, [git pull --rebase] and [git checkout -b]; none of
    them is a reset or the deletion of a tag or of a branch. *)
Theorem branch_creation_failure_exits_without_rollback
    (g : globals) (a : args) (c : context) (w w0 w1 w2 : world) (e : exn) :
  arg_check a = false →
  preflight a w = (Ok tt, w0) →
  discover H L a w0 = (Ok c, w1) →
  baseline_and_branches H g c w1 = (Raise e, w2) →
  main H L as_string g a w = (Raise (SystemExit (-1)), w2) ∧
  exit_status (fst (main H L as_string g a w)) = 255%Z ∧
  ∃ n : nat,
    (0 < n)%nat ∧ (n ≤ length (fan_out_commands g c))%nat ∧
    trace w2 = trace w1 ++ map LogRun (take n (fan_out_commands g c)) ∧
    Forall (fun k => rolls_back k = false) (take n (fan_out_commands g c)).
Proof.
  intros Hcheck Hpre Hdisc Hbase.
  pose proof (baseline_raises _ _ _ _ _ Hbase) as ->.
  assert (main H L as_string g a w = (Raise (SystemExit (-1)), w2)) as Hmain.
  { unfold main. rewrite Hcheck.
    rewrite (bind_step _ _ _ _ _ Hpre), (bind_step _ _ _ _ _ Hdisc).
    apply bind_raise. unfold fan_out, try_except. by rewrite Hbase. }
  split; [done|]. split; [by rewrite Hmain|].
  destruct (baseline_runs _ _ _ _ _ Hbase) as (n & Hle & Ht & _ & Hs).
  exists n. split_and!; [by apply Hs | done | done |].
  apply Forall_take. unfold fan_out_commands. by repeat constructor.
Qed.

(** *** C3: an open issue at the gate check *)

(** The log entries that are not a build, an upload or any other tool:
    git commands and messages. *)
Definition git_entry (e : log_entry) : bool :=
  match e with
  | LogRun c => is_git c
  | LogMsg _ => true
  end.

(** An issue that is open and labelled with the version. *)
Definition has_open_issue (version : string) (issues : list issue) : bool :=
  existsb (fun i => is_open i && bool_decide (version ∈ labels i)) issues.

Lemma existsb_pointwise {A} (f g : A → bool) (l : list A) :
  (∀ a, f a = g a) → existsb f l = existsb g l.
Proof. intros Hfg. induction l as [|a l IH]; [done|]. cbn. by rewrite Hfg, IH. Qed.

Lemma filter_nonempty {A} (f : A → bool) (l : list A) :
  existsb f l = true → List.filter f l ≠ [].
Proof.
  induction l as [|a l IH]; [done|]. cbn.
  destruct (f a); [done|]. exact IH.
Qed.

Lemma gate_check_open (c : context) (w : world) (issues : list issue) :
  tracker w !! artifact_id c = Some issues →
  has_open_issue (release_version c) issues = true →
  gate_check c w = (Raise NameError, w).
Proof.
  intros Htracker Hopen.
  unfold gate_check, get_github_repository, check_opened_issues, iter_issues,
    bind, ret.
  rewrite Htracker.
  pose proof (filter_nonempty
    (fun i => Bool.eqb (is_open i) true && has_labels [release_version c] i)
    issues) as Hne.
  destruct (List.filter _ issues); [|done].
  exfalso. apply Hne; [|done].
  unfold has_open_issue in Hopen.
  erewrite existsb_pointwise; [exact Hopen|].
  intros i. unfold has_labels. cbn.
  by destruct (is_open i); cbn; rewrite ?andb_true_r.
Qed.

Lemma version_bump_grows (c : context) :
  frame (grows git_entry) (version_bump H L c).
Proof. frame_go (grows_refl git_entry) (grows_trans git_entry). Qed.

Lemma version_bump_same_tracker (c : context) :
  frame same_tracker (version_bump H L c).
Proof. frame_go same_tracker_refl same_tracker_trans. Qed.

Lemma finalizer_grows (c : context) (mh vh : string) (success : bool) :
  frame (grows git_entry) (finalizer H c mh vh success).
Proof. frame_go (grows_refl git_entry) (grows_trans git_entry). Qed.

Lemma finalizer_raises (c : context) (mh vh : string) (success : bool) :
  raises not_exit (finalizer H c mh vh success).
Proof. raises_go; raises_side. Qed.

Lemma release_steps_raises (g : globals) (c : context) :
  raises not_exit (release_steps H L as_string g c).
Proof. raises_go; raises_side. Qed.

Lemma exit_status_not_exit {A} (e : exn) :
  not_exit e → exit_status (A := A) (Raise e) = 1%Z.
Proof. intros He. destruct e; try done. by destruct (He status). Qed.

(** With an open issue the body of the second [try] never completes, and
    it stops at the gate check at the latest. *)
Lemma release_steps_stopped (g : globals) (c : context) (w : world)
    (issues : list issue) (r : outcome unit) (w' : world) :
  tracker w !! artifact_id c = Some issues →
  has_open_issue (release_version c) issues = true →
  release_steps H L as_string g c w = (r, w') →
  (∃ e, r = Raise e ∧ not_exit e) ∧ grows git_entry w w'.
Proof.
  intros Htracker Hopen Hrun.
  assert ((∃ e, r = Raise e) ∧ grows git_entry w w') as [[e ->] Hgrows].
  { unfold release_steps in Hrun.
    apply bind_inv in Hrun as [([] & w1 & H1 & Hrun)|(e & H1 & ->)].
    2:{ split; [eauto|]. by eapply version_bump_grows. }
    pose proof (version_bump_grows _ _ _ _ H1) as Hg1.
    pose proof (version_bump_same_tracker _ _ _ _ H1) as Ht1.
    apply bind_inv in Hrun as [(answer & w2 & H2 & Hrun)|(e & H2 & ->)].
    2:{ split; [eauto|]. eapply grows_trans; [done|].
        by eapply (quiet_grows _ _ quiet_input). }
    pose proof (quiet_grows git_entry _ quiet_input _ _ _ H2) as Hg2.
    pose proof (quiet_same_tracker _ quiet_input _ _ _ H2) as Ht2.
    assert (gate_check c w2 = (Raise NameError, w2)) as Hgate.
    { eapply gate_check_open; [|done].
      unfold same_tracker in Ht1, Ht2. by rewrite Ht2, Ht1. }
    rewrite (bind_raise _ _ _ _ _ Hgate) in Hrun. injection Hrun as <- <-.
    split; [eauto|]. by eapply grows_trans. }
  split; [|done]. exists e. split; [done|].
  by eapply release_steps_raises.
Qed.

(** The commands the [finally] clause runs after a failure. *)
Definition rollback_commands (c : context) (master_hash version_hash : string)
    : list command :=
  [GitCheckout "master";
   GitResetHard master_hash;
   GitCheckout (src_branch c);
   GitResetHard version_hash;
   GitTagDelete (release_tag c);
   GitBranchDelete (release_branch "master" (release_version c));
   GitBranchDelete (release_branch (src_branch c) (release_version c));
   GitCheckout (src_branch c)].

Lemma finalizer_failure_runs (c : context)
    (master_hash version_hash : string) :
  runs_in_order true (rollback_commands c master_hash version_hash)
    (finalizer H c master_hash version_hash false).
Proof.
  unfold finalizer, rollback_commands, reset_branches, cleanup, git_checkout.
  cbn [negb].
  apply (runs_bind _ [_; _; _; _; _] [_; _; _]).
  - apply (runs_bind _ [_; _; _; _] [_]).
    + apply (runs_bind _ [_] [_; _; _]); [apply runs_run | intros _].
      apply (runs_bind _ [_] [_; _]); [apply runs_run | intros _].
      apply (runs_bind _ [_] [_]); [apply runs_run | intros _].
      apply runs_run.
    + intros _. apply runs_swallowed.
  - intros _.
    apply (runs_bind _ [_] [_; _]); [apply runs_run | intros _].
    apply (runs_bind _ [_] [_]); [apply runs_run | intros _].
    apply runs_run.
Qed.

(** The commands of the version bump: the two files are staged, then
    committed. *)
Definition version_bump_commands (c : context) : list command :=
  [GitAdd (POM_FILE H);
   GitAdd (README_FILE H);
   GitCommit ("prepare release " +:+ artifact_id c +:+ "-"
              +:+ release_version c)].

Lemma version_bump_runs (c : context) :
  runs_in_order false (version_bump_commands c) (version_bump H L c).
Proof.
  unfold version_bump, version_bump_commands, add_pending_files,
    pending_files, commit_release.
  cbn [for_each].
  apply (runs_bind _ [] [_; _; _]);
    [apply runs_quiet, quiet_remove_maven_snapshot | intros _].
  apply (runs_bind _ [] [_; _; _]);
    [apply runs_quiet, quiet_update_documentation_in_released_branch
    | intros _].
  apply (runs_bind _ [_; _] [_]).
  - apply (runs_bind _ [_] [_]); [apply runs_run | intros _].
    apply (runs_bind _ [_] []); [apply runs_run | intros _].
    apply runs_ret.
  - intros _. apply runs_run.
Qed.

(** The version bump moves the branch that is checked out, and no
    other. *)
Lemma version_bump_ok (c : context) (w w' : world) :
  version_bump H L c w = (Ok tt, w') →
  ∃ fresh, git w' = set_head_revision fresh (git w).
Proof.
  unfold version_bump, add_pending_files, pending_files, commit_release.
  cbn [for_each]. intros Hrun.
  apply bind_ok in Hrun as ([] & w1 & H1 & Hrun).
  apply bind_ok in Hrun as ([] & w2 & H2 & Hrun).
  apply bind_ok in Hrun as ([] & w3 & H3 & H4).
  apply bind_ok in H3 as ([] & w4 & Ha1 & H3).
  apply bind_ok in H3 as ([] & w5 & Ha2 & H3).
  injection H3 as <-.
  apply quiet_remove_maven_snapshot in H1 as (Hg1 & _).
  apply quiet_update_documentation_in_released_branch in H2 as (Hg2 & _).
  apply add_ok in Ha1, Ha2.
  apply commit_ok in H4 as (fresh & Hg). exists fresh.
  rewrite Hg. congruence.
Qed.


(** *** C9: the check mode *)

Lemma check_env_var_ok (text env_var : string) (w : world) :
  check_env_var text env_var w = (Ok tt, w).
Proof.
  unfold check_env_var, try_except, bind, env_item, ret.
  by destruct (env w !! env_var).
Qed.

Lemma run_and_print_ok (text : string) (run_function : Py unit) (w : world) :
  raises (fun e => e = RuntimeError) run_function →
  ∃ w', run_and_print text run_function w = (Ok tt, w').
Proof.
  intros Hraises. unfold run_and_print, try_except, ret.
  destruct (run_function w) as [[[]|e] w1] eqn:Hrun; [eauto|].
  rewrite (Hraises _ _ _ Hrun). eauto.
Qed.

Lemma check_command_exists_raises (name cmd : string) :
  raises (fun e => e = RuntimeError) (check_command_exists H name cmd).
Proof. raises_go; raises_side. Qed.

Lemma verify_java_version_raises (g : globals) (version : string) :
  raises (fun e => e = RuntimeError) (verify_java_version H g version).
Proof. raises_go; raises_side. Qed.

Lemma verify_mvn_java_version_raises (g : globals) (version mvn : string) :
  raises (fun e => e = RuntimeError) (verify_mvn_java_version H g version mvn).
Proof. raises_go; raises_side. Qed.

(** The diagnostics of the check mode always complete. *)
Lemma check_environment_ok (g : globals) (w : world) :
  ∃ w', check_environment_and_commandline_tools H g w = (Ok tt, w').
Proof.
  unfold check_environment_and_commandline_tools.
  rewrite !(bind_step _ _ _ _ _ (check_env_var_ok _ _ _)).
  repeat
    (match goal with
     | |- ∃ w', bind (run_and_print ?t ?f) _ ?w = _ =>
         let w1 := fresh "w" in
         let Hw := fresh "Hw" in
         destruct (run_and_print_ok t f w) as [w1 Hw];
         [auto using check_command_exists_raises, verify_java_version_raises,
            verify_mvn_java_version_raises
         | rewrite (bind_step _ _ _ _ _ Hw) ]
     end).
  apply run_and_print_ok. apply verify_mvn_java_version_raises.
Qed.

(** C9, as the code has it. Once the module is loaded, the check mode ends
    with status 0 whatever its diagnostics find. Loading the module comes
    first and can fail: it needs [JAVA_HOME] and the two email
    templates. *)
Theorem check_mode_exits_zero_once_loaded
    (a : args) (w : world) (g : globals) (w0 : world) :
  arg_check a = true →
  module_init H w = (Ok g, w0) →
  ∃ w', script H L as_string a w = (Raise (SystemExit 0), w') ∧
        exit_status (fst (script H L as_string a w)) = 0%Z.
Proof.
  intros Hcheck Hinit.
  destruct (check_environment_ok g w0) as [w' Hw'].
  exists w'.
  assert (script H L as_string a w = (Raise (SystemExit 0), w')) as Hrun.
  { unfold script. rewrite (bind_step _ _ _ _ _ Hinit).
    unfold main. rewrite Hcheck. by rewrite (bind_step _ _ _ _ _ Hw'). }
  by rewrite Hrun.
Qed.

End Orchestration.


(** ** The claims on the sample machine *)

Module Scenarios.

Import Sample.

(** A run is its outcome and the world it ends in. *)
Lemma run_eta {A} (p : outcome A * world) (r : outcome A) :
  fst p = r → p = (r, snd p).
Proof. destruct p. cbn. by intros ->. Qed.

(** An equation between small values is decided by evaluation; for a run,
    only its outcome is evaluated. *)
Ltac by_vm :=
  lazymatch goal with
  | |- ?p = (?r, _) => refine (run_eta p r _); vm_compute; reflexivity
  | |- _ => vm_compute; reflexivity
  end.

Lemma dry_run_restores_branches_and_tag_witness :
  arg_dryrun dry = true ∧
  branches (git (snd (run_script dry (start [closed_bug])))) !! "master"
  = branches (git (start [closed_bug])) !! "master" ∧
  branches (git (snd (run_script dry (start [closed_bug])))) !! "es-1.3"
  = branches (git (start [closed_bug])) !! "es-1.3".
Proof.
  split; [reflexivity|].
  destruct (dry_run_restores_branches_and_tag machine lib as_string dry
              (start [closed_bug])
              (snd (run_script dry (start [closed_bug]))))
    as (g & c & w0 & w1 & w2 & w3 & mh & vh & _ & _ & _ & _
        & Hm & Hv & Hm' & Hv' & _).
  - reflexivity.
  - by_vm.
  - split; (etrans; [eassumption | symmetry; eassumption]).
Defined.

(** C2, as stated, fails. The release branch of the source branch exists
    already, so its creation fails: the script exits with status -1, and no
    reset and no deletion was run. [master], which [git pull --rebase] has
    moved, stays where it is, and so does the release branch made from
    it. *)
Lemma branch_creation_failure_is_not_rolled_back :
  fst (run_script dry start_branch_taken) = Raise (SystemExit (-1)) ∧
  In (LogRun (GitCheckoutNew "release_branch_es-1.3_2.5.0"))
    (trace (snd (run_script dry start_branch_taken))) ∧
  existsb undoes (trace (snd (run_script dry start_branch_taken))) = false ∧
  branches (git start_branch_taken) !! "master" = Some "m0" ∧
  branches (git (snd (run_script dry start_branch_taken))) !! "master"
  = Some "rev6" ∧
  branches (git (snd (run_script dry start_branch_taken)))
    !! "release_branch_master_2.5.0" = Some "rev6".
Proof.
  split; [by_vm|]. split; [vm_compute; auto 30|].
  split; [by_vm|]. split; [by_vm|]. split; by_vm.
Qed.

Lemma branch_creation_failure_exits_without_rollback_witness :
  exit_status
    (fst (main machine lib as_string loaded dry (at_main start_branch_taken)))
  = 255%Z ∧
  ∃ n : nat,
    (0 < n)%nat ∧
    (n ≤ length (fan_out_commands machine loaded
                   (found start_branch_taken)))%nat ∧
    trace (snd (baseline_and_branches machine loaded
                  (found start_branch_taken) (at_fan_out start_branch_taken)))
    = trace (at_fan_out start_branch_taken)
      ++ map LogRun (take n (fan_out_commands machine loaded
                               (found start_branch_taken))) ∧
    Forall (fun k => rolls_back k = false)
      (take n (fan_out_commands machine loaded (found start_branch_taken))).
Proof.
  refine (proj2 (branch_creation_failure_exits_without_rollback
    machine lib as_string loaded dry (found start_branch_taken)
    (at_main start_branch_taken) (at_discover start_branch_taken)
    (at_fan_out start_branch_taken)
    (snd (baseline_and_branches machine loaded (found start_branch_taken)
            (at_fan_out start_branch_taken)))
    RuntimeError _ _ _ _)).
  - reflexivity.
  - by_vm.
  - by_vm.
  - by_vm.
Defined.



(** C9, as stated, fails. Without [JAVA_HOME] the module does not load:
    the check mode ends with [RuntimeError] and status 1 before any
    diagnostic runs. *)
Lemma check_mode_needs_java_home :
  arg_check check = true ∧
  env start_without_java !! "JAVA_HOME" = None ∧
  fst (run_script check start_without_java) = Raise RuntimeError ∧
  exit_status (fst (run_script check start_without_java)) = 1%Z.
Proof. split; [reflexivity|]. split; [by_vm|]. split; by_vm. Qed.

Lemma check_mode_exits_zero_once_loaded_witness :
  exit_status (fst (run_script check (start []))) = 0%Z.
Proof.
  destruct (check_mode_exits_zero_once_loaded machine lib as_string check
              (start []) loaded (at_main (start [])))
    as (w' & _ & Hexit).
  - reflexivity.
  - by_vm.
  - exact Hexit.
Defined.

End Scenarios.

(** * Further properties of the script *)

(** ** Version utilities at their edges *)

Module VersionEdges.

Import Str StrFacts VersionFacts.

(** [guess_snapshot] raises [IndexError] exactly when the version has
    fewer than three runs of digits. *)
Theorem guess_snapshot_fails_iff_short (version : string) :
  guess_snapshot version = None
  ↔ (length (split_version_to_digits version) < 3)%nat.
Proof.
  unfold guess_snapshot.
  destruct (split_version_to_digits version) as [|a [|b [|c l]]]; cbn;
    split; intros; (done || lia).
Qed.

(** [get_doc_anchor] raises [IndexError] exactly when the release version
    has fewer than three runs of digits or the dependency version fewer
    than two. *)
Theorem get_doc_anchor_fails_iff_short (release esversion : string) :
  get_doc_anchor release esversion = None
  ↔ (length (split_version_to_digits release) < 3)%nat
    ∨ (length (split_version_to_digits esversion) < 2)%nat.
Proof.
  unfold get_doc_anchor.
  destruct (split_version_to_digits release) as [|a [|b [|c l]]];
    destruct (split_version_to_digits esversion) as [|x [|y m]]; cbn;
    split; intros; try done; try lia; try (left; lia); try (right; lia);
    destruct H as [?|?]; lia.
Qed.

(** When the first three components, printed as [x.y.z], do not occur in
    the version (a component has a leading zero, or the separators are not
    dots), the guess is the version itself: nothing is incremented. *)
Theorem guess_snapshot_unchanged_when_not_canonical
    (version : string) (d0 d1 d2 : N) (ds : list N) :
  split_version_to_digits version = d0 :: d1 :: d2 :: ds →
  contains (dotted d0 d1 d2) version = false →
  guess_snapshot version = Some version.
Proof.
  intros Hsplit Habsent. unfold guess_snapshot. rewrite Hsplit. cbn.
  f_equal. apply replace_absent; [apply dotted_nonempty | done].
Qed.

Lemma guess_snapshot_unchanged_when_not_canonical_witness :
  guess_snapshot "2.05.0" = Some "2.05.0".
Proof.
  apply (guess_snapshot_unchanged_when_not_canonical "2.05.0" 2 5 0 []);
    reflexivity.
Defined.

(** On the release version as [find_release_version] hands it over, three
    integers and no suffix, the default next snapshot is the next patch
    version. *)
Theorem guess_snapshot_of_release (x y z : N) :
  guess_snapshot (dotted x y z) = Some (dotted x y (z + 1)).
Proof.
  rewrite <- (app_nil_r (dotted x y z)) at 1.
  rewrite guess_dotted by done.
  destruct (dotted_head x y z) as (c & s & Hd & _).
  rewrite replace_absent; [by rewrite app_nil_r | apply dotted_nonempty |].
  by rewrite Hd.
Qed.

(** The name of a release branch tells the version once the source branch
    is known, and it is never [master] nor the source branch itself. *)
Theorem release_branch_separates_versions (branch v1 v2 : string) :
  (release_branch branch v1 = release_branch branch v2 → v1 = v2) ∧
  release_branch branch v1 ≠ "master" ∧
  release_branch branch v1 ≠ branch.
Proof.
  split; [|split].
  - unfold release_branch. intros Heq.
    apply (inj (String.append "release_branch_")) in Heq.
    apply (inj (String.append branch)) in Heq.
    by apply (inj (String.append "_")) in Heq.
  - done.
  - intros Heq. apply (f_equal String.length) in Heq.
    unfold release_branch in Heq. rewrite !length_app in Heq. cbn in Heq. lia.
Qed.

End VersionEdges.

(** ** The helpers and the phases of the script *)

(** The tags are the same. *)
Definition same_tags (w w' : world) : Prop := tags (git w') = tags (git w).

(** Nothing more was handed to the mail server. *)
Definition same_outbox (w w' : world) : Prop := outbox w' = outbox w.

(** The commands that create and delete no tag. *)
Definition moves_no_tag (c : command) : bool :=
  match c with
  | GitTag _ _ | GitTagDelete _ => false
  | _ => true
  end.

(** The log entries of a run that stays on this machine: no push, and no
    command that starts the upload tool. *)
Definition local_only (e : log_entry) : bool :=
  match e with
  | LogRun (GitPush _ _) => false
  | LogRun (Shell line) => negb (Str.startswith "python " line)
  | _ => true
  end.

Lemma same_tags_refl (w : world) : same_tags w w.
Proof. done. Qed.

Lemma same_tags_trans (w1 w2 w3 : world) :
  same_tags w1 w2 → same_tags w2 w3 → same_tags w1 w3.
Proof. unfold same_tags. congruence. Qed.

Lemma same_outbox_refl (w : world) : same_outbox w w.
Proof. done. Qed.

Lemma same_outbox_trans (w1 w2 w3 : world) :
  same_outbox w1 w2 → same_outbox w2 w3 → same_outbox w1 w3.
Proof. unfold same_outbox. congruence. Qed.

Lemma quiet_same_tags {A} (m : Py A) : quiet m → frame same_tags m.
Proof.
  intros Hq w r w' Hrun. destruct (Hq _ _ _ Hrun) as (Hg & _).
  unfold same_tags. by rewrite Hg.
Qed.

(** A step whose continuation is looked at only for the values the step
    can return. *)
Lemma frame_bind_ok {A B} (T : world → world → Prop)
    (T_trans : ∀ w1 w2 w3, T w1 w2 → T w2 w3 → T w1 w3)
    (m : Py A) (f : A → Py B) :
  frame T m → (∀ a w w1, m w = (Ok a, w1) → frame T (f a)) →
  frame T (bind m f).
Proof.
  intros Hm Hf w r w' Hrun.
  apply bind_inv in Hrun as [(a & w1 & Hm1 & Hf1)|(e & Hm1 & _)].
  - eapply T_trans; [by eapply Hm | by eapply Hf].
  - by eapply Hm.
Qed.

Section Further.

Variable H : host.
Variable L : pylib.
Variable as_string : email → string.

Ltac primitive2 :=
  intros w r w' Hrun; cbv beta zeta delta
    [env_item env_get input read_text write_text isfile os_remove
     shutil_move mkstemp os_popen smtp_sendmail get_head_hash
     get_current_branch get_github_repository os_system log_plain
     purge_log] in Hrun;
  repeat case_match; simplify_eq; cbn; try done.

Lemma os_system_same_tags (c : command) :
  moves_no_tag c = true → frame same_tags (os_system H c).
Proof.
  intros Hc w r w' Hrun. unfold os_system in Hrun.
  repeat case_match; simplify_eq; try done.
  unfold same_tags. cbn. destruct c; try done; cbn in *;
    repeat case_match; by simplify_eq.
Qed.

Lemma log_plain_same_tags (entry : log_entry) :
  frame same_tags (log_plain entry).
Proof. primitive2. Qed.

Lemma same_outbox_env_item (name : string) : frame same_outbox (env_item name).
Proof. primitive2. Qed.
Lemma same_outbox_env_get (name : string) : frame same_outbox (env_get name).
Proof. primitive2. Qed.
Lemma same_outbox_input : frame same_outbox input.
Proof. primitive2. Qed.
Lemma same_outbox_read_text (path : string) :
  frame same_outbox (read_text path).
Proof. primitive2. Qed.
Lemma same_outbox_write_text (path text : string) :
  frame same_outbox (write_text path text).
Proof. primitive2. Qed.
Lemma same_outbox_isfile (path : string) : frame same_outbox (isfile path).
Proof. primitive2. Qed.
Lemma same_outbox_os_remove (path : string) :
  frame same_outbox (os_remove path).
Proof. primitive2. Qed.
Lemma same_outbox_shutil_move (src dst : string) :
  frame same_outbox (shutil_move src dst).
Proof. primitive2. Qed.
Lemma same_outbox_mkstemp : frame same_outbox (mkstemp H).
Proof. primitive2. Qed.
Lemma same_outbox_os_popen (line : string) :
  frame same_outbox (os_popen H line).
Proof. primitive2. Qed.
Lemma same_outbox_get_head_hash : frame same_outbox get_head_hash.
Proof. primitive2. Qed.
Lemma same_outbox_get_github_repository (reponame : string) :
  frame same_outbox (get_github_repository reponame).
Proof. primitive2. Qed.
Lemma same_outbox_os_system (c : command) : frame same_outbox (os_system H c).
Proof. primitive2. Qed.
Lemma same_outbox_log_plain (entry : log_entry) :
  frame same_outbox (log_plain entry).
Proof. primitive2. Qed.
Lemma same_outbox_purge_log : frame same_outbox purge_log.
Proof. primitive2. Qed.

Create HintDb frames2 discriminated.
Create HintDb script2 discriminated.

#[local] Hint Resolve quiet_same_refs quiet_same_tracker quiet_grows
  quiet_same_tags : frames2.
#[local] Hint Resolve quiet_env_item quiet_env_get quiet_input quiet_read_text
  quiet_write_text quiet_isfile quiet_os_remove quiet_shutil_move
  quiet_mkstemp quiet_os_popen quiet_smtp_sendmail quiet_get_head_hash
  quiet_get_current_branch quiet_get_github_repository : frames2.
#[local] Hint Resolve os_system_same_refs os_system_same_tracker
  os_system_grows log_plain_same_refs log_plain_same_tracker log_plain_grows
  purge_log_same_refs purge_log_same_tracker os_system_same_tags
  log_plain_same_tags : frames2.
#[local] Hint Resolve same_outbox_env_item same_outbox_env_get
  same_outbox_input same_outbox_read_text same_outbox_write_text
  same_outbox_isfile same_outbox_os_remove same_outbox_shutil_move
  same_outbox_mkstemp same_outbox_os_popen same_outbox_get_head_hash
  same_outbox_get_github_repository same_outbox_os_system
  same_outbox_log_plain same_outbox_purge_log : frames2.
#[local] Hint Extern 1 (_ = true) => reflexivity : frames2.

#[local] Hint Unfold run log verify_java_version verify_mvn_java_version
  process_file remove_maven_snapshot add_maven_snapshot
  update_documentation_in_released_branch
  update_documentation_to_released_version set_install_instructions fetch
  git_checkout create_release_branch add_pending_files commit_release
  commit_master commit_snapshot tag_release git_merge git_push run_mvn
  build_release find_release_version find_from_pom get_artifacts
  generate_checksums publish_artifacts iter_issues check_opened_issues
  list_issues read_email_template prepare_email send_email send_email_env
  print_sonatype_notice check_s3_credentials check_github_credentials
  check_email_settings check_output check_command_exists run_and_print
  check_env_var check_environment_and_commandline_tools module_init
  preflight discover baseline_and_branches fan_out version_bump gate_check
  build_phase master_documentation merge_and_tag publish_and_announce
  release_steps reset_branches cleanup finalizer pending_files : script2.

(** The rules of [frame], applied along the structure of the program;
    conditions on constants are evaluated first. *)
Ltac frames R Tr :=
  repeat first
    [ apply (frame_ret _ R)
    | apply (frame_raise _ R)
    | apply (frame_or_raise _ R)
    | apply (frame_bind _ Tr); [|intros ?]
    | apply (frame_try_except _ Tr)
    | apply (frame_try_finally _ Tr); [|intros ?]
    | apply (frame_for_each _ R Tr); intros ?
    | progress cbn [negb andb orb dry_run mail arg_dryrun arg_mail]
    | match goal with
      | |- frame _ (if ?a && _ then _ else _) => destruct a
      | |- frame _ (if ?b then _ else _) => destruct b
      | |- frame _ (match ?x with _ => _ end) => destruct x
      end
    | solve [eauto with frames2]
    | progress autounfold with script2 ].


(** *** Files *)

(** On a file that does not exist [process_file] raises the error of
    [open], after [mkstemp] has made the temporary file: the empty
    temporary file stays behind, nothing else changes. *)
Theorem process_file_missing_file_leaves_temporary
    (file_path : string) (line_callback : string → string) (w : world) :
  fs w !! file_path = None →
  tmp_name H (clock w) ≠ file_path →
  ∃ w', process_file H file_path line_callback w
        = (Raise FileNotFoundError, w') ∧
        fs w' = <[tmp_name H (clock w) := ""]> (fs w) ∧
        git w' = git w ∧ trace w' = trace w.
Proof.
  intros Hfile Hne.
  unfold process_file, bind, mkstemp, write_text, read_text. cbn.
  rewrite !lookup_insert_ne by done. rewrite Hfile.
  eexists. split; [reflexivity|]. cbn. split; [|done].
  apply map_eq. intros k.
  destruct (decide (k = tmp_name H (clock w))) as [->|Hk].
  - by rewrite !lookup_insert_eq.
  - by rewrite !lookup_insert_ne.
Qed.

(** The two updates of the README take two numbers from the version of
    Elasticsearch before they open the file: with fewer than two numbers
    in it they raise [IndexError] and nothing has changed. *)
Theorem readme_updates_need_two_numbers
    (readme_file repo_url release branch esversion : string) (w : world) :
  (length (split_version_to_digits esversion) < 2)%nat →
  update_documentation_in_released_branch H L readme_file release esversion w
  = (Raise IndexError, w) ∧
  update_documentation_to_released_version H readme_file repo_url release
    branch esversion w
  = (Raise IndexError, w).
Proof.
  intros Hshort.
  unfold update_documentation_in_released_branch,
    update_documentation_to_released_version, get_doc_anchor, bind.
  destruct (split_version_to_digits esversion) as [|e0 [|e1 es]];
    cbn in Hshort; try lia; cbn.
  - split; [done|].
    by destruct (split_version_to_digits release) as [|p0 [|p1 [|p2 ps]]].
  - split; [done|].
    by destruct (split_version_to_digits release) as [|p0 [|p1 [|p2 ps]]].
Qed.

(** *** Reading the pom *)

Definition tag_pattern (tag : string) : string :=
  "<" +:+ tag +:+ ">(.+)</" +:+ tag +:+ ">".

Lemma find_from_pom_loop_started (tag : string) (first_line : option string)
    (lines : list string) :
  find_from_pom_loop L tag first_line true lines
  = first_match L (tag_pattern tag) lines.
Proof.
  unfold tag_pattern.
  induction lines as [|line rest IH]; [done|].
  cbn [find_from_pom_loop first_match].
  destruct (re_search L _ line); [done|].
  destruct first_line as [p|]; [|done]. by destruct (re_search L p line).
Qed.

Lemma find_from_pom_loop_waits (tag marker : string)
    (before : list string) (line : string) (after : list string) :
  Forall (fun l => re_search L marker l = None) before →
  is_Some (re_search L marker line) →
  find_from_pom_loop L tag (Some marker) false (before ++ line :: after)
  = first_match L (tag_pattern tag) after.
Proof.
  intros Hbefore [g Hline].
  induction Hbefore as [|l before Hl _ IH]; cbn [app find_from_pom_loop].
  - rewrite Hline. apply find_from_pom_loop_started.
  - by rewrite Hl.
Qed.

Lemma find_from_pom_loop_never_started (tag marker : string)
    (lines : list string) :
  Forall (fun l => re_search L marker l = None) lines →
  find_from_pom_loop L tag (Some marker) false lines = None.
Proof.
  induction 1 as [|l lines Hl _ IH]; [done|].
  cbn [find_from_pom_loop]. by rewrite Hl.
Qed.

Lemma first_match_found (pattern : string) (before : list string)
    (line : string) (after : list string) (value : string) :
  Forall (fun l => re_search L pattern l = None) before →
  re_search L pattern line = Some value →
  first_match L pattern (before ++ line :: after) = Some value.
Proof.
  intros Hbefore Hline.
  induction Hbefore as [|l before Hl _ IH]; cbn [app first_match].
  - by rewrite Hline.
  - by rewrite Hl.
Qed.

Lemma first_match_none (pattern : string) (lines : list string) :
  first_match L pattern lines = None
  ↔ Forall (fun l => re_search L pattern l = None) lines.
Proof.
  induction lines as [|l lines IH]; cbn [first_match].
  - split; [constructor | done].
  - destruct (re_search L pattern l) eqn:Hl.
    + split; [done|]. intros Hall. apply Forall_cons in Hall as [Hl' _].
      congruence.
    + rewrite IH. split; [by constructor|].
      intros Hall. by apply Forall_cons in Hall as [_ ?].
Qed.

(** With a marker, [find_from_pom] looks for the tag only on the lines
    after the first line that matches the marker: the lines before it and
    the marker's own line are not searched, and the value is the one of the
    first line after it that carries the tag; when no such line follows,
    the call raises [RuntimeError]. The pom is left as it is. *)
Theorem find_from_pom_reads_after_marker
    (tag marker content : string) (before : list string) (line : string)
    (after : list string) (w : world) :
  fs w !! POM_FILE H = Some content →
  Text.lines (Text.universal_newlines content) = before ++ line :: after →
  Forall (fun l => re_search L marker l = None) before →
  is_Some (re_search L marker line) →
  find_from_pom H L tag (Some marker) w
  = (match first_match L (tag_pattern tag) after with
     | Some value => Ok value
     | None => Raise RuntimeError
     end, w).
Proof.
  intros Hpom Hlines Hbefore Hline.
  unfold find_from_pom, bind, read_text. rewrite Hpom, Hlines.
  rewrite find_from_pom_loop_waits by done.
  by destruct (first_match L (tag_pattern tag) after).
Qed.

(** When no line of the pom matches the marker, [find_from_pom] raises
    [RuntimeError], whether or not the tag is in the file. *)
Theorem find_from_pom_without_marker_line
    (tag marker content : string) (w : world) :
  fs w !! POM_FILE H = Some content →
  Forall (fun l => re_search L marker l = None)
    (Text.lines (Text.universal_newlines content)) →
  find_from_pom H L tag (Some marker) w = (Raise RuntimeError, w).
Proof.
  intros Hpom Hnone. unfold find_from_pom, bind, read_text. rewrite Hpom.
  by rewrite find_from_pom_loop_never_started.
Qed.

(** Without a marker, [find_from_pom] returns what the first line that
    carries the tag holds between the tags, whatever the later lines
    hold. *)
Theorem find_from_pom_first_line_wins
    (tag content : string) (before : list string) (line : string)
    (after : list string) (value : string) (w : world) :
  fs w !! POM_FILE H = Some content →
  Text.lines (Text.universal_newlines content) = before ++ line :: after →
  Forall (fun l => re_search L (tag_pattern tag) l = None) before →
  re_search L (tag_pattern tag) line = Some value →
  find_from_pom H L tag None w = (Ok value, w).
Proof.
  intros Hpom Hlines Hbefore Hline.
  unfold find_from_pom, bind, read_text. rewrite Hpom, Hlines.
  rewrite find_from_pom_loop_started.
  by rewrite (first_match_found _ _ _ _ value).
Qed.

(** [find_release_version] completes only on the branch it was asked to
    read: the branch is checked out, no branch that existed has moved or
    gone, the tags are as before, and the version is the one of the first
    line of that branch's pom that holds a snapshot version. *)
Theorem find_release_version_reads_the_branch
    (branch version : string) (w w' : world) :
  find_release_version H L branch w = (Ok version, w') →
  HEAD (git w') = branch ∧
  (∀ b revision,
     branches (git w) !! b = Some revision →
     branches (git w') !! b = Some revision) ∧
  tags (git w') = tags (git w) ∧
  ∃ content,
    fs w' !! POM_FILE H = Some content ∧
    first_match L "<version>(.+)-SNAPSHOT</version>"
      (Text.lines (Text.universal_newlines content)) = Some version.
Proof.
  intros Hrun. unfold find_release_version in Hrun.
  apply bind_ok in Hrun as ([] & w1 & Hco & Hrun).
  apply checkout_ok in Hco as (_ & Hb & Ht & Hhead).
  apply bind_ok in Hrun as (file & w2 & Hread & Hrun).
  unfold read_text in Hread.
  destruct (fs w1 !! POM_FILE H) as [content|] eqn:Hpom; [|done].
  injection Hread as <- <-.
  destruct (first_match L _ _) as [v|] eqn:Hv; [|done].
  injection Hrun as <- <-. split_and!; try done.
  - intros b revision Hrevision. by rewrite Hb.
  - by exists content.
Qed.

(** *** The issue tracker *)

Lemma open_with_label (version : string) (i : issue) :
  Bool.eqb (is_open i) true && has_labels [version] i = true
  ↔ is_open i = true ∧ version ∈ labels i.
Proof.
  unfold has_labels. cbn [forallb]. rewrite andb_true_r, andb_true_iff.
  rewrite bool_decide_eq_true. by destruct (is_open i).
Qed.

(** [check_opened_issues] completes exactly when no open issue of the
    repository carries the label of the version; otherwise it raises
    [NameError]. On a repository the tracker does not know it raises
    [AttributeError]. In no case does it change anything. *)
Theorem check_opened_issues_passes_iff
    (version reponame : string) (issues : list issue) (w : world) :
  (check_opened_issues version (Some issues) reponame w = (Ok tt, w)
   ↔ ∀ i, i ∈ issues → ¬ (is_open i = true ∧ version ∈ labels i)) ∧
  (check_opened_issues version (Some issues) reponame w
   = (Raise NameError, w)
   ↔ ∃ i, i ∈ issues ∧ is_open i = true ∧ version ∈ labels i) ∧
  check_opened_issues version None reponame w = (Raise AttributeError, w).
Proof.
  unfold check_opened_issues, iter_issues, bind, ret, raise.
  split_and!; [| |done].
  - destruct (List.filter _ issues) as [|i0 rest] eqn:Hf.
    + split; [|done]. intros _ i Hi Hblocks.
      apply open_with_label in Hblocks.
      assert (In i (List.filter
                (fun i => Bool.eqb (is_open i) true
                          && has_labels [version] i) issues)) as Hin.
      { apply filter_In. split; [by apply list_elem_of_In | done]. }
      by rewrite Hf in Hin.
    + split; [done|]. intros Hnone. exfalso.
      assert (In i0 (List.filter
                (fun i => Bool.eqb (is_open i) true
                          && has_labels [version] i) issues)) as Hin.
      { rewrite Hf. by left. }
      apply filter_In in Hin as [Hin Hblocks].
      apply (Hnone i0); [by apply list_elem_of_In|].
      by apply open_with_label.
  - destruct (List.filter _ issues) as [|i0 rest] eqn:Hf.
    + split; [done|]. intros (i & Hi & Hblocks). exfalso.
      apply open_with_label in Hblocks.
      assert (In i (List.filter
                (fun i => Bool.eqb (is_open i) true
                          && has_labels [version] i) issues)) as Hin.
      { apply filter_In. split; [by apply list_elem_of_In | done]. }
      by rewrite Hf in Hin.
    + split; [|done]. intros _. exists i0.
      assert (In i0 (List.filter
                (fun i => Bool.eqb (is_open i) true
                          && has_labels [version] i) issues)) as Hin.
      { rewrite Hf. by left. }
      apply filter_In in Hin as [Hin Hblocks].
      split; [by apply list_elem_of_In|]. by apply open_with_label.
Qed.

(** [list_issues] returns the closed issues that carry both the label of
    the severity and the label of the version, in the order of the
    tracker, and no other. *)
Theorem list_issues_closed_with_both_labels
    (version severity : string) (issues : list issue) (w : world) :
  ∃ listed,
    list_issues version (Some issues) severity w = (Ok listed, w) ∧
    sublist listed issues ∧
    ∀ i, i ∈ listed ↔ i ∈ issues ∧ is_open i = false ∧
                      severity ∈ labels i ∧ version ∈ labels i.
Proof.
  unfold list_issues, iter_issues, ret. eexists. split; [reflexivity|].
  split.
  - induction issues as [|i issues IH]; cbn [List.filter]; [constructor|].
    destruct (_ && _); by constructor.
  - intros i. rewrite list_elem_of_In, filter_In, <- list_elem_of_In.
    unfold has_labels. cbn [forallb].
    rewrite andb_true_r, !andb_true_iff, !bool_decide_eq_true.
    destruct (is_open i); cbn; split; intros (? & ? & ? & ?);
      split_and!; done.
Qed.

(** *** The checks before the release *)

Lemma truthy_spec (o : option string) :
  truthy o = true ↔ ∃ value, o = Some value ∧ value ≠ "".
Proof.
  destruct o as [[|c s]|]; cbn; split; try done.
  - by intros (value & [= <-] & ?).
  - intros _. by eexists.
  - by intros (value & ? & ?).
Qed.

(** [check_s3_credentials] completes exactly when both variables of the
    AWS credentials are set to a text that is not empty; otherwise it
    raises [RuntimeError]. *)
Theorem check_s3_credentials_passes_iff (w : world) :
  (check_s3_credentials w = (Ok tt, w)
   ↔ (∃ key, env w !! "AWS_ACCESS_KEY_ID" = Some key ∧ key ≠ "") ∧
     (∃ secret, env w !! "AWS_SECRET_ACCESS_KEY" = Some secret
                ∧ secret ≠ "")) ∧
  (check_s3_credentials w = (Ok tt, w)
   ∨ check_s3_credentials w = (Raise RuntimeError, w)).
Proof.
  rewrite <- !truthy_spec.
  unfold check_s3_credentials, bind, env_get, ret, raise.
  destruct (truthy (env w !! "AWS_ACCESS_KEY_ID")),
    (truthy (env w !! "AWS_SECRET_ACCESS_KEY")); cbn;
    split; try (split; [done | by intros [??]]); try (split; done);
    by (left + right).
Qed.

(** A run that publishes gets past the checks only from a branch other
    than master, with both AWS variables set and not empty, with a sender
    set and not empty when the mail is enabled, and after the operator has
    answered the prompt. *)
Theorem preflight_of_a_publishing_run (a : args) (w w' : world) :
  arg_dryrun a = false →
  preflight a w = (Ok tt, w') →
  arg_branch a ≠ "master" ∧
  (∃ key, env w !! "AWS_ACCESS_KEY_ID" = Some key ∧ key ≠ "") ∧
  (∃ secret, env w !! "AWS_SECRET_ACCESS_KEY" = Some secret ∧ secret ≠ "") ∧
  (arg_mail a = true →
   ∃ sender, env w !! "MAIL_SENDER" = Some sender ∧ sender ≠ "") ∧
  ∃ answer, stdin w = answer :: stdin w'.
Proof.
  intros Hdry Hrun. rewrite <- !truthy_spec.
  unfold preflight, check_s3_credentials, check_email_settings,
    check_github_credentials, print_sonatype_notice, input, log, log_plain,
    bind, ret, raise, env_get in Hrun.
  rewrite Hdry in Hrun. cbn in Hrun.
  destruct (String.eqb_spec (arg_branch a) "master") as [|Hbranch];
    [done|].
  destruct (truthy (env w !! "AWS_ACCESS_KEY_ID")); [|done].
  destruct (truthy (env w !! "AWS_SECRET_ACCESS_KEY")); [|done].
  cbn in Hrun.
  destruct (arg_mail a).
  - destruct (truthy (env w !! "MAIL_SENDER")); [|done]. cbn in Hrun.
    destruct (stdin w) as [|answer rest] eqn:Hin; [done|]. cbn in Hrun.
    split_and!; try done. exists answer.
    repeat case_match; by simplify_eq.
  - destruct (stdin w) as [|answer rest] eqn:Hin; [done|]. cbn in Hrun.
    split_and!; try done. exists answer.
    repeat case_match; by simplify_eq.
Qed.

(** A dry run from a branch other than master gets past the checks
    whatever the environment holds, without a question to the operator:
    the files, the repository, the answers to come and the mail are as
    they were. *)
Theorem preflight_of_a_dry_run (a : args) (w : world) :
  arg_dryrun a = true →
  arg_branch a ≠ "master" →
  ∃ w', preflight a w = (Ok tt, w') ∧
        env w' = env w ∧ fs w' = fs w ∧ git w' = git w ∧
        stdin w' = stdin w ∧ outbox w' = outbox w.
Proof.
  intros Hdry Hbranch.
  unfold preflight, check_github_credentials, print_sonatype_notice, log,
    log_plain, bind, ret, raise, env_get.
  rewrite Hdry. cbn.
  destruct (String.eqb_spec (arg_branch a) "master") as [|_]; [done|].
  destruct (_ && _); by eexists.
Qed.

(** From master nothing is released: [__main__] raises [RuntimeError]
    before it has read or changed anything. *)
Theorem main_refuses_master (g : globals) (a : args) (w : world) :
  arg_check a = false →
  arg_branch a = "master" →
  main H L as_string g a w = (Raise RuntimeError, w).
Proof.
  intros Hcheck Hbranch. unfold main, preflight, bind, raise.
  by rewrite Hcheck, Hbranch.
Qed.

(** *** Loading the module *)

(** Without [JAVA_HOME] in the environment the script stops while the
    module is loaded, whatever its arguments: [RuntimeError], after the
    log has been emptied and before any command has run. *)
Theorem script_needs_java_home (a : args) (w : world) :
  env w !! "JAVA_HOME" = None →
  script H L as_string a w = (Raise RuntimeError, set_trace [] w).
Proof.
  intros Hjava.
  unfold script, module_init, bind, try_except, purge_log, env_item, raise.
  cbn. by rewrite Hjava.
Qed.

(** When the module has been loaded, [JAVA_HOME] is what the environment
    holds, Maven is [mvn3] exactly when [mvn3 --version] exits with status
    0 and [mvn] otherwise, and the log holds the probe and the two
    templates that were opened. *)
Theorem module_init_globals (w : world) (g : globals) (w' : world) :
  module_init H w = (Ok g, w') →
  env w !! "JAVA_HOME" = Some (JAVA_HOME g) ∧
  MVN g = (if exit_ok H (clock w) (Shell "mvn3 --version")
           then "mvn3" else "mvn") ∧
  trace w' =
    [LogRun (Shell "mvn3 --version");
     LogMsg ("open email template " +:+ DEV_TOOLS_DIR H
             +:+ "/email_template.html");
     LogMsg ("open email template " +:+ DEV_TOOLS_DIR H
             +:+ "/email_template.txt")] ∧
  git w' = git w.
Proof.
  unfold module_init, read_email_template, run, log, log_plain, os_system,
    bind, try_except, purge_log, env_item, read_text, ret, raise.
  cbn. intros Hrun.
  destruct (env w !! "JAVA_HOME") as [java|]; [|done]. cbn in Hrun.
  destruct (exit_ok H (clock w) (Shell "mvn3 --version")); cbn in Hrun;
    repeat case_match; simplify_eq; cbn; destruct (git w); done.
Qed.

(** *** Git *)

Lemma tag_ok (name message : string) (w w' : world) :
  run H (GitTag name message) w = (Ok tt, w') →
  tags (git w) !! name = None ∧ is_Some (tags (git w') !! name).
Proof.
  intros Hrun. apply run_ok in Hrun as [fresh Hstep]. cbn in Hstep.
  destruct (tags (git w) !! name); [done|].
  destruct (head_revision (git w)) as [h|]; [|done].
  injection Hstep as <-. split; [done|]. cbn. rewrite lookup_insert_eq.
  by eexists.
Qed.

(** When the first [try] completes, the source branch is not master,
    neither release branch existed before, each release branch and the
    branch it was made from are at the same revision (the one the pull
    ended on), the release branch of the source branch is checked out, and
    no tag was touched. *)
Theorem release_branches_start_at_pulled_heads
    (g : globals) (c : context) (w : world) (hashes : string * string)
    (w' : world) :
  baseline_and_branches H g c w = (Ok hashes, w') →
  let for_master := release_branch "master" (release_version c) in
  let for_source := release_branch (src_branch c) (release_version c) in
  src_branch c ≠ "master" ∧
  branches (git w) !! for_master = None ∧
  branches (git w) !! for_source = None ∧
  HEAD (git w') = for_source ∧
  tags (git w') = tags (git w) ∧
  ∃ master_head source_head,
    branches (git w') !! "master" = Some master_head ∧
    branches (git w') !! for_master = Some master_head ∧
    branches (git w') !! src_branch c = Some source_head ∧
    branches (git w') !! for_source = Some source_head.
Proof.
  intros Hrun for_master for_source.
  apply baseline_and_branches_ok in Hrun
    as ((Hsm & Hsf & Hne & Hfs) & Hnone1 & Hnone2 & Hhead & Htags
        & f1 & f2 & Hb).
  fold for_master in Hsf, Hne, Hnone1, Hb.
  fold for_source in Hne, Hfs, Hnone2, Hhead, Hb.
  assert (for_master ≠ "master") as Hm1 by apply release_branch_not_master.
  assert (for_source ≠ "master") as Hm2 by apply release_branch_not_master.
  split_and!; try done.
  exists f1, f2. rewrite Hb. split_and!.
  - rewrite !lookup_insert_ne by done. by rewrite lookup_insert_eq.
  - rewrite !lookup_insert_ne by done. by rewrite lookup_insert_eq.
  - rewrite lookup_insert_ne by done. by rewrite lookup_insert_eq.
  - by rewrite lookup_insert_eq.
Qed.

(** [git_push] does nothing in a dry run. Otherwise it pushes the two
    branches first and the tag after them: when the first push fails the
    tag is not pushed and [RuntimeError] is raised. Pushing leaves the
    local references as they are. *)
Theorem git_push_branches_before_tag
    (remote src release : string) (w : world) :
  let push_branches := GitPush remote [src; "master"] in
  let push_tag := GitPush remote ["v" +:+ release] in
  let pushed := git_push H remote src release false w in
  git_push H remote src release true w = (Ok tt, w) ∧
  git (snd pushed) = git w ∧
  trace (snd pushed)
  = trace w ++ LogRun push_branches ::
      (if exit_ok H (clock w) push_branches then [LogRun push_tag] else []) ∧
  (fst pushed = Ok tt
   ↔ exit_ok H (clock w) push_branches = true
     ∧ exit_ok H (S (clock w)) push_tag = true) ∧
  (fst pushed = Ok tt ∨ fst pushed = Raise RuntimeError).
Proof.
  cbn zeta. split; [done|].
  unfold git_push, run, log_plain, os_system, bind, ret, raise. cbn.
  destruct (exit_ok H (clock w) _); cbn.
  - destruct (exit_ok H (S (clock w)) _); cbn;
      rewrite <- ?app_assoc; cbn; destruct (git w);
      split_and!; try done; try (by left); try (by right);
      split; try done; by intros [??].
  - destruct (git w). split_and!; try done; try (by right).
    split; [done | by intros [??]].
Qed.

(** *** The [finally] clause *)

(** Whenever the [finally] clause completes, after a success or after a
    failure, in a dry run or not, neither release branch exists any more
    and the source branch is checked out. *)
Theorem finalizer_removes_release_branches
    (c : context) (master_hash version_hash : string) (success : bool)
    (w w' : world) :
  finalizer H c master_hash version_hash success w = (Ok tt, w') →
  branches (git w') !! release_branch "master" (release_version c) = None ∧
  branches (git w') !! release_branch (src_branch c) (release_version c)
  = None ∧
  HEAD (git w') = src_branch c.
Proof.
  intros Hrun. unfold finalizer in Hrun.
  apply bind_ok in Hrun as ([] & w1 & _ & Hclean).
  apply cleanup_removes in Hclean as (Hb & _ & Hhead).
  rewrite Hb. split_and!; [|by rewrite lookup_delete_eq|done].
  destruct (decide (release_branch (src_branch c) (release_version c)
                    = release_branch "master" (release_version c)))
    as [->|Hne].
  - by rewrite lookup_delete_eq.
  - rewrite lookup_delete_ne by done. by rewrite lookup_delete_eq.
Qed.

(** When a step of the release fails and the [finally] clause completes,
    the exception of the step is what [__main__] ends on, master and the
    source branch are at the revisions recorded before the release, and
    the tags are as the failure left them or without the tag of the
    release. *)
Theorem failed_release_is_rolled_back
    (g : globals) (c : context) (master_hash version_hash : string)
    (w : world) (e : exn) (w1 w' : world) :
  src_branch c ≠ "master" →
  release_steps H L as_string g c w = (Raise e, w1) →
  finalizer H c master_hash version_hash false w1 = (Ok tt, w') →
  try_finally (release_steps H L as_string g c)
    (finalizer H c master_hash version_hash) w = (Raise e, w') ∧
  branches (git w') !! "master" = Some master_hash ∧
  branches (git w') !! src_branch c = Some version_hash ∧
  (tags (git w') = tags (git w1)
   ∨ tags (git w') = delete (release_tag c) (tags (git w1))).
Proof.
  intros Hsrc Hbody Hfinal. split.
  { unfold try_finally. rewrite Hbody. cbn [is_ok]. by rewrite Hfinal. }
  unfold finalizer in Hfinal. cbn [negb] in Hfinal.
  apply bind_ok in Hfinal as ([] & w2 & Hundo & Hclean).
  apply bind_ok in Hundo as ([] & w3 & Hreset & Htag).
  apply reset_branches_ok in Hreset as (Hm & Hs & Ht3 & Hhead); [|done].
  assert (branches (git w2) = branches (git w3) ∧ HEAD (git w2) = HEAD (git w3)
          ∧ (tags (git w2) = tags (git w3)
             ∨ tags (git w2) = delete (release_tag c) (tags (git w3))))
    as (Hb2 & Hh2 & Ht2).
  { apply try_except_ok in Htag as [Hdel|(e' & w4 & Hfail & _ & Hret)].
    - apply tag_delete_ok in Hdel as (? & ? & ?). split_and!; try done.
      by right.
    - injection Hret as <-. apply run_raise_git in Hfail.
      rewrite Hfail. split_and!; try done. by left. }
  rewrite <- Hh2 in Hhead. rewrite <- Hb2 in Hm, Hs.
  pose proof (cleanup_ok H c w2 w' "master" Hhead (or_introl eq_refl) Hclean)
    as [Hm' Ht'].
  pose proof (cleanup_ok H c w2 w' (src_branch c) Hhead (or_intror eq_refl)
                Hclean) as [Hs' _].
  rewrite Hm', Hs', Ht', <- Ht3. by split_and!.
Qed.

(** *** A release that is published, and a dry run *)

(** The log grew. *)
Definition any_entry (e : log_entry) : bool := true.

Ltac framed T Hrun :=
  lazymatch type of Hrun with
  | ?m ?w = (?r, ?w') =>
      let Hf := fresh "Hframe" in
      assert (frame T m) as Hf;
      [ | specialize (Hf w r w' Hrun) ]
  end.

Lemma cleanup_same_tags (c : context) : frame same_tags (cleanup H c).
Proof. frames same_tags_refl same_tags_trans. Qed.

Lemma cleanup_same_outbox (c : context) : frame same_outbox (cleanup H c).
Proof. frames same_outbox_refl same_outbox_trans. Qed.

Lemma cleanup_any_entry (c : context) :
  frame (grows any_entry) (cleanup H c).
Proof. frames (grows_refl any_entry) (grows_trans any_entry). Qed.

Lemma version_bump_same_tags (c : context) :
  frame same_tags (version_bump H L c).
Proof. frames same_tags_refl same_tags_trans. Qed.

Lemma gate_check_same_tags (c : context) : frame same_tags (gate_check c).
Proof. frames same_tags_refl same_tags_trans. Qed.

Lemma build_phase_same_tags (g : globals) (c : context) :
  frame same_tags (build_phase H g c).
Proof. frames same_tags_refl same_tags_trans. Qed.

Lemma master_documentation_same_tags (c : context) :
  frame same_tags (master_documentation H L c).
Proof. frames same_tags_refl same_tags_trans. Qed.

Lemma git_merge_same_tags (src release : string) :
  frame same_tags (git_merge H src release).
Proof. frames same_tags_refl same_tags_trans. Qed.

Lemma publish_and_announce_same_tags (g : globals) (c : context)
    (repository : option (list issue)) (artifacts : list string) :
  frame same_tags (publish_and_announce H L as_string g c repository
                     artifacts).
Proof. frames same_tags_refl same_tags_trans. Qed.

Lemma input_same_tags : frame same_tags input.
Proof. frames same_tags_refl same_tags_trans. Qed.

Ltac tags_kept Hrun :=
  framed same_tags Hrun; [frames same_tags_refl same_tags_trans|].
Ltac outbox_kept Hrun :=
  framed same_outbox Hrun; [frames same_outbox_refl same_outbox_trans|].
Ltac log_grown Hrun :=
  framed (grows any_entry) Hrun;
  [frames (grows_refl any_entry) (grows_trans any_entry)|].

Lemma send_email_env_outbox (msg : email) (dry_run mail : bool) (w : world)
    (r : outcome unit) (w' : world) :
  send_email_env H as_string msg dry_run mail w = (r, w') →
  if mail && negb dry_run
  then ∃ request, outbox w' = outbox w ++ [request]
  else outbox w' = outbox w.
Proof.
  unfold send_email_env, send_email, env_get, write_text, smtp_sendmail,
    bind, ret. cbn.
  destruct (mail && negb dry_run); cbn;
    [destruct (smtp_ok H (clock w))|]; intros [= <- <-]; cbn; eauto.
Qed.

(** When the steps of a release that is published complete, and the
    [finally] clause after them: the tag of the release did not exist
    before and exists afterwards; the two branches were pushed and, right
    after them, the tag; and the mail server was handed one message if
    the mail is enabled, and none otherwise. *)
Theorem published_release_is_tagged_and_pushed
    (g : globals) (c : context) (master_hash version_hash : string)
    (w w' : world) :
  dry_run c = false →
  try_finally (release_steps H L as_string g c)
    (finalizer H c master_hash version_hash) w = (Ok tt, w') →
  tags (git w) !! release_tag c = None ∧
  is_Some (tags (git w') !! release_tag c) ∧
  (∃ before after,
     trace w' = trace w ++ before
                ++ [LogRun (GitPush (remote c) [src_branch c; "master"]);
                    LogRun (GitPush (remote c) [release_tag c])]
                ++ after) ∧
  (if mail c then ∃ request, outbox w' = outbox w ++ [request]
   else outbox w' = outbox w).
Proof.
  intros Hdry Hrun.
  apply try_finally_inv in Hrun as (r1 & w1 & r2 & Hbody & Hfinal & Hr).
  destruct r2 as [[]|e2]; [|done]. subst r1. cbn [is_ok] in Hfinal.
  unfold finalizer in Hfinal. rewrite Hdry in Hfinal. cbn [negb] in Hfinal.
  apply bind_ok in Hfinal as ([] & w2 & Hret & Hclean).
  injection Hret as <-.
  unfold release_steps in Hbody.
  apply bind_ok in Hbody as ([] & a1 & Hbump & Hbody).
  apply bind_ok in Hbody as (answer1 & a2 & Hin1 & Hbody).
  apply bind_ok in Hbody as (repository & a3 & Hgate & Hbody).
  apply bind_ok in Hbody as (artifacts & a4 & Hbuild & Hbody).
  apply bind_ok in Hbody as ([] & a5 & Hdoc & Hbody).
  apply bind_ok in Hbody as (answer2 & a6 & Hin2 & Hbody).
  apply bind_ok in Hbody as ([] & a7 & Hmerge & Hpub).
  unfold merge_and_tag in Hmerge.
  apply bind_ok in Hmerge as ([] & b1 & Hgm & Hmerge).
  apply bind_ok in Hmerge as ([] & b2 & Htag & Hrest).
  unfold publish_and_announce in Hpub. rewrite Hdry in Hpub.
  apply bind_ok in Hpub as ([] & p1 & Hpush & Hpub).
  apply bind_ok in Hpub as ([] & p2 & Hput & Hpub).
  apply bind_ok in Hpub as (msg & p3 & Hmsg & Hpub).
  apply bind_ok in Hpub as (answer3 & p4 & Hin3 & Hsend).
  cbv beta in *.
  unfold git_push in Hpush. cbn [negb] in Hpush.
  apply bind_ok in Hpush as ([] & q1 & Hp1 & Hp2).
  unfold tag_release in Htag. pose proof Htag as Htag'.
  apply tag_ok in Htag as [Hnew Htagged].
  fold (release_tag c) in Hnew, Htagged, Hp2.
  split_and!.
  - tags_kept Hbump. tags_kept Hin1. tags_kept Hgate. tags_kept Hbuild.
    tags_kept Hdoc. tags_kept Hin2. tags_kept Hgm.
    unfold same_tags in *. congruence.
  - tags_kept Hrest. tags_kept Hp1. tags_kept Hp2. tags_kept Hput.
    tags_kept Hmsg. tags_kept Hin3. tags_kept Hsend. tags_kept Hclean.
    unfold same_tags in *.
    replace (tags (git w')) with (tags (git b2)) by congruence. done.
  - assert (grows any_entry w a7) as (before & Hbefore & _).
    { log_grown Hbump. log_grown Hin1. log_grown Hgate. log_grown Hbuild.
      log_grown Hdoc. log_grown Hin2. log_grown Hgm. log_grown Htag'.
      log_grown Hrest.
      repeat (eapply grows_trans; [eassumption|]). apply grows_refl. }
    assert (grows any_entry p1 w') as (after & Hafter & _).
    { log_grown Hput. log_grown Hmsg. log_grown Hin3. log_grown Hsend.
      log_grown Hclean.
      repeat (eapply grows_trans; [eassumption|]). apply grows_refl. }
    apply run_trace in Hp1, Hp2. exists before, after.
    rewrite Hafter, Hp2, Hp1, Hbefore. by rewrite <- !app_assoc.
  - outbox_kept Hbump. outbox_kept Hin1. outbox_kept Hgate.
    outbox_kept Hbuild. outbox_kept Hdoc. outbox_kept Hin2.
    outbox_kept Hgm. outbox_kept Htag'. outbox_kept Hrest.
    outbox_kept Hp1. outbox_kept Hp2.
    outbox_kept Hput. outbox_kept Hmsg. outbox_kept Hin3.
    outbox_kept Hclean.
    apply send_email_env_outbox in Hsend.
    rewrite andb_true_r in Hsend. unfold same_outbox in *.
    replace (outbox w') with (outbox w1) by congruence.
    replace (outbox w) with (outbox p4) by congruence. done.
Qed.

Lemma main_dry_run_same_outbox (g : globals) (a : args) :
  arg_dryrun a = true → frame same_outbox (main H L as_string g a).
Proof.
  intros Hdry. destruct a as [branch tests origin dry mail check].
  cbn in Hdry. subst dry. unfold main. cbn [arg_check]. destruct check.
  - frames same_outbox_refl same_outbox_trans.
  - apply (frame_bind _ same_outbox_trans);
      [frames same_outbox_refl same_outbox_trans | intros _].
    apply (frame_bind_ok _ same_outbox_trans);
      [frames same_outbox_refl same_outbox_trans |].
    intros c w0 w1 Hdisc. apply discover_ok in Hdisc as [_ Hd].
    destruct c. cbn in Hd. subst.
    frames same_outbox_refl same_outbox_trans.
Qed.

Lemma main_dry_run_local_only (g : globals) (a : args) :
  arg_dryrun a = true → frame (grows local_only) (main H L as_string g a).
Proof.
  intros Hdry. destruct a as [branch tests origin dry mail check].
  cbn in Hdry. subst dry. unfold main. cbn [arg_check]. destruct check.
  - frames (grows_refl local_only) (grows_trans local_only).
  - apply (frame_bind _ (grows_trans local_only));
      [frames (grows_refl local_only) (grows_trans local_only) | intros _].
    apply (frame_bind_ok _ (grows_trans local_only));
      [frames (grows_refl local_only) (grows_trans local_only) |].
    intros c w0 w1 Hdisc. apply discover_ok in Hdisc as [_ Hd].
    destruct c. cbn in Hd. subst.
    frames (grows_refl local_only) (grows_trans local_only).
Qed.

(** A dry run keeps to this machine, however it ends: nothing is handed
    to the mail server, and of the commands it logs none is a push and
    none starts the upload tool. *)
Theorem dry_run_pushes_and_mails_nothing
    (g : globals) (a : args) (w : world) (r : outcome unit) (w' : world) :
  arg_dryrun a = true →
  main H L as_string g a w = (r, w') →
  outbox w' = outbox w ∧
  ∃ l, trace w' = trace w ++ l ∧ forallb local_only l = true.
Proof.
  intros Hdry Hrun. split.
  - by apply (main_dry_run_same_outbox g a Hdry w r w').
  - by apply (main_dry_run_local_only g a Hdry w r w').
Qed.

(** *** What the script finds out before the release *)

Lemma find_from_pom_pure (tag : string) (first_line : option string)
    (w : world) (r : outcome string) (w' : world) :
  find_from_pom H L tag first_line w = (r, w') → w' = w.
Proof.
  unfold find_from_pom, bind, read_text, or_raise, ret, raise.
  intros Hrun. repeat case_match; by simplify_eq.
Qed.

Lemma run_stdin (c : command) (w : world) (r : outcome unit) (w' : world) :
  run H c w = (r, w') → stdin w' = stdin w.
Proof.
  unfold run, log_plain, os_system, bind, ret, raise. cbn. intros Hrun.
  repeat case_match; by simplify_eq.
Qed.

(** When the script has found out what it releases: the source branch is
    checked out; the version of Elasticsearch is not a snapshot; the
    release version holds at least three numbers; the operator has
    answered one prompt, and the next snapshot version is that answer
    or, when the answer is empty, the version [guess_snapshot]
    proposes. *)
Theorem discover_postcondition
    (a : args) (w : world) (c : context) (w' : world) :
  discover H L a w = (Ok c, w') →
  HEAD (git w') = arg_branch a ∧
  Str.contains "-SNAPSHOT" (elasticsearch_version c) = false ∧
  (3 ≤ length (split_version_to_digits (release_version c)))%nat ∧
  ∃ answer proposed,
    stdin w = answer :: stdin w' ∧
    guess_snapshot (release_version c) = Some proposed ∧
    snapshot_version c = (if String.eqb answer "" then proposed else answer).
Proof.
  intros Hrun. unfold discover in Hrun.
  apply bind_ok in Hrun as (version & w1 & Hver & Hrun).
  apply bind_ok in Hrun as (aid & w2 & Haid & Hrun).
  apply bind_ok in Hrun as (name & w3 & Hname & Hrun).
  apply bind_ok in Hrun as (description & w4 & Hdesc & Hrun).
  apply bind_ok in Hrun as (url & w5 & Hurl & Hrun).
  apply bind_ok in Hrun as (es & w6 & Hes & Hrun).
  apply bind_ok in Hrun as ([] & w7 & Hsnap & Hrun).
  apply bind_ok in Hrun as (proposed & w8 & Hguess & Hrun).
  apply bind_ok in Hrun as (answer & w9 & Hin & Hrun).
  injection Hrun as <- <-.
  cbn [release_version elasticsearch_version snapshot_version].
  apply find_from_pom_pure in Haid, Hname, Hdesc, Hurl. subst w2 w3 w4 w5.
  assert (w6 = w1) as ->.
  { apply try_except_ok in Hes as [Hes|(e & w0 & Hfail & _ & Hes)].
    - by apply find_from_pom_pure in Hes.
    - apply find_from_pom_pure in Hfail, Hes. congruence. }
  destruct (Str.contains "-SNAPSHOT" es) eqn:Hcontains; [done|].
  injection Hsnap as <-.
  destruct (guess_snapshot version) as [p|] eqn:Hp; [|done].
  injection Hguess as <- <-.
  unfold find_release_version in Hver.
  apply bind_ok in Hver as ([] & v1 & Hco & Hver).
  apply bind_ok in Hver as (file & v2 & Hread & Hver).
  assert (v2 = v1) as ->.
  { unfold read_text in Hread. repeat case_match; by simplify_eq. }
  assert (w1 = v1) as ->.
  { unfold or_raise, ret, raise in Hver. repeat case_match; by simplify_eq. }
  pose proof (run_stdin _ _ _ _ Hco) as Hstdin.
  apply checkout_ok in Hco as (_ & _ & _ & Hhead).
  unfold input in Hin.
  destruct (stdin v1) as [|answer' rest] eqn:Hanswers; [done|].
  injection Hin as <- <-. cbn [stdin set_stdin git set_git].
  split_and!; try done.
  - unfold guess_snapshot in Hp.
    destruct (split_version_to_digits version) as [|d0 [|d1 [|d2 ds]]];
      try done. cbn. lia.
  - exists answer', p. split_and!; [congruence | done |].
    by destruct answer'.
Qed.

(** *** The artifact and its checksum *)

Fixpoint slash_free (s : string) : bool :=
  match s with
  | "" => true
  | String c s' => negb (Text.is_slash c) && slash_free s'
  end.

Lemma rev_app_acc (s t : string) :
  String.rev_app s t = String.rev_app s "" +:+ t.
Proof.
  revert t. induction s as [|c s IH]; intros t; cbn [String.rev_app].
  - by rewrite StrFacts.app_nil_l.
  - rewrite IH, (IH (String c "")), StrFacts.app_assoc.
    by rewrite StrFacts.app_cons, StrFacts.app_nil_l.
Qed.

Lemma rev_cons (c : ascii) (s : string) :
  String.rev (String c s) = String.rev s +:+ String c "".
Proof. unfold String.rev. cbn [String.rev_app]. apply rev_app_acc. Qed.

Lemma rev_app (a b : string) :
  String.rev (a +:+ b) = String.rev b +:+ String.rev a.
Proof.
  induction a as [|c a IH].
  - by rewrite StrFacts.app_nil_l, StrFacts.app_nil_r.
  - by rewrite StrFacts.app_cons, !rev_cons, IH, StrFacts.app_assoc.
Qed.

Lemma rev_rev (s : string) : String.rev (String.rev s) = s.
Proof.
  induction s as [|c s IH]; [done|].
  by rewrite rev_cons, rev_app, IH.
Qed.

Lemma split_slash_free (name : string) :
  slash_free name = true → Text.split_last_slash name = None.
Proof.
  induction name as [|c name IH]; [done|]. cbn.
  intros [Hc Hname]%andb_true_iff. rewrite IH by done.
  by destruct (Text.is_slash c).
Qed.

Lemma split_at_last_slash (dir name : string) :
  slash_free name = true →
  Text.split_last_slash (dir +:+ "/" +:+ name) = Some (dir +:+ "/", name).
Proof.
  intros Hname. induction dir as [|c dir IH].
  - rewrite !StrFacts.app_nil_l, StrFacts.app_cons, StrFacts.app_nil_l.
    cbn. by rewrite split_slash_free.
  - rewrite !(StrFacts.app_cons c dir). cbn [Text.split_last_slash].
    by rewrite IH.
Qed.

Lemma all_slashes_app (a : string) (c : ascii) (b : string) :
  Text.is_slash c = false → Text.all_slashes (a +:+ String c b) = false.
Proof.
  intros Hc. induction a as [|x a IH].
  - rewrite StrFacts.app_nil_l. cbn. by rewrite Hc.
  - rewrite StrFacts.app_cons. cbn. by rewrite IH, andb_false_r.
Qed.

Lemma rstrip_one_slash (dir : string) (last : ascii) :
  Text.is_slash last = false →
  Text.rstrip_slashes (dir +:+ String last "/") = dir +:+ String last "".
Proof.
  intros Hlast. unfold Text.rstrip_slashes.
  change (String last "/") with (String last "" +:+ "/").
  rewrite <- StrFacts.app_assoc, rev_app.
  change (String.rev "/") with "/". rewrite StrFacts.app_cons.
  cbn [Text.lstrip_slashes]. change (Text.is_slash "/") with true.
  cbn iota. rewrite StrFacts.app_nil_l, rev_app.
  change (String.rev (String last "")) with (String last "").
  rewrite StrFacts.app_cons. cbn [Text.lstrip_slashes]. rewrite Hlast.
  rewrite <- StrFacts.app_cons.
  change (String last "") with (String.rev (String last "")) at 1.
  by rewrite <- rev_app, rev_rev.
Qed.

Lemma path_join_plain (a b : string) :
  a ≠ "" → Str.startswith "/" b = false →
  Str.startswith "/" (String.rev a) = false →
  Text.path_join a b = a +:+ "/" +:+ b.
Proof.
  intros Ha Hb Hrev. unfold Text.path_join. rewrite Hb, Hrev.
  by destruct a.
Qed.

(** For a file in a directory, [generate_checksums] runs [shasum] in that
    directory and returns the checksum file, which is next to the file,
    and then the file; it raises [RuntimeError] when the command fails.
    The command is not written to the log. *)
Theorem generate_checksums_next_to_the_file
    (dir : string) (last : ascii) (name : string) (w : world) :
  Text.is_slash last = false →
  slash_free name = true →
  let directory := dir +:+ String last "" in
  let release_file := directory +:+ "/" +:+ name in
  let command :=
    Shell ("cd " +:+ directory +:+ "; shasum " +:+ name +:+ " > " +:+ name
           +:+ ".sha1.txt") in
  ∃ w',
    generate_checksums H release_file w
    = (if exit_ok H (clock w) command
       then Ok [release_file +:+ ".sha1.txt"; release_file]
       else Raise RuntimeError, w') ∧
    git w' = git w ∧ trace w' = trace w.
Proof.
  intros Hlast Hname directory release_file command.
  assert (Text.dirname release_file = directory) as Hdir.
  { unfold Text.dirname, release_file, directory.
    rewrite split_at_last_slash by done.
    rewrite StrFacts.app_assoc.
    change (String last "" +:+ "/") with (String last "/").
    rewrite all_slashes_app by done. by apply rstrip_one_slash. }
  assert (Text.basename release_file = name) as Hbase.
  { unfold Text.basename, release_file.
    by rewrite split_at_last_slash. }
  assert (Text.path_join directory (name +:+ ".sha1.txt")
          = release_file +:+ ".sha1.txt") as Hjoin.
  { rewrite path_join_plain.
    - unfold release_file. by rewrite !StrFacts.app_assoc.
    - unfold directory. intros Hd. apply (f_equal String.length) in Hd.
      rewrite StrFacts.length_app in Hd. cbn in Hd. lia.
    - destruct name as [|c name]; [done|]. rewrite StrFacts.app_cons.
      cbn [slash_free] in Hname. cbn [Str.startswith].
      apply andb_true_iff in Hname as [Hc _].
      unfold Text.is_slash in Hc. rewrite Ascii.eqb_sym.
      by destruct (Ascii.eqb c "/").
    - unfold directory. rewrite rev_app.
      change (String.rev (String last "")) with (String last "").
      rewrite StrFacts.app_cons. cbn [Str.startswith].
      unfold Text.is_slash in Hlast. by rewrite Ascii.eqb_sym, Hlast. }
  unfold generate_checksums. rewrite Hdir, Hbase, Hjoin.
  fold command. unfold os_system, bind, ret, raise. cbn.
  destruct (exit_ok H (clock w) command); eexists;
    (split; [reflexivity|]); split; reflexivity.
Qed.

End Further.

(** ** The further properties on the sample machine *)

Module Cases.

Import Sample Scenarios.

Ltac differ :=
  let Heq := fresh "Heq" in intros Heq; vm_compute in Heq; discriminate Heq.

(** A pom that takes its version of Elasticsearch from its parent. *)
Definition pom_with_parent : string :=
  "<project>" +:+ nl +:+
  "<parent>" +:+ nl +:+
  "<artifactId>elasticsearch-parent</artifactId>" +:+ nl +:+
  "<version>1.3.0</version>" +:+ nl +:+
  "</parent>" +:+ nl +:+
  "<artifactId>elasticsearch-lang-x</artifactId>" +:+ nl +:+
  "<version>2.5.0-SNAPSHOT</version>" +:+ nl +:+
  "</project>" +:+ nl.

Definition start_with_parent : world :=
  set_fs (<["/work/pom.xml" := pom_with_parent]> files) (start []).

Definition parent_marker : string :=
  "<artifactId>elasticsearch-parent</artifactId>".

(** [--branch es-1.3 --skiptests --publish] *)
Definition publish : args := Args "es-1.3" false "origin" false true false.

(** [--branch master] *)
Definition from_master : args := Args "master" true "origin" true true false.

(** A machine whose environment holds what a run that publishes asks
    for. *)
Definition start_with_credentials : world :=
  World
    (<["AWS_ACCESS_KEY_ID" := "id"]>
     (<["AWS_SECRET_ACCESS_KEY" := "secret"]>
     (<["MAIL_SENDER" := "team@example.org"]> (env (start [closed_bug])))))
    files repository (tracker (start [closed_bug]))
    [""; ""; ""; ""; ""; ""] [] [] 0.

(** The same release, published. *)
Definition to_publish (c : context) : context :=
  Context (src_branch c) (remote c) (run_tests c) false (mail c)
    (release_version c) (artifact_id c) (artifact_name c)
    (artifact_description c) (project_url c) (elasticsearch_version c)
    (snapshot_version c).

Lemma process_file_missing_file_leaves_temporary_witness :
  fs (start []) !! "/work/missing.xml" = None ∧
  ∃ w', process_file machine "/work/missing.xml" (fun line => line)
          (start [])
        = (Raise FileNotFoundError, w').
Proof.
  split; [reflexivity|].
  destruct (process_file_missing_file_leaves_temporary machine
              "/work/missing.xml" (fun line => line) (start []))
    as (w' & Hrun & _).
  - reflexivity.
  - differ.
  - by exists w'.
Defined.

Lemma readme_updates_need_two_numbers_witness :
  update_documentation_in_released_branch machine lib "/work/README.md"
    "2.5.0" "1" (start [])
  = (Raise IndexError, start []).
Proof.
  apply (readme_updates_need_two_numbers machine lib "/work/README.md" ""
           "2.5.0" "es-1.3" "1" (start [])).
  vm_compute. lia.
Defined.

Lemma find_from_pom_reads_after_marker_witness :
  fst (find_from_pom machine lib "version" (Some parent_marker)
         start_with_parent)
  = Ok "1.3.0".
Proof.
  refine (eq_trans (f_equal fst
    (find_from_pom_reads_after_marker machine lib "version" parent_marker
       pom_with_parent
       ["<project>" +:+ nl; "<parent>" +:+ nl]
       (parent_marker +:+ nl)
       (skipn 3 (Text.lines (Text.universal_newlines pom_with_parent)))
       start_with_parent _ _ _ _)) _).
  - by_vm.
  - by_vm.
  - repeat (constructor; [by_vm|]). constructor.
  - vm_compute. by eexists.
  - by_vm.
Defined.

Lemma find_from_pom_without_marker_line_witness :
  find_from_pom machine lib "version" (Some parent_marker) (start [])
  = (Raise RuntimeError, start []).
Proof.
  apply (find_from_pom_without_marker_line machine lib "version"
           parent_marker pom (start [])).
  - by_vm.
  - let l := eval vm_compute in (Text.lines (Text.universal_newlines pom)) in
    change (Forall (fun line => re_search parent_marker line = None) l).
    repeat (constructor; [by_vm|]). constructor.
Defined.

Lemma find_from_pom_first_line_wins_witness :
  find_from_pom machine lib "artifactId" None (start [])
  = (Ok "elasticsearch-lang-x", start []).
Proof.
  apply (find_from_pom_first_line_wins machine lib "artifactId" pom
           ["<project>" +:+ nl]
           ("<artifactId>elasticsearch-lang-x</artifactId>" +:+ nl)
           (skipn 2 (Text.lines (Text.universal_newlines pom)))
           "elasticsearch-lang-x" (start [])).
  - by_vm.
  - by_vm.
  - repeat (constructor; [by_vm|]). constructor.
  - by_vm.
Defined.

Lemma find_release_version_reads_the_branch_witness :
  HEAD (git (snd (find_release_version machine lib "es-1.3" (start []))))
  = "es-1.3".
Proof.
  refine (proj1 (find_release_version_reads_the_branch machine lib "es-1.3"
                   "2.5.0" (start []) _ _)).
  by_vm.
Defined.

Lemma preflight_of_a_publishing_run_witness :
  ∃ answer,
    stdin start_with_credentials
    = answer :: stdin (snd (preflight publish start_with_credentials)).
Proof.
  refine (proj2 (proj2 (proj2 (proj2
    (preflight_of_a_publishing_run publish start_with_credentials
       (snd (preflight publish start_with_credentials)) _ _))))).
  - reflexivity.
  - by_vm.
Defined.

Lemma preflight_of_a_dry_run_witness :
  ∃ w', preflight dry start_without_java = (Ok tt, w').
Proof.
  destruct (preflight_of_a_dry_run dry start_without_java)
    as (w' & Hrun & _).
  - reflexivity.
  - differ.
  - by exists w'.
Defined.

Lemma main_refuses_master_witness :
  main machine lib as_string loaded from_master (start [])
  = (Raise RuntimeError, start []).
Proof. apply main_refuses_master; reflexivity. Defined.

Lemma script_needs_java_home_witness :
  script machine lib as_string publish start_without_java
  = (Raise RuntimeError, set_trace [] start_without_java).
Proof. apply script_needs_java_home. reflexivity. Defined.

Lemma module_init_globals_witness :
  env (start []) !! "JAVA_HOME" = Some (JAVA_HOME loaded) ∧
  MVN loaded = "mvn3".
Proof.
  destruct (module_init_globals machine (start []) loaded
              (at_main (start []))) as (Hjava & Hmvn & _).
  - by_vm.
  - split; [exact Hjava | exact Hmvn].
Defined.

Lemma release_branches_start_at_pulled_heads_witness :
  src_branch (found (start [])) ≠ "master" ∧
  HEAD (git (snd (baseline_and_branches machine loaded (found (start []))
                    (at_fan_out (start [])))))
  = release_branch (src_branch (found (start [])))
      (release_version (found (start []))).
Proof.
  destruct (release_branches_start_at_pulled_heads machine loaded
              (found (start [])) (at_fan_out (start [])) ("m0", "s0")
              (snd (baseline_and_branches machine loaded (found (start []))
                      (at_fan_out (start [])))))
    as (Hsrc & _ & _ & Hhead & _).
  - by_vm.
  - split; [exact Hsrc | exact Hhead].
Defined.

Lemma finalizer_removes_release_branches_witness :
  HEAD (git (snd (finalizer machine (found (start [])) "m0" "s0" false
                    (at_release (start [])))))
  = src_branch (found (start [])).
Proof.
  refine (proj2 (proj2 (finalizer_removes_release_branches machine
    (found (start [])) "m0" "s0" false (at_release (start [])) _ _))).
  by_vm.
Defined.

Lemma failed_release_is_rolled_back_witness :
  branches (git (snd (finalizer machine (found (start [open_bug])) "m0" "s0"
                        false
                        (snd (release_steps machine lib as_string loaded
                                (found (start [open_bug]))
                                (at_release (start [open_bug])))))))
  !! "master" = Some "m0".
Proof.
  refine (proj1 (proj2 (failed_release_is_rolled_back machine lib as_string
    loaded (found (start [open_bug])) "m0" "s0"
    (at_release (start [open_bug])) NameError
    (snd (release_steps machine lib as_string loaded
            (found (start [open_bug])) (at_release (start [open_bug]))))
    _ _ _ _))).
  - differ.
  - by_vm.
  - by_vm.
Defined.

Lemma published_release_is_tagged_and_pushed_witness :
  is_Some
    (tags (git (snd (try_finally
                       (release_steps machine lib as_string loaded
                          (to_publish (found (start [closed_bug]))))
                       (finalizer machine
                          (to_publish (found (start [closed_bug])))
                          "m0" "s0")
                       (at_release (start [closed_bug])))))
     !! release_tag (to_publish (found (start [closed_bug])))).
Proof.
  refine (proj1 (proj2 (published_release_is_tagged_and_pushed machine lib
    as_string loaded (to_publish (found (start [closed_bug]))) "m0" "s0"
    (at_release (start [closed_bug])) _ _ _))).
  - reflexivity.
  - by_vm.
Defined.

Lemma dry_run_pushes_and_mails_nothing_witness :
  outbox (snd (main machine lib as_string loaded dry
                 (at_main (start [closed_bug]))))
  = outbox (at_main (start [closed_bug])).
Proof.
  refine (proj1 (dry_run_pushes_and_mails_nothing machine lib as_string
    loaded dry (at_main (start [closed_bug]))
    (fst (main machine lib as_string loaded dry
            (at_main (start [closed_bug]))))
    (snd (main machine lib as_string loaded dry
            (at_main (start [closed_bug]))))
    _ _)).
  - reflexivity.
  - apply surjective_pairing.
Defined.

Lemma discover_postcondition_witness :
  HEAD (git (at_fan_out (start []))) = arg_branch dry ∧
  Str.contains "-SNAPSHOT" (elasticsearch_version (found (start [])))
  = false.
Proof.
  destruct (discover_postcondition machine lib dry (at_discover (start []))
              (found (start [])) (at_fan_out (start [])))
    as (Hhead & Hes & _).
  - by_vm.
  - split; [exact Hhead | exact Hes].
Defined.

Lemma generate_checksums_next_to_the_file_witness :
  ∃ w',
    generate_checksums machine "/work/target/releases/x.zip" (start [])
    = (Ok ["/work/target/releases/x.zip.sha1.txt";
           "/work/target/releases/x.zip"], w').
Proof.
  destruct (generate_checksums_next_to_the_file machine
              "/work/target/release" "s"%char "x.zip" (start []))
    as (w' & Hrun & _).
  - reflexivity.
  - reflexivity.
  - exists w'. exact Hrun.
Defined.

End Cases.
